(** * The PTP port engine of linuxptp (port.c)

    A shallow embedding of [port.c]: the foreign master records and their
    message queues, the five message processors, the best-master selection
    of one port, the state machine driver and the event dispatcher, with
    the properties of the port that are stated about them.

    Conventions.
    - C integers are [Z]; unsigned counters wrap where the code can wrap
      them ([to_u16], [to_u32]).
    - A function that the C code can only leave through a NULL or dangling
      pointer dereference returns [None] there.
    - The collaborators of the port (clock, transport, message codec,
      timers, allocator) are not part of [port.c]: what they answer during
      one call is read from a [world], what the port asks of them is
      returned as a list of [call]s, oldest first. *)

From Stdlib Require Import ZArith Bool List Lia String.
From stdpp Require Import base tactics option list.

Local Open Scope Z_scope.

(** ** Machine integers and octets *)

Definition to_u16 (z : Z) : Z := z mod 2 ^ 16.
Definition to_u32 (z : Z) : Z := z mod 2 ^ 32.

(** The signed integers of 32 and of 64 bits, in two's complement. *)
Definition to_s32 (z : Z) : Z := (z + 2 ^ 31) mod 2 ^ 32 - 2 ^ 31.
Definition to_s64 (z : Z) : Z := (z + 2 ^ 63) mod 2 ^ 64 - 2 ^ 63.

(** The [n] octets of [v], most significant first. *)
Fixpoint be_octets (n : nat) (v : Z) : list Z :=
  match n with
  | O => []
  | S k => (Z.shiftr v (8 * Z.of_nat k)) mod 256 :: be_octets k v
  end.

(** The value whose octets, most significant first, are [l]. *)
Definition of_be_octets (l : list Z) : Z :=
  fold_left (fun acc o => acc * 256 + o) l 0.

(** [memcmp] over two equally long octet strings: the sign of the first
    difference. *)
Fixpoint memcmp (a b : list Z) : Z :=
  match a, b with
  | x :: a', y :: b' =>
      if x <? y then -1 else if y <? x then 1 else memcmp a' b'
  | _, _ => 0
  end.

Section Host.

(** Byte order of the host that runs the port. *)
Variable little_endian : bool.

(** The octets of an [n]-octet integer as they lie in host memory. *)
Definition host_octets (n : nat) (v : Z) : list Z :=
  if little_endian then rev (be_octets n v) else be_octets n v.

(** <arpa/inet.h>: host to network order and back. *)
Definition htons (v : Z) : Z :=
  if little_endian then of_be_octets (rev (be_octets 2 v)) else to_u16 v.
Definition htonl (v : Z) : Z :=
  if little_endian then of_be_octets (rev (be_octets 4 v)) else to_u32 v.
Definition ntohs (v : Z) : Z := htons v.

End Host.

(** ** Data model *)

Record timespec := { tv_sec : Z; tv_nsec : Z }.

(** [struct timestamp]: a decoded on-wire time. *)
Record timestamp := { sec : Z; nsec : Z }.

(** [struct Timestamp]: the on-wire 48+32 bit time. *)
Record Timestamp := {
  seconds_msb : Z;   (* UInteger16 *)
  seconds_lsb : Z;   (* UInteger32 *)
  nanoseconds : Z    (* UInteger32 *)
}.

Record PortIdentity := {
  clockIdentity : Z;   (* eight octets, read most significant first *)
  portNumber : Z       (* UInteger16 *)
}.

Record ClockQuality := {
  clockClass : Z;               (* UInteger8 *)
  clockAccuracy : Z;            (* Enumeration8 *)
  offsetScaledLogVariance : Z   (* UInteger16 *)
}.

(** The message types that [port_event] switches on. *)
Inductive message_type :=
| SYNC | DELAY_REQ | PDELAY_REQ | PDELAY_RESP | FOLLOW_UP | DELAY_RESP
| PDELAY_RESP_FOLLOW_UP | ANNOUNCE | SIGNALING | MANAGEMENT.

Inductive control_field :=
| CTL_SYNC | CTL_DELAY_REQ | CTL_FOLLOW_UP | CTL_DELAY_RESP
| CTL_MANAGEMENT | CTL_OTHER.

Record ptp_header := {
  tsmt : message_type;
  ver : Z;
  messageLength : Z;
  domainNumber : Z;
  twoStepFlag : bool;
  correction : Z;                     (* Integer64 *)
  sourcePortIdentity : PortIdentity;
  sequenceId : Z;                     (* UInteger16 *)
  control : control_field;
  logMessageInterval : Z              (* Integer8 *)
}.

Record announce_msg := {
  grandmasterPriority1 : Z;           (* UInteger8 *)
  grandmasterClockQuality : ClockQuality;
  grandmasterPriority2 : Z;           (* UInteger8 *)
  grandmasterIdentity : Z;            (* eight octets *)
  stepsRemoved : Z                    (* UInteger16 *)
}.

Record delay_resp_msg := {
  receiveTimestamp : Timestamp;
  requestingPortIdentity : PortIdentity
}.

Record hw_timestamp := { hwts_type : Z; hwts_ts : timespec }.

(** [struct ptp_message]: the header shared by every view of the message
    union, the two bodies that [port.c] reads or writes, and the time
    stamps kept next to the wire data. *)
Record ptp_message := {
  header : ptp_header;
  announce : announce_msg;
  delay_resp : delay_resp_msg;
  ts_pdu : timestamp;
  ts_host : timespec;
  hwts : hw_timestamp
}.

Record dataset := {
  priority1 : Z;
  identity : Z;
  quality : ClockQuality;
  priority2 : Z;
  ds_stepsRemoved : Z;
  sender : PortIdentity;
  receiver : PortIdentity
}.

(** [struct foreign_clock]: [messages] lists the tail queue from its head,
    the newest message first. *)
Record foreign_clock := {
  messages : list ptp_message;
  n_messages : Z;                     (* unsigned int *)
  fc_dataset : dataset
}.

Inductive port_state :=
| PS_INITIALIZING | PS_FAULTY | PS_DISABLED | PS_LISTENING | PS_PRE_MASTER
| PS_MASTER | PS_GRAND_MASTER | PS_PASSIVE | PS_UNCALIBRATED | PS_SLAVE.

(** The events that [port.c] names, and the rest of the enumeration by
    its numeric value. *)
Inductive fsm_event :=
| EV_NONE
| EV_FAULT_DETECTED
| EV_STATE_DECISION_EVENT
| EV_ANNOUNCE_RECEIPT_TIMEOUT_EXPIRES
| EV_OTHER (code : Z).

Inductive fd_index :=
| FD_EVENT | FD_GENERAL | FD_ANNOUNCE_TIMER | FD_DELAY_TIMER.

#[global] Instance port_state_eq_dec : EqDecision port_state.
Proof. solve_decision. Defined.
#[global] Instance fd_index_eq_dec : EqDecision fd_index.
Proof. solve_decision. Defined.
#[global] Instance message_type_eq_dec : EqDecision message_type.
Proof. solve_decision. Defined.

Record fdarray := { cnt : Z; fd : fd_index -> Z }.

(** [struct port].  [best] points into [foreign_masters]: it is kept as the
    position of the record it points to.  The handles [clock] and
    [transport] stand for the collaborators and carry no data here. *)
Record port := {
  name : string;
  timestamping : Z;
  fda : fdarray;
  best : option nat;
  last_follow_up : option ptp_message;
  last_sync : option ptp_message;
  delay_req : option ptp_message;
  seqnum : Z;                         (* UInteger16 *)
  portIdentity : PortIdentity;
  state : port_state;
  logMinDelayReqInterval : Z;
  peerMeanPathDelay : Z;
  logAnnounceInterval : Z;
  announceReceiptTimeout : Z;
  logSyncInterval : Z;
  delayMechanism : Z;
  logMinPdelayReqInterval : Z;
  versionNumber : Z;
  foreign_masters : list foreign_clock
}.

(** Field updates of [struct foreign_clock] and [struct port]. *)
Definition fc_with_queue (fc : foreign_clock) (q : list ptp_message) (n : Z)
  : foreign_clock :=
  {| messages := q; n_messages := n; fc_dataset := fc_dataset fc |}.

Definition fc_with_dataset (fc : foreign_clock) (d : dataset) : foreign_clock :=
  {| messages := messages fc; n_messages := n_messages fc; fc_dataset := d |}.

Definition port_with_table (p : port) (b : option nat) (l : list foreign_clock)
  : port :=
  {| name := name p; timestamping := timestamping p; fda := fda p;
     best := b; last_follow_up := last_follow_up p;
     last_sync := last_sync p; delay_req := delay_req p; seqnum := seqnum p;
     portIdentity := portIdentity p; state := state p;
     logMinDelayReqInterval := logMinDelayReqInterval p;
     peerMeanPathDelay := peerMeanPathDelay p;
     logAnnounceInterval := logAnnounceInterval p;
     announceReceiptTimeout := announceReceiptTimeout p;
     logSyncInterval := logSyncInterval p;
     delayMechanism := delayMechanism p;
     logMinPdelayReqInterval := logMinPdelayReqInterval p;
     versionNumber := versionNumber p;
     foreign_masters := l |}.

Definition port_with_last_follow_up (p : port) (m : option ptp_message) : port :=
  {| name := name p; timestamping := timestamping p; fda := fda p;
     best := best p; last_follow_up := m;
     last_sync := last_sync p; delay_req := delay_req p; seqnum := seqnum p;
     portIdentity := portIdentity p; state := state p;
     logMinDelayReqInterval := logMinDelayReqInterval p;
     peerMeanPathDelay := peerMeanPathDelay p;
     logAnnounceInterval := logAnnounceInterval p;
     announceReceiptTimeout := announceReceiptTimeout p;
     logSyncInterval := logSyncInterval p;
     delayMechanism := delayMechanism p;
     logMinPdelayReqInterval := logMinPdelayReqInterval p;
     versionNumber := versionNumber p;
     foreign_masters := foreign_masters p |}.

Definition port_with_last_sync (p : port) (m : option ptp_message) : port :=
  {| name := name p; timestamping := timestamping p; fda := fda p;
     best := best p; last_follow_up := last_follow_up p;
     last_sync := m; delay_req := delay_req p; seqnum := seqnum p;
     portIdentity := portIdentity p; state := state p;
     logMinDelayReqInterval := logMinDelayReqInterval p;
     peerMeanPathDelay := peerMeanPathDelay p;
     logAnnounceInterval := logAnnounceInterval p;
     announceReceiptTimeout := announceReceiptTimeout p;
     logSyncInterval := logSyncInterval p;
     delayMechanism := delayMechanism p;
     logMinPdelayReqInterval := logMinPdelayReqInterval p;
     versionNumber := versionNumber p;
     foreign_masters := foreign_masters p |}.

Definition port_with_delay_req (p : port) (m : option ptp_message) (s : Z)
  : port :=
  {| name := name p; timestamping := timestamping p; fda := fda p;
     best := best p; last_follow_up := last_follow_up p;
     last_sync := last_sync p; delay_req := m; seqnum := s;
     portIdentity := portIdentity p; state := state p;
     logMinDelayReqInterval := logMinDelayReqInterval p;
     peerMeanPathDelay := peerMeanPathDelay p;
     logAnnounceInterval := logAnnounceInterval p;
     announceReceiptTimeout := announceReceiptTimeout p;
     logSyncInterval := logSyncInterval p;
     delayMechanism := delayMechanism p;
     logMinPdelayReqInterval := logMinPdelayReqInterval p;
     versionNumber := versionNumber p;
     foreign_masters := foreign_masters p |}.

Definition port_with_state (p : port) (s : port_state) : port :=
  {| name := name p; timestamping := timestamping p; fda := fda p;
     best := best p; last_follow_up := last_follow_up p;
     last_sync := last_sync p; delay_req := delay_req p; seqnum := seqnum p;
     portIdentity := portIdentity p; state := s;
     logMinDelayReqInterval := logMinDelayReqInterval p;
     peerMeanPathDelay := peerMeanPathDelay p;
     logAnnounceInterval := logAnnounceInterval p;
     announceReceiptTimeout := announceReceiptTimeout p;
     logSyncInterval := logSyncInterval p;
     delayMechanism := delayMechanism p;
     logMinPdelayReqInterval := logMinPdelayReqInterval p;
     versionNumber := versionNumber p;
     foreign_masters := foreign_masters p |}.

Definition port_with_logMinDelayReqInterval (p : port) (v : Z) : port :=
  {| name := name p; timestamping := timestamping p; fda := fda p;
     best := best p; last_follow_up := last_follow_up p;
     last_sync := last_sync p; delay_req := delay_req p; seqnum := seqnum p;
     portIdentity := portIdentity p; state := state p;
     logMinDelayReqInterval := v;
     peerMeanPathDelay := peerMeanPathDelay p;
     logAnnounceInterval := logAnnounceInterval p;
     announceReceiptTimeout := announceReceiptTimeout p;
     logSyncInterval := logSyncInterval p;
     delayMechanism := delayMechanism p;
     logMinPdelayReqInterval := logMinPdelayReqInterval p;
     versionNumber := versionNumber p;
     foreign_masters := foreign_masters p |}.

Definition port_with_fda (p : port) (f : fdarray) : port :=
  {| name := name p; timestamping := timestamping p; fda := f;
     best := best p; last_follow_up := last_follow_up p;
     last_sync := last_sync p; delay_req := delay_req p; seqnum := seqnum p;
     portIdentity := portIdentity p; state := state p;
     logMinDelayReqInterval := logMinDelayReqInterval p;
     peerMeanPathDelay := peerMeanPathDelay p;
     logAnnounceInterval := logAnnounceInterval p;
     announceReceiptTimeout := announceReceiptTimeout p;
     logSyncInterval := logSyncInterval p;
     delayMechanism := delayMechanism p;
     logMinPdelayReqInterval := logMinPdelayReqInterval p;
     versionNumber := versionNumber p;
     foreign_masters := foreign_masters p |}.

(** What [memset] leaves in the fields of a record or of a message. *)
Definition zero_identity : PortIdentity :=
  {| clockIdentity := 0; portNumber := 0 |}.
Definition zero_quality : ClockQuality :=
  {| clockClass := 0; clockAccuracy := 0; offsetScaledLogVariance := 0 |}.
Definition zero_timespec : timespec := {| tv_sec := 0; tv_nsec := 0 |}.
Definition zero_announce : announce_msg :=
  {| grandmasterPriority1 := 0; grandmasterClockQuality := zero_quality;
     grandmasterPriority2 := 0; grandmasterIdentity := 0; stepsRemoved := 0 |}.
Definition zero_delay_resp : delay_resp_msg :=
  {| receiveTimestamp :=
       {| seconds_msb := 0; seconds_lsb := 0; nanoseconds := 0 |};
     requestingPortIdentity := zero_identity |}.

(** ** The collaborators *)

(** What the collaborators answer during one call into the port. *)
Record world := {
  w_now : timespec;                   (* clock_gettime(CLOCK_MONOTONIC) *)
  w_parent_identity : PortIdentity;   (* clock_parent_identity *)
  w_domain_number : Z;                (* clock_domain_number *)
  w_malloc : bool;                    (* malloc of a foreign_clock succeeds *)
  w_rx_allocate : bool;               (* msg_allocate of the receive buffer *)
  w_tx_allocate : bool;               (* msg_allocate of a message to send *)
  w_pre_send : ptp_message -> Z * ptp_message;
                                      (* msg_pre_send: status, buffer after *)
  w_send : Z * hw_timestamp;          (* transport send: count, egress time *)
  w_recv : Z;                         (* transport recv: count *)
  w_post_recv : Z;                    (* msg_post_recv: status *)
  w_rx_message : ptp_message;         (* the received message, decoded *)
  w_timerfd_create1 : Z;
  w_timerfd_create2 : Z;
  w_transport_open : Z * fdarray;     (* status, descriptor array after *)
  w_timerfd_settime : Z
}.

(** What the port asks of its collaborators.  [clock_synchronize] and
    [clock_path_delay] keep the argument order of the calls in [port.c]:
    the ingress time of the Sync (T2) before its origin time (T1), the
    egress time of the Delay_Req (T3) before its receive time (T4). *)
Inductive call :=
| clock_synchronize (ingress_ts : timespec) (origin_ts : timestamp)
                    (correction1 correction2 : Z)
| clock_path_delay (req : timespec) (rx : timestamp) (corr : Z)
| clock_install_fda (f : fdarray)
| timerfd_create
| timerfd_settime (tfd : Z) (it_value_sec : Z)
| sys_close (cfd : Z)
| transport_open (ifname : string) (ts_type : Z)
| transport_close (f : fdarray)
| transport_send (event : Z) (m : ptp_message) (len : Z)
| transport_recv (rfd : Z)
| msg_pre_send (m : ptp_message).

(** ** Sample data

    A clock with identity [parent_id] is the parent; the port under test
    is port 1 of [own_id], on a little-endian host, with a threshold of
    two announcements. *)

Definition parent_id : PortIdentity :=
  {| clockIdentity := 0x001122FFFE334455; portNumber := 1 |}.
Definition own_id : PortIdentity :=
  {| clockIdentity := 0x00AABBFFFECCDDEE; portNumber := 1 |}.
Definition other_id : PortIdentity :=
  {| clockIdentity := 0x00DEADFFFEBEEF00; portNumber := 2 |}.

Definition sample_header (t : message_type) (src : PortIdentity) (seq : Z)
    (two_step : bool) (corr : Z) : ptp_header :=
  {| tsmt := t; ver := 2; messageLength := 44; domainNumber := 0;
     twoStepFlag := two_step; correction := corr;
     sourcePortIdentity := src; sequenceId := seq; control := CTL_OTHER;
     logMessageInterval := 1 |}.

(** A message with header [h], received at [ingress] seconds by the
    hardware and at [host] seconds by the host, carrying the origin time
    [origin], the announcement [a] and the requesting port [req]. *)
Definition sample_message (h : ptp_header) (ingress origin host : Z)
    (a : announce_msg) (req : PortIdentity) : ptp_message :=
  {| header := h;
     announce := a;
     delay_resp :=
       {| receiveTimestamp :=
            {| seconds_msb := 0; seconds_lsb := 0; nanoseconds := 0 |};
          requestingPortIdentity := req |};
     ts_pdu := {| sec := origin; nsec := 0 |};
     ts_host := {| tv_sec := host; tv_nsec := 0 |};
     hwts := {| hwts_type := 0;
                hwts_ts := {| tv_sec := ingress; tv_nsec := 0 |} |} |}.

Definition sample_announce (prio : Z) : announce_msg :=
  {| grandmasterPriority1 := prio;
     grandmasterClockQuality :=
       {| clockClass := 248; clockAccuracy := 254;
          offsetScaledLogVariance := 65535 |};
     grandmasterPriority2 := 128;
     grandmasterIdentity := 0x001122FFFE334455;
     stepsRemoved := 0 |}.

(** Sync 42 arrives at second 100, its Follow_Up carries the origin time
    90 and a correction of 3; an older Sync with the same sequence id
    arrived at second 50. *)
Definition sync42 : ptp_message :=
  sample_message (sample_header SYNC parent_id 42 true 0) 100 0 100
    zero_announce zero_identity.
Definition follow_up42 : ptp_message :=
  sample_message (sample_header FOLLOW_UP parent_id 42 false 3) 0 90 100
    zero_announce zero_identity.
Definition stale_sync42 : ptp_message :=
  sample_message (sample_header SYNC parent_id 42 true 0) 50 0 50
    zero_announce zero_identity.
Definition stale_follow_up42 : ptp_message :=
  sample_message (sample_header FOLLOW_UP parent_id 42 false 1) 0 40 50
    zero_announce zero_identity.
Definition one_step_sync : ptp_message :=
  sample_message (sample_header SYNC parent_id 43 false 5) 100 90 100
    zero_announce zero_identity.

(** Announcements of the parent and of another clock, taken at the host
    seconds [host]. *)
Definition announce_from (src : PortIdentity) (seq prio host : Z)
  : ptp_message :=
  sample_message (sample_header ANNOUNCE src seq false 0) host 0 host
    (sample_announce prio) zero_identity.

(** The Delay_Req sent with sequence id 7 at second 200, as it is kept
    after [msg_pre_send] on a little-endian host (7 * 256 = 1792), and the
    Delay_Resp that answers it. *)
Definition sent_delay_req : ptp_message :=
  sample_message (sample_header DELAY_REQ own_id 1792 false 0) 200 0 0
    zero_announce zero_identity.
Definition delay_resp7 : ptp_message :=
  sample_message (sample_header DELAY_RESP parent_id 7 false 1) 0 210 0
    zero_announce own_id.

(** A Delay_Req of a slave, received at second [ingress]. *)
Definition delay_req_rx (ingress : Z) : ptp_message :=
  sample_message (sample_header DELAY_REQ other_id 9 false 0) ingress 0 0
    zero_announce zero_identity.

Definition sample_fda : fdarray :=
  {| cnt := 4;
     fd := fun i => match i with
                    | FD_EVENT => 3 | FD_GENERAL => 4
                    | FD_ANNOUNCE_TIMER => 5 | FD_DELAY_TIMER => 6
                    end |}.

Definition sample_port (s : port_state) (req : option ptp_message)
    (syn : option ptp_message) (b : option nat) (l : list foreign_clock)
  : port :=
  {| name := "eth0"%string; timestamping := 0; fda := sample_fda;
     best := b; last_follow_up := None; last_sync := syn;
     delay_req := req; seqnum := 8; portIdentity := own_id; state := s;
     logMinDelayReqInterval := 0; peerMeanPathDelay := 0;
     logAnnounceInterval := 1; announceReceiptTimeout := 3;
     logSyncInterval := 0; delayMechanism := 1;
     logMinPdelayReqInterval := 2; versionNumber := 2;
     foreign_masters := l |}.

(** The collaborators at second [now]: every allocation succeeds, the
    codec accepts the message and leaves it as it is, the transport
    delivers [rx] and reports [sent] octets for a send. *)
Definition sample_world_at (now : Z) (rx : ptp_message) (sent : Z) : world :=
  {| w_now := {| tv_sec := now; tv_nsec := 0 |};
     w_parent_identity := parent_id;
     w_domain_number := 0;
     w_malloc := true;
     w_rx_allocate := true;
     w_tx_allocate := true;
     w_pre_send := fun m => (0, m);
     w_send := (sent, {| hwts_type := 0;
                         hwts_ts := {| tv_sec := 200; tv_nsec := 0 |} |});
     w_recv := 44;
     w_post_recv := 0;
     w_rx_message := rx;
     w_timerfd_create1 := 5;
     w_timerfd_create2 := 6;
     w_transport_open := (0, {| cnt := 2; fd := fd sample_fda |});
     w_timerfd_settime := 0 |}.

Definition sample_world : ptp_message -> Z -> world := sample_world_at 10.

(** A record of the parent with the announcements [q], newest first. *)
Definition sample_record (src : PortIdentity) (q : list ptp_message)
  : foreign_clock :=
  {| messages := q; n_messages := Z.of_nat (length q);
     fc_dataset :=
       {| priority1 := 0; identity := 0; quality := zero_quality;
          priority2 := 0; ds_stepsRemoved := 0; sender := src;
          receiver := zero_identity |} |}.

(** A comparator that ranks by [priority1], the lower the better, and a
    transition function that initializes on the events it does not know
    and otherwise stays. *)
Definition sample_dscmp (a b : dataset) : Z := priority1 b - priority1 a.

Definition sample_fsm (s : port_state) (e : fsm_event) : port_state :=
  match e with
  | EV_OTHER _ => PS_INITIALIZING
  | EV_FAULT_DETECTED => PS_FAULTY
  | _ => s
  end.

(** The table of a listening port whose record of the parent holds [n]
    announcements, one second apart, the newest of second 9. *)
Definition parent_announcements (n : nat) : list ptp_message :=
  map (fun k => announce_from parent_id (10 - Z.of_nat k) 128
                  (10 - Z.of_nat k))
      (seq 1 n).

Definition listening_port (n : nat) : port :=
  sample_port PS_LISTENING None None None
    [sample_record parent_id (parent_announcements n)].

(** Two qualified records: the parent announces priority 128, another
    clock priority 100; and the time read for every prune is second 10. *)
Definition two_masters (first second : PortIdentity) (prio1 prio2 : Z)
  : list foreign_clock :=
  [sample_record first
     [announce_from first 2 prio1 9; announce_from first 1 prio1 8];
   sample_record second
     [announce_from second 2 prio2 9; announce_from second 1 prio2 8]].

Definition at_second_10 : nat -> timespec :=
  fun _ => {| tv_sec := 10; tv_nsec := 0 |}.

(** A comparator that does not rank: on the priorities 0, 1 and 2 it is
    the cycle in which 1 beats 0, 2 beats 1 and 0 beats 2.  No data set
    beats itself and no two data sets beat each other. *)
Definition cyclic_dscmp (a b : dataset) : Z :=
  if (priority1 a - priority1 b) mod 3 =? 1 then 1
  else if (priority1 b - priority1 a) mod 3 =? 1 then -1
  else 0.

(** Three qualified records, of the priorities 0, 1 and 2. *)
Definition third_id : PortIdentity :=
  {| clockIdentity := 0x00C0FFFFFEEE0000; portNumber := 1 |}.

Definition three_masters : list foreign_clock :=
  [sample_record parent_id
     [announce_from parent_id 2 0 9; announce_from parent_id 1 0 8];
   sample_record other_id
     [announce_from other_id 2 1 9; announce_from other_id 1 1 8];
   sample_record third_id
     [announce_from third_id 2 2 9; announce_from third_id 1 2 8]].


(** The time read for every prune is second 16: an announcement of
    second 8, with its window of 4 * 2^1 seconds, is no longer current. *)
Definition at_second_16 : nat -> timespec :=
  fun _ => {| tv_sec := 16; tv_nsec := 0 |}.

(** A record of the parent that holds three announcements and counts
    two. *)
Definition miscounted_record : foreign_clock :=
  fc_with_queue (sample_record parent_id (parent_announcements 3))
    (parent_announcements 3) 2.

(** The collaborators of [sample_world], with a codec that leaves the
    sequence id of a message to send in network order on a little-endian
    host, and with [result] as the answer of every [timerfd_settime]. *)
Definition network_order (m : ptp_message) : Z * ptp_message :=
  (0,
   {| header :=
        {| tsmt := tsmt (header m); ver := ver (header m);
           messageLength := messageLength (header m);
           domainNumber := domainNumber (header m);
           twoStepFlag := twoStepFlag (header m);
           correction := correction (header m);
           sourcePortIdentity := sourcePortIdentity (header m);
           sequenceId := htons true (sequenceId (header m));
           control := control (header m);
           logMessageInterval := logMessageInterval (header m) |};
      announce := announce m; delay_resp := delay_resp m;
      ts_pdu := ts_pdu m; ts_host := ts_host m; hwts := hwts m |}).

Definition wire_world (rx : ptp_message) (result : Z) : world :=
  {| w_now := {| tv_sec := 10; tv_nsec := 0 |};
     w_parent_identity := parent_id;
     w_domain_number := 0;
     w_malloc := true;
     w_rx_allocate := true;
     w_tx_allocate := true;
     w_pre_send := network_order;
     w_send := (44, {| hwts_type := 0;
                       hwts_ts := {| tv_sec := 200; tv_nsec := 0 |} |});
     w_recv := 44;
     w_post_recv := 0;
     w_rx_message := rx;
     w_timerfd_create1 := 5;
     w_timerfd_create2 := 6;
     w_transport_open := (0, {| cnt := 2; fd := fd sample_fda |});
     w_timerfd_settime := result |}.

(** The Delay_Resp that answers the Delay_Req with sequence id 8. *)
Definition delay_resp8 : ptp_message :=
  sample_message (sample_header DELAY_RESP parent_id 8 false 1) 0 210 0
    zero_announce own_id.

(** A slave whose best record, the only one, is the record of the
    parent with [n] announcements. *)
Definition slave_of_parent (n : nat) : port :=
  sample_port PS_SLAVE None None (Some 0%nat)
    [sample_record parent_id (parent_announcements n)].
(** ** port.c *)

Definition PTP_VERSION : Z := 2.
Definition LOG_MIN_DELAY_REQ_INTERVAL : Z := 0.
Definition LOG_ANNOUNCE_INTERVAL : Z := 1.
Definition ANNOUNCE_RECEIPT_TIMEOUT : Z := 3.
Definition LOG_SYNC_INTERVAL : Z := 0.
Definition LOG_MIN_PDELAY_REQ_INTERVAL : Z := 2.
Definition NSEC2SEC : Z := 1000000000.

Definition portnum (p : port) : Z := portNumber (portIdentity p).

(** Modelled from the spec: one_step is declared in msg.h, which is not
    part of the sources; a Sync is one-step when the two-step flag of the
    message is not set. *)
Definition one_step (m : ptp_message) : bool := negb (twoStepFlag (header m)).

(** Modelled from the spec: msg_type is declared in msg.h; it yields the
    type of the message, kept in the header. *)
Definition msg_type (m : ptp_message) : message_type := tsmt (header m).

Section Port.

Variable little_endian : bool.

(** Modelled from the spec: FOREIGN_MASTER_THRESHOLD is defined in
    foreign.h, which is not part of the sources; it is the qualification
    count, a constant of the standard (typically 2). *)
Variable FOREIGN_MASTER_THRESHOLD : Z.

(** The comparator of the best master clock module (bmc.h) and the
    transition function of the state machine (fsm.h). *)
Variable dscmp : dataset -> dataset -> Z.
Variable ptp_fsm : port_state -> fsm_event -> port_state.

(** The octets of a packed [struct PortIdentity] in host memory. *)
Definition PortIdentity_octets (id : PortIdentity) : list Z :=
  be_octets 8 (clockIdentity id) ++ host_octets little_endian 2 (portNumber id).

(** The octets from [grandmasterPriority1] to [stepsRemoved] of a packed
    [struct announce_msg]. *)
Definition announce_octets (a : announce_msg) : list Z :=
  be_octets 1 (grandmasterPriority1 a) ++
  (be_octets 1 (clockClass (grandmasterClockQuality a)) ++
   be_octets 1 (clockAccuracy (grandmasterClockQuality a)) ++
   host_octets little_endian 2
     (offsetScaledLogVariance (grandmasterClockQuality a))) ++
  be_octets 1 (grandmasterPriority2 a) ++
  be_octets 8 (grandmasterIdentity a) ++
  host_octets little_endian 2 (stepsRemoved a).

Definition announce_compare (m1 m2 : ptp_message) : Z :=
  memcmp (announce_octets (announce m1)) (announce_octets (announce m2)).

Definition announce_to_dataset (m : ptp_message) (w : world) : dataset :=
  let a := announce m in
  {| priority1 := grandmasterPriority1 a;
     identity := grandmasterIdentity a;
     quality := grandmasterClockQuality a;
     priority2 := grandmasterPriority2 a;
     ds_stepsRemoved := stepsRemoved a;
     sender := sourcePortIdentity (header m);
     receiver := w_parent_identity w |}.

(** [t1], [t2] and [tmo] are [int64_t]: the products with NSEC2SEC, the
    sums and the difference wrap at 64 bits.  The shift and the product
    with 4 are computed in [int] and wrap at 32 bits before they are
    widened; a shift count outside 0..31, which C leaves undefined, is
    taken modulo 32, as the shift instruction of the x86 takes it. *)
Definition msg_current (m : ptp_message) (now : timespec) : bool :=
  let t1 :=
    to_s64 (to_s64 (tv_sec (ts_host m) * NSEC2SEC) + tv_nsec (ts_host m)) in
  let t2 := to_s64 (to_s64 (tv_sec now * NSEC2SEC) + tv_nsec now) in
  let tmo :=
    to_s64
      (to_s32 (4 * to_s32 (Z.shiftl 1 (logMessageInterval (header m) mod 32)))
       * NSEC2SEC) in
  to_s64 (t2 - t1) <? tmo.

Definition pid_eq (a b : PortIdentity) : bool :=
  0 =? memcmp (PortIdentity_octets a) (PortIdentity_octets b).

Definition msg_source_equal (m1 : ptp_message) (fc : foreign_clock) : bool :=
  pid_eq (sourcePortIdentity (header m1)) (sender (fc_dataset fc)).

(** The loops of [fc_clear] and [fc_prune] take messages off the tail of
    the queue: they run over the queue read from its tail, the oldest
    message first.  [TAILQ_REMOVE] of the last element of an empty queue
    dereferences NULL. *)
Fixpoint fc_clear_loop (q : list ptp_message) (n : Z)
  : option (list ptp_message * Z) :=
  if n =? 0 then Some (q, n)
  else match q with
       | [] => None
       | _ :: q' => fc_clear_loop q' (to_u32 (n - 1))
       end.

Definition fc_clear (fc : foreign_clock) : option foreign_clock :=
  '(q, n) ← fc_clear_loop (rev (messages fc)) (n_messages fc);
  Some (fc_with_queue fc (rev q) n).

Fixpoint fc_prune_excess (q : list ptp_message) (n : Z)
  : option (list ptp_message * Z) :=
  if n >? to_u32 FOREIGN_MASTER_THRESHOLD then
    match q with
    | [] => None
    | _ :: q' => fc_prune_excess q' (to_u32 (n - 1))
    end
  else Some (q, n).

Fixpoint fc_prune_stale (now : timespec) (q : list ptp_message) (n : Z)
  : list ptp_message * Z :=
  match q with
  | [] => (q, n)
  | m :: q' =>
      if msg_current m now then (q, n)
      else fc_prune_stale now q' (to_u32 (n - 1))
  end.

Definition fc_prune (now : timespec) (fc : foreign_clock)
  : option foreign_clock :=
  '(q1, n1) ← fc_prune_excess (rev (messages fc)) (n_messages fc);
  let '(q2, n2) := fc_prune_stale now q1 n1 in
  Some (fc_with_queue fc (rev q2) n2).

(** The zeroed record of [memset], followed by the store of the sender. *)
Definition new_foreign_clock (m : ptp_message) : foreign_clock :=
  {| messages := []; n_messages := 0;
     fc_dataset :=
       {| priority1 := 0; identity := 0; quality := zero_quality;
          priority2 := 0; ds_stepsRemoved := 0;
          sender := sourcePortIdentity (header m);
          receiver := zero_identity |} |}.

(** [msg_get], the increment of [n_messages] and [TAILQ_INSERT_HEAD],
    then the comparison with the message that was at the head before.
    Yields the record and the value of [diff]. *)
Definition fc_add (fc : foreign_clock) (m : ptp_message)
  : option (foreign_clock * Z) :=
  let n := to_u32 (n_messages fc + 1) in
  let fc' := fc_with_queue fc (m :: messages fc) n in
  if n >? 1 then
    match messages fc with
    | [] => None
    | tmp :: _ => Some (fc', announce_compare m tmp)
    end
  else Some (fc', 0).

Definition add_foreign_master (w : world) (p : port) (m : ptp_message)
  : option (port * Z) :=
  match list_find (fun fc => msg_source_equal m fc = true) (foreign_masters p) with
  | None =>
      if w_malloc w then
        Some (port_with_table p (S <$> best p)
                (new_foreign_clock m :: foreign_masters p), 0)
      else Some (p, 0)
  | Some (i, fc) =>
      fc1 ← fc_prune (w_now w) fc;
      let broke_threshold :=
        bool_decide (to_u32 (FOREIGN_MASTER_THRESHOLD - 1) = n_messages fc1) in
      '(fc2, diff) ← fc_add fc1 m;
      Some (port_with_table p (best p) (<[i := fc2]> (foreign_masters p)),
            if broke_threshold || negb (diff =? 0) then 1 else 0)
  end.

Definition port_clr_tmo (w : world) (tfd : Z) : Z * list call :=
  (w_timerfd_settime w, [timerfd_settime tfd 0]).

(** The shifts are the C ones while the interval is not negative and the
    result fits an [int]. *)
Definition port_set_announce_tmo (w : world) (p : port) : Z * list call :=
  (w_timerfd_settime w,
   [timerfd_settime (fd (fda p) FD_ANNOUNCE_TIMER)
      (announceReceiptTimeout p * Z.shiftl 1 (logAnnounceInterval p))]).

Definition port_set_delay_tmo (w : world) (p : port) : Z * list call :=
  (w_timerfd_settime w,
   [timerfd_settime (fd (fda p) FD_DELAY_TIMER)
      (Z.shiftl 1 (logMinDelayReqInterval p + 1))]).

(** The sizes of the packed wire structures: a header of 34 octets, a
    time stamp of 10 and a port identity of 10. *)
Definition sizeof_delay_req_msg : Z := 44.
Definition sizeof_delay_resp_msg : Z := 54.

Definition msg_with_hwts (m : ptp_message) (h : hw_timestamp) : ptp_message :=
  {| header := header m; announce := announce m; delay_resp := delay_resp m;
     ts_pdu := ts_pdu m; ts_host := ts_host m; hwts := h |}.

(** The Delay_Req that [port_delay_request] fills in before it hands it
    to [msg_pre_send]. *)
Definition delay_req_build (w : world) (p : port) : ptp_message :=
  {| header :=
       {| tsmt := DELAY_REQ;
          ver := PTP_VERSION;
          messageLength := sizeof_delay_req_msg;
          domainNumber := w_domain_number w;
          twoStepFlag := false;
          correction := 0;
          sourcePortIdentity := portIdentity p;
          sequenceId := seqnum p;
          control := CTL_DELAY_REQ;
          logMessageInterval := 127 |};
     announce := zero_announce;
     delay_resp := zero_delay_resp;
     ts_pdu := {| sec := 0; nsec := 0 |};
     ts_host := zero_timespec;
     hwts := {| hwts_type := timestamping p; hwts_ts := zero_timespec |} |}.

Definition port_delay_request (w : world) (p : port) : Z * port * list call :=
  if negb (w_tx_allocate w) then (-1, p, [])
  else
    let msg := delay_req_build w p in
    let p1 := port_with_delay_req p (delay_req p) (to_u16 (seqnum p + 1)) in
    let '(rc, msg1) := w_pre_send w msg in
    if negb (rc =? 0) then (-1, p1, [msg_pre_send msg])
    else
      let '(cnt, egress) := w_send w in
      let tr := [msg_pre_send msg;
                 transport_send 1 msg1 sizeof_delay_req_msg] in
      if cnt <=? 0 then (-1, p1, tr)
      else (0, port_with_delay_req p1 (Some (msg_with_hwts msg1 egress))
                 (seqnum p1), tr).

Definition port_with_defaults (p : port) : port :=
  {| name := name p; timestamping := timestamping p; fda := fda p;
     best := best p; last_follow_up := last_follow_up p;
     last_sync := last_sync p; delay_req := delay_req p; seqnum := seqnum p;
     portIdentity := portIdentity p; state := state p;
     logMinDelayReqInterval := LOG_MIN_DELAY_REQ_INTERVAL;
     peerMeanPathDelay := 0;
     logAnnounceInterval := LOG_ANNOUNCE_INTERVAL;
     announceReceiptTimeout := ANNOUNCE_RECEIPT_TIMEOUT;
     logSyncInterval := LOG_SYNC_INTERVAL;
     delayMechanism := delayMechanism p;
     logMinPdelayReqInterval := LOG_MIN_PDELAY_REQ_INTERVAL;
     versionNumber := versionNumber p;
     foreign_masters := foreign_masters p |}.

Definition fda_with_timers (f : fdarray) (fd1 fd2 : Z) : fdarray :=
  {| cnt := cnt f + 1 + 1;
     fd := fun i =>
             if decide (i = FD_DELAY_TIMER) then fd2
             else if decide (i = FD_ANNOUNCE_TIMER) then fd1
             else fd f i |}.

Definition port_initialize (w : world) (p : port) : Z * port * list call :=
  let p0 := port_with_defaults p in
  let fd1 := w_timerfd_create1 w in
  if fd1 <? 0 then (-1, p0, [timerfd_create])
  else
    let fd2 := w_timerfd_create2 w in
    if fd2 <? 0 then (-1, p0, [timerfd_create; timerfd_create; sys_close fd1])
    else
      let '(rc, f) := w_transport_open w in
      let opened := [timerfd_create; timerfd_create;
                     transport_open (name p0) (timestamping p0)] in
      if negb (rc =? 0) then
        (-1, port_with_fda p0 f, opened ++ [sys_close fd2; sys_close fd1])
      else
        let p1 := port_with_fda p0 (fda_with_timers f fd1 fd2) in
        let '(rc, tr) := port_set_announce_tmo w p1 in
        if negb (rc =? 0) then
          (-1, p1, opened ++ tr ++
                   [transport_close (fda p1); sys_close fd2; sys_close fd1])
        else (0, p1, opened ++ tr ++ [clock_install_fda (fda p1)]).

(** [fc = p->best] is dereferenced at once: without a best record the
    function does not return. *)
Definition update_current_master (w : world) (p : port) (m : ptp_message)
  : option (port * Z * list call) :=
  i ← best p;
  fc ← foreign_masters p !! i;
  if negb (msg_source_equal m fc) then
    '(p', r) ← add_foreign_master w p m;
    Some (p', r, [])
  else
    let '(_, tr) := port_set_announce_tmo w p in
    fc1 ← fc_prune (w_now w) fc;
    '(fc2, diff) ← fc_add fc1 m;
    Some (port_with_table p (best p) (<[i := fc2]> (foreign_masters p)),
          diff, tr).

Definition port_best_foreign (p : port) : option dataset :=
  i ← best p;
  fc ← foreign_masters p !! i;
  Some (fc_dataset fc).

Definition process_announce (w : world) (p : port) (m : ptp_message)
  : option (port * Z * list call) :=
  match state p with
  | PS_INITIALIZING | PS_FAULTY | PS_DISABLED => Some (p, 0, [])
  | PS_LISTENING | PS_PRE_MASTER | PS_MASTER | PS_GRAND_MASTER
  | PS_PASSIVE =>
      '(p', r) ← add_foreign_master w p m;
      Some (p', r, [])
  | PS_UNCALIBRATED | PS_SLAVE => update_current_master w p m
  end.

(** The Delay_Resp that [process_delay_req] fills in before it hands it
    to [msg_pre_send]. *)
Definition delay_resp_build (p : port) (m : ptp_message) : ptp_message :=
  {| header :=
       {| tsmt := DELAY_RESP;
          ver := PTP_VERSION;
          messageLength := sizeof_delay_resp_msg;
          domainNumber := domainNumber (header m);
          twoStepFlag := false;
          correction := correction (header m);
          sourcePortIdentity := portIdentity p;
          sequenceId := sequenceId (header m);
          control := CTL_DELAY_RESP;
          logMessageInterval := logMinDelayReqInterval p |};
     announce := zero_announce;
     delay_resp :=
       {| receiveTimestamp :=
            {| seconds_msb := htons little_endian 0;
               seconds_lsb := htonl little_endian (tv_sec (hwts_ts (hwts m)));
               nanoseconds := htonl little_endian (tv_nsec (hwts_ts (hwts m))) |};
          requestingPortIdentity := sourcePortIdentity (header m) |};
     ts_pdu := {| sec := 0; nsec := 0 |};
     ts_host := zero_timespec;
     hwts := {| hwts_type := timestamping p; hwts_ts := zero_timespec |} |}.

Definition process_delay_req (w : world) (p : port) (m : ptp_message)
  : Z * list call :=
  if negb (bool_decide (state p = PS_MASTER))
     && negb (bool_decide (state p = PS_GRAND_MASTER)) then (-1, [])
  else if negb (w_tx_allocate w) then (-1, [])
  else
    let msg := delay_resp_build p m in
    let '(rc, msg1) := w_pre_send w msg in
    if negb (rc =? 0) then (-1, [msg_pre_send msg])
    else
      let '(cnt, _) := w_send w in
      (if cnt <=? 0 then -1 else 0,
       [msg_pre_send msg; transport_send 0 msg1 sizeof_delay_resp_msg]).

Definition process_delay_resp (w : world) (p : port) (m : ptp_message)
  : port * list call :=
  match delay_req p with
  | None => (p, [])
  | Some req =>
      if negb (bool_decide (state p = PS_UNCALIBRATED))
         && negb (bool_decide (state p = PS_SLAVE)) then (p, [])
      else if negb (pid_eq (requestingPortIdentity (delay_resp m))
                           (sourcePortIdentity (header req))) then (p, [])
      else if negb (sequenceId (header m)
                    =? ntohs little_endian (sequenceId (header req)))
      then (p, [])
      else
        (if negb (logMinDelayReqInterval p =? logMessageInterval (header m))
         then port_with_logMinDelayReqInterval p (logMessageInterval (header m))
         else p,
         [clock_path_delay (hwts_ts (hwts req)) (ts_pdu m)
            (correction (header m))])
  end.

Definition process_follow_up (w : world) (p : port) (m : ptp_message)
  : port * list call :=
  match state p with
  | PS_INITIALIZING | PS_FAULTY | PS_DISABLED | PS_LISTENING | PS_PRE_MASTER
  | PS_MASTER | PS_GRAND_MASTER | PS_PASSIVE => (p, [])
  | PS_UNCALIBRATED | PS_SLAVE =>
      let master := w_parent_identity w in
      if negb (memcmp (PortIdentity_octets master)
                 (PortIdentity_octets (sourcePortIdentity (header m))) =? 0)
      then (p, [])
      else
        let remember := (port_with_last_follow_up p (Some m), []) in
        match last_sync p with
        | None => remember
        | Some syn =>
            if negb (sequenceId (header syn) =? sequenceId (header m))
            then remember
            else if negb (memcmp
                            (PortIdentity_octets
                               (sourcePortIdentity (header syn)))
                            (PortIdentity_octets
                               (sourcePortIdentity (header m))) =? 0)
            then (p, [])
            else (p, [clock_synchronize (hwts_ts (hwts syn)) (ts_pdu m)
                        (correction (header syn)) (correction (header m))])
        end
  end.

Definition process_sync (w : world) (p : port) (m : ptp_message)
  : port * list call :=
  match state p with
  | PS_INITIALIZING | PS_FAULTY | PS_DISABLED | PS_LISTENING | PS_PRE_MASTER
  | PS_MASTER | PS_GRAND_MASTER | PS_PASSIVE => (p, [])
  | PS_UNCALIBRATED | PS_SLAVE =>
      let master := w_parent_identity w in
      if negb (memcmp (PortIdentity_octets master)
                 (PortIdentity_octets (sourcePortIdentity (header m))) =? 0)
      then (p, [])
      else if one_step m then
        (p, [clock_synchronize (hwts_ts (hwts m)) (ts_pdu m)
               (correction (header m)) 0])
      else
        let remember := (port_with_last_sync p (Some m), []) in
        match last_follow_up p with
        | None => remember
        | Some fup =>
            if sequenceId (header fup) =? sequenceId (header m) then
              (p, [clock_synchronize (hwts_ts (hwts m)) (ts_pdu fup)
                     (correction (header m)) (correction (header fup))])
            else remember
        end
  end.

(** The loop of [port_compute_best].  [done] holds the records already
    visited, as the loop left them, [b] is [p->best], and
    [clock_gettime k] is the time that [fc_prune] reads for the record at
    position [k].  [tmp] is taken before the prune: when the prune took
    every message away, [tmp] dangles. *)
Fixpoint port_compute_best_loop (clock_gettime : nat -> timespec) (w : world)
    (done : list foreign_clock) (b : option nat) (todo : list foreign_clock)
  : option (list foreign_clock * option nat) :=
  match todo with
  | [] => Some (done, b)
  | fc :: rest =>
      match messages fc with
      | [] => port_compute_best_loop clock_gettime w (done ++ [fc]) b rest
      | tmp :: _ =>
          fc1 ← fc_prune (clock_gettime (length done)) fc;
          if n_messages fc1 <? to_u32 FOREIGN_MASTER_THRESHOLD then
            port_compute_best_loop clock_gettime w (done ++ [fc1]) b rest
          else
            match messages fc1 with
            | [] => None
            | _ :: _ =>
                let fc2 := fc_with_dataset fc1 (announce_to_dataset tmp w) in
                match b with
                | None =>
                    port_compute_best_loop clock_gettime w (done ++ [fc2])
                      (Some (length done)) rest
                | Some i =>
                    cur ← done !! i;
                    if dscmp (fc_dataset fc2) (fc_dataset cur) >? 0 then
                      port_compute_best_loop clock_gettime w (done ++ [fc2])
                        (Some (length done)) rest
                    else
                      fc3 ← fc_clear fc2;
                      port_compute_best_loop clock_gettime w (done ++ [fc3])
                        b rest
                end
            end
      end
  end.

Definition port_compute_best (clock_gettime : nat -> timespec) (w : world)
    (p : port) : option (port * option nat) :=
  '(l, b) ← port_compute_best_loop clock_gettime w [] None (foreign_masters p);
  Some (port_with_table p b l, b).

Definition port_dispatch (w : world) (p : port) (event : fsm_event)
  : port * list call :=
  let next := ptp_fsm (state p) event in
  if decide (PS_INITIALIZING = next) then
    let '(rc, p1, tr) := port_initialize w p in
    (port_with_state p1 (if negb (rc =? 0) then PS_FAULTY else PS_LISTENING),
     tr)
  else if decide (next = state p) then (p, [])
  else
    let clr_announce := snd (port_clr_tmo w (fd (fda p) FD_ANNOUNCE_TIMER)) in
    let clr_delay := snd (port_clr_tmo w (fd (fda p) FD_DELAY_TIMER)) in
    let set_announce := snd (port_set_announce_tmo w p) in
    let set_delay := snd (port_set_delay_tmo w p) in
    (port_with_state p next,
     match next with
     | PS_INITIALIZING | PS_FAULTY | PS_DISABLED => clr_announce ++ clr_delay
     | PS_LISTENING => set_announce ++ clr_delay
     | PS_PRE_MASTER | PS_MASTER | PS_GRAND_MASTER =>
         clr_announce ++ clr_delay
     | PS_PASSIVE => set_announce ++ clr_delay
     | PS_UNCALIBRATED | PS_SLAVE => set_announce ++ set_delay
     end).

Definition port_event (w : world) (p : port) (fd_index : fd_index)
  : option (fsm_event * port * list call) :=
  match fd_index with
  | FD_ANNOUNCE_TIMER =>
      p1 ← match best p with
            | None => Some p
            | Some i =>
                fc ← foreign_masters p !! i;
                fc' ← fc_clear fc;
                Some (port_with_table p (best p)
                        (<[i := fc']> (foreign_masters p)))
            end;
      Some (EV_ANNOUNCE_RECEIPT_TIMEOUT_EXPIRES, p1,
            snd (port_set_announce_tmo w p1))
  | FD_DELAY_TIMER =>
      let '(rc, p1, tr) := port_delay_request w p in
      Some (if negb (rc =? 0) then EV_FAULT_DETECTED else EV_NONE, p1,
            snd (port_set_delay_tmo w p) ++ tr)
  | FD_EVENT | FD_GENERAL =>
      if negb (w_rx_allocate w) then Some (EV_FAULT_DETECTED, p, [])
      else
        let rx := [transport_recv (fd (fda p) fd_index)] in
        if w_recv w <=? 0 then Some (EV_FAULT_DETECTED, p, rx)
        else if negb (w_post_recv w =? 0) then Some (EV_NONE, p, rx)
        else
          let msg := w_rx_message w in
          match msg_type msg with
          | SYNC =>
              let '(p1, tr) := process_sync w p msg in
              Some (EV_NONE, p1, rx ++ tr)
          | DELAY_REQ =>
              let '(_, tr) := process_delay_req w p msg in
              Some (EV_NONE, p, rx ++ tr)
          | PDELAY_REQ | PDELAY_RESP => Some (EV_NONE, p, rx)
          | FOLLOW_UP =>
              let '(p1, tr) := process_follow_up w p msg in
              Some (EV_NONE, p1, rx ++ tr)
          | DELAY_RESP =>
              let '(p1, tr) := process_delay_resp w p msg in
              Some (EV_NONE, p1, rx ++ tr)
          | PDELAY_RESP_FOLLOW_UP => Some (EV_NONE, p, rx)
          | ANNOUNCE =>
              '(p1, r, tr) ← process_announce w p msg;
              Some (if negb (r =? 0) then EV_STATE_DECISION_EVENT
                    else EV_NONE, p1, rx ++ tr)
          | SIGNALING | MANAGEMENT => Some (EV_NONE, p, rx)
          end
  end.

(** [port_open]: [allocated] tells whether [malloc] gave a port and
    [found] whether [transport_find] knows the transport; [identity] is
    what [clock_identity] answers. *)
Definition port_open (allocated found : bool) (ifname : string)
    (timestamping number dm identity : Z) : option port :=
  if negb allocated then None
  else if negb found then None
  else
    Some {| name := ifname; timestamping := timestamping;
            fda := {| cnt := 0; fd := fun _ => 0 |};
            best := None; last_follow_up := None; last_sync := None;
            delay_req := None; seqnum := 0;
            portIdentity := {| clockIdentity := identity;
                               portNumber := to_u16 number |};
            state := PS_INITIALIZING;
            logMinDelayReqInterval := 0; peerMeanPathDelay := 0;
            logAnnounceInterval := 0; announceReceiptTimeout := 0;
            logSyncInterval := 0; delayMechanism := dm;
            logMinPdelayReqInterval := 0; versionNumber := PTP_VERSION;
            foreign_masters := [] |}.

(** [port_close]: what it asks of the transport and of the system before
    the port is freed. *)
Definition port_close (p : port) : list call :=
  [transport_close (fda p);
   sys_close (fd (fda p) FD_ANNOUNCE_TIMER);
   sys_close (fd (fda p) FD_DELAY_TIMER)].

(** ** Specification vocabulary *)

(** The port is on the slave side of the protocol. *)
Definition slave_side (p : port) : Prop :=
  state p = PS_UNCALIBRATED \/ state p = PS_SLAVE.

(** The message comes from the parent of the clock: its source is
    byte-wise the parent identity. *)
Definition from_parent (w : world) (m : ptp_message) : Prop :=
  memcmp (PortIdentity_octets (w_parent_identity w))
         (PortIdentity_octets (sourcePortIdentity (header m))) = 0.

(** The two orders in which a Sync and its Follow_Up reach the port. *)
Definition sync_then_follow_up (w : world) (p : port)
    (syn fup : ptp_message) : port * list call :=
  let '(p1, t1) := process_sync w p syn in
  let '(p2, t2) := process_follow_up w p1 fup in
  (p2, t1 ++ t2).

Definition follow_up_then_sync (w : world) (p : port)
    (syn fup : ptp_message) : port * list call :=
  let '(p1, t1) := process_follow_up w p fup in
  let '(p2, t2) := process_sync w p1 syn in
  (p2, t1 ++ t2).

(** The port remembers no Sync and no Follow_Up with sequence id [s]. *)
Definition no_pending (p : port) (s : Z) : Prop :=
  (forall m, last_sync p = Some m -> sequenceId (header m) <> s) /\
  (forall m, last_follow_up p = Some m -> sequenceId (header m) <> s).

(** The Delay_Resp [m] answers the outstanding Delay_Req of the port. *)
Definition delay_resp_matches (p : port) (m : ptp_message) : Prop :=
  exists req,
    delay_req p = Some req /\
    slave_side p /\
    pid_eq (requestingPortIdentity (delay_resp m))
           (sourcePortIdentity (header req)) = true /\
    sequenceId (header m) = ntohs little_endian (sequenceId (header req)).

(** The octets of a [struct Timestamp] in host memory. *)
Definition Timestamp_octets (t : Timestamp) : list Z :=
  host_octets little_endian 2 (seconds_msb t) ++
  host_octets little_endian 4 (seconds_lsb t) ++
  host_octets little_endian 4 (nanoseconds t).

(** The threshold is a non-negative [int] constant. *)
Definition threshold_ok : Prop := 0 <= FOREIGN_MASTER_THRESHOLD < 2 ^ 31.

(** The invariant of a foreign master record: the counter is the length
    of the queue, and the queue holds at most one message more than the
    threshold. *)
Definition wf_fc (fc : foreign_clock) : Prop :=
  n_messages fc = Z.of_nat (length (messages fc)) /\
  n_messages fc <= FOREIGN_MASTER_THRESHOLD + 1.

(** The record as [fc_add] leaves it. *)
Definition fc_added (fc : foreign_clock) (m : ptp_message) : foreign_clock :=
  fc_with_queue fc (m :: messages fc) (n_messages fc + 1).

(** The record qualifies at time [now]: after the prune it holds at least
    FOREIGN_MASTER_THRESHOLD messages. *)
Definition qualified (now : timespec) (fc : foreign_clock) : Prop :=
  exists fc1, fc_prune now fc = Some fc1 /\
              FOREIGN_MASTER_THRESHOLD <= n_messages fc1.

(** The data set that [port_compute_best] gives a qualified record: the
    one of its newest message. *)
Definition candidate (w : world) (fc : foreign_clock) : option dataset :=
  tmp ← head (messages fc); Some (announce_to_dataset tmp w).

(** [a] beats [b] under the comparator. *)
Definition beats (a b : dataset) : Prop := dscmp a b > 0.

(** [p->best] when the loop of [port_compute_best] reaches the record at
    position [k]: what the loop over the first [k] records yields. *)
Definition running_best (clock_gettime : nat -> timespec) (w : world)
    (l : list foreign_clock) (k : nat) : option (list foreign_clock * option nat) :=
  port_compute_best_loop clock_gettime w [] None (take k l).

(** The invariant of the loop of [port_compute_best]: [l0] are the
    records visited so far as they were before the call, [done] as the
    loop left them, and [b] is [p->best].  Without a best record no
    visited record qualifies; the best record qualifies, carries its
    candidate data set, and no visited qualified record beats it. *)
Definition best_invariant (clock_gettime : nat -> timespec) (w : world)
    (l0 done : list foreign_clock) (b : option nat) : Prop :=
  length done = length l0 /\
  match b with
  | None =>
      forall k fc, l0 !! k = Some fc -> ~ qualified (clock_gettime k) fc
  | Some i =>
      exists fc0 fb d,
        l0 !! i = Some fc0 /\
        qualified (clock_gettime i) fc0 /\
        candidate w fc0 = Some d /\
        done !! i = Some fb /\
        fc_dataset fb = d /\
        forall k fc dk,
          l0 !! k = Some fc ->
          qualified (clock_gettime k) fc ->
          candidate w fc = Some dk ->
          ~ beats dk d
  end.

(** A reading of the monotonic clock: seconds and nanoseconds are not
    negative, and the time in nanoseconds fits an [int64_t]. *)
Definition monotonic_time (t : timespec) : Prop :=
  0 <= tv_sec t /\ 0 <= tv_nsec t /\
  tv_sec t * NSEC2SEC + tv_nsec t < 2 ^ 63.

(** The fields of a port identity fit their wire types. *)
Definition PortIdentity_ok (id : PortIdentity) : Prop :=
  0 <= clockIdentity id < 2 ^ 64 /\ 0 <= portNumber id < 2 ^ 16.

(** No two records of the table have byte-wise the same sender. *)
Definition distinct_senders (l : list foreign_clock) : Prop :=
  forall i j fi fj,
    l !! i = Some fi ->
    l !! j = Some fj ->
    PortIdentity_octets (sender (fc_dataset fi))
      = PortIdentity_octets (sender (fc_dataset fj)) ->
    i = j.

(** Every message in the queue of the record has the sender of the
    record as its source. *)
Definition queue_from_sender (fc : foreign_clock) : Prop :=
  Forall (fun m => msg_source_equal m fc = true) (messages fc).

(** What a visit of [port_compute_best] can do to a record: cut its
    queue at the tail, and replace its data set by the one of its newest
    message. *)
Definition visited (w : world) (fc fc' : foreign_clock) : Prop :=
  (exists old, messages fc = messages fc' ++ old) /\
  (fc_dataset fc' = fc_dataset fc \/
   exists tmp, head (messages fc) = Some tmp /\
               fc_dataset fc' = announce_to_dataset tmp w).

(** The best record of the moment carries the data set of the newest
    message that its record held when the loop reached it. *)
Definition best_dataset_invariant (w : world)
    (l0 done : list foreign_clock) (b : option nat) : Prop :=
  match b with
  | None => True
  | Some i =>
      exists fc0 fb d,
        l0 !! i = Some fc0 /\ candidate w fc0 = Some d /\
        done !! i = Some fb /\ fc_dataset fb = d
  end.

(** The states in which [port_dispatch] arms the announce receipt timer
    and the delay request timer. *)
Definition announce_timer_armed (s : port_state) : bool :=
  match s with
  | PS_LISTENING | PS_PASSIVE | PS_UNCALIBRATED | PS_SLAVE => true
  | _ => false
  end.

Definition delay_timer_armed (s : port_state) : bool :=
  match s with
  | PS_UNCALIBRATED | PS_SLAVE => true
  | _ => false
  end.

(** What [port_event] does with the message [rx] that it has received
    and decoded: the event it returns, the port it leaves and the calls
    that follow the receive. *)
Definition dispatched (w : world) (p : port) (rx : ptp_message)
    (ev : fsm_event) (p' : port) (t : list call) : Prop :=
  match msg_type rx with
  | SYNC => ev = EV_NONE /\ process_sync w p rx = (p', t)
  | FOLLOW_UP => ev = EV_NONE /\ process_follow_up w p rx = (p', t)
  | DELAY_RESP => ev = EV_NONE /\ process_delay_resp w p rx = (p', t)
  | DELAY_REQ =>
      ev = EV_NONE /\ p' = p /\ t = snd (process_delay_req w p rx)
  | ANNOUNCE =>
      exists r,
        process_announce w p rx = Some (p', r, t) /\
        ev = if r =? 0 then EV_NONE else EV_STATE_DECISION_EVENT
  | _ => ev = EV_NONE /\ p' = p /\ t = []
  end.

(** The port answers Delay_Req messages. *)
Definition master_side (p : port) : Prop :=
  state p = PS_MASTER \/ state p = PS_GRAND_MASTER.

(** The port ignores every message. *)
Definition quiet (p : port) : Prop :=
  state p = PS_INITIALIZING \/ state p = PS_FAULTY \/ state p = PS_DISABLED.

(** ** Octet strings *)

Lemma length_be_octets (n : nat) (v : Z) : length (be_octets n v) = n.
Proof. induction n as [|n IH]; simpl; [reflexivity | now rewrite IH]. Qed.

Lemma length_host_octets (n : nat) (v : Z) :
  length (host_octets little_endian n v) = n.
Proof.
  unfold host_octets. destruct little_endian.
  - rewrite length_rev. apply length_be_octets.
  - apply length_be_octets.
Qed.

Lemma memcmp_refl (a : list Z) : memcmp a a = 0.
Proof.
  induction a as [|x a IH]; simpl; [reflexivity|].
  now rewrite Z.ltb_irrefl.
Qed.

Lemma memcmp_eq (a b : list Z) :
  length a = length b -> memcmp a b = 0 -> a = b.
Proof.
  revert b. induction a as [|x a IH]; intros [|y b] Hlen Hcmp;
    simpl in *; try discriminate; [reflexivity|].
  destruct (Z.ltb_spec x y); [discriminate|].
  destruct (Z.ltb_spec y x); [discriminate|].
  f_equal; [lia|]. apply IH; [congruence | assumption].
Qed.

Lemma length_PortIdentity_octets (id : PortIdentity) :
  length (PortIdentity_octets id) = 10%nat.
Proof.
  unfold PortIdentity_octets.
  now rewrite length_app, length_be_octets, length_host_octets.
Qed.

Lemma memcmp_PortIdentity_eq (a b : PortIdentity) :
  memcmp (PortIdentity_octets a) (PortIdentity_octets b) = 0 ->
  PortIdentity_octets a = PortIdentity_octets b.
Proof.
  apply memcmp_eq. now rewrite !length_PortIdentity_octets.
Qed.

#[local] Arguments memcmp : simpl never.
#[local] Arguments be_octets : simpl never.
#[local] Arguments host_octets : simpl never.
#[local] Arguments PortIdentity_octets : simpl never.
#[local] Arguments announce_octets : simpl never.
#[local] Arguments to_u16 : simpl never.
#[local] Arguments to_u32 : simpl never.
#[local] Arguments to_s32 : simpl never.
#[local] Arguments to_s64 : simpl never.
#[local] Arguments Z.shiftl : simpl never.
#[local] Arguments Z.mul : simpl never.
#[local] Arguments Z.eqb : simpl never.
#[local] Arguments Z.ltb : simpl never.
#[local] Arguments Z.leb : simpl never.
#[local] Arguments Z.gtb : simpl never.
#[local] Arguments pid_eq : simpl never.
#[local] Arguments msg_source_equal : simpl never.
#[local] Arguments msg_current : simpl never.
#[local] Arguments announce_compare : simpl never.
#[local] Arguments fc_clear : simpl never.
#[local] Arguments fc_prune : simpl never.
#[local] Arguments fc_add : simpl never.
#[local] Arguments add_foreign_master : simpl never.
#[local] Arguments update_current_master : simpl never.
#[local] Arguments port_set_announce_tmo : simpl never.
#[local] Arguments port_set_delay_tmo : simpl never.
#[local] Arguments port_clr_tmo : simpl never.
#[local] Arguments port_delay_request : simpl never.
#[local] Arguments port_initialize : simpl never.
#[local] Arguments process_announce : simpl never.
#[local] Arguments process_delay_req : simpl never.
#[local] Arguments process_delay_resp : simpl never.
#[local] Arguments process_follow_up : simpl never.
#[local] Arguments process_sync : simpl never.

(** Inversion of a step of the option monad. *)
Ltac bind_inv H :=
  let x := fresh "x" in
  let Hx := fresh "Hx" in
  apply bind_Some in H as (x & Hx & H).


(** ** Sync and Follow_Up *)

(** C5: a one-step Sync from the parent, received in UNCALIBRATED or SLAVE,
    makes [process_sync] call [clock_synchronize] once, with the hardware
    ingress time of the message (T2), the origin time carried in the
    message (T1), the correction of the message and a second correction
    of 0; the processor then returns and the port is left as it was. *)
Theorem process_sync_one_step (w : world) (p : port) (m : ptp_message) :
  slave_side p ->
  from_parent w m ->
  one_step m = true ->
  process_sync w p m =
    (p, [clock_synchronize (hwts_ts (hwts m)) (ts_pdu m)
           (correction (header m)) 0]).
Proof.
  intros Hst Hpar Hone. unfold process_sync.
  unfold from_parent in Hpar. rewrite Hpar, Hone. cbn.
  destruct Hst as [-> | ->]; reflexivity.
Qed.

Lemma process_sync_remembers (w : world) (p : port) (m : ptp_message) :
  slave_side p ->
  from_parent w m ->
  one_step m = false ->
  (forall f, last_follow_up p = Some f ->
             sequenceId (header f) <> sequenceId (header m)) ->
  process_sync w p m = (port_with_last_sync p (Some m), []).
Proof.
  intros Hst Hpar Hone Hfup. unfold process_sync.
  unfold from_parent in Hpar. rewrite Hpar, Hone. cbn.
  destruct (last_follow_up p) as [f|] eqn:Hf.
  - specialize (Hfup f eq_refl).
    apply Z.eqb_neq in Hfup. rewrite Hfup.
    destruct Hst as [-> | ->]; reflexivity.
  - destruct Hst as [-> | ->]; reflexivity.
Qed.

Lemma process_follow_up_remembers (w : world) (p : port) (m : ptp_message) :
  slave_side p ->
  from_parent w m ->
  (forall s, last_sync p = Some s ->
             sequenceId (header s) <> sequenceId (header m)) ->
  process_follow_up w p m = (port_with_last_follow_up p (Some m), []).
Proof.
  intros Hst Hpar Hsyn. unfold process_follow_up.
  unfold from_parent in Hpar. rewrite Hpar. cbn.
  destruct (last_sync p) as [s|] eqn:Hs.
  - specialize (Hsyn s eq_refl).
    apply Z.eqb_neq in Hsyn. rewrite Hsyn.
    destruct Hst as [-> | ->]; reflexivity.
  - destruct Hst as [-> | ->]; reflexivity.
Qed.

Lemma process_follow_up_closes (w : world) (p : port) (syn m : ptp_message) :
  slave_side p ->
  from_parent w syn ->
  from_parent w m ->
  last_sync p = Some syn ->
  sequenceId (header syn) = sequenceId (header m) ->
  process_follow_up w p m =
    (p, [clock_synchronize (hwts_ts (hwts syn)) (ts_pdu m)
           (correction (header syn)) (correction (header m))]).
Proof.
  intros Hst Hsyn Hpar Hlast Hseq. unfold process_follow_up.
  unfold from_parent in *. apply memcmp_PortIdentity_eq in Hsyn.
  rewrite Hpar, Hlast, Hseq, <- Hsyn.
  rewrite (memcmp_PortIdentity_eq _ _ Hpar), memcmp_refl, !Z.eqb_refl. cbn.
  destruct Hst as [-> | ->]; reflexivity.
Qed.

Lemma process_sync_closes (w : world) (p : port) (fup m : ptp_message) :
  slave_side p ->
  from_parent w m ->
  one_step m = false ->
  last_follow_up p = Some fup ->
  sequenceId (header fup) = sequenceId (header m) ->
  process_sync w p m =
    (p, [clock_synchronize (hwts_ts (hwts m)) (ts_pdu fup)
           (correction (header m)) (correction (header fup))]).
Proof.
  intros Hst Hpar Hone Hlast Hseq. unfold process_sync.
  unfold from_parent in *. rewrite Hpar, Hone, Hlast, Hseq, !Z.eqb_refl. cbn.
  destruct Hst as [-> | ->]; reflexivity.
Qed.

(** C1, as amended: a two-step Sync and its Follow_Up, both from the
    parent and with the same sequence id, reach a port in UNCALIBRATED or
    SLAVE that remembers no Sync and no Follow_Up with that sequence id.
    In either order of arrival [clock_synchronize] is called exactly once,
    with the ingress time and correction of the Sync and the origin time
    and correction of the Follow_Up. *)
Theorem sync_follow_up_order_independent (w : world) (p : port)
    (syn fup : ptp_message) :
  slave_side p ->
  from_parent w syn ->
  from_parent w fup ->
  one_step syn = false ->
  sequenceId (header syn) = sequenceId (header fup) ->
  no_pending p (sequenceId (header syn)) ->
  let once := [clock_synchronize (hwts_ts (hwts syn)) (ts_pdu fup)
                 (correction (header syn)) (correction (header fup))] in
  snd (sync_then_follow_up w p syn fup) = once /\
  snd (follow_up_then_sync w p syn fup) = once.
Proof.
  intros Hst Hsyn Hfup Hone Hseq [Hns Hnf] once. split.
  - unfold sync_then_follow_up.
    rewrite (process_sync_remembers w p syn) by auto.
    rewrite (process_follow_up_closes w _ syn fup) by auto.
    reflexivity.
  - unfold follow_up_then_sync.
    rewrite (process_follow_up_remembers w p fup)
      by (rewrite <- ?Hseq; auto).
    rewrite (process_sync_closes w _ fup syn) by auto.
    reflexivity.
Qed.

(** ** Delay_Req and Delay_Resp *)

Lemma delay_resp_matches_dec (p : port) (m : ptp_message) :
  delay_resp_matches p m \/ ~ delay_resp_matches p m.
Proof.
  unfold delay_resp_matches, slave_side.
  destruct (delay_req p) as [req|]; [|right; intros (r & ? & _); discriminate].
  destruct (decide (state p = PS_UNCALIBRATED \/ state p = PS_SLAVE));
    [|right; intros (r & _ & ? & _); tauto].
  destruct (pid_eq (requestingPortIdentity (delay_resp m))
              (sourcePortIdentity (header req))) eqn:Hpid;
    [|right; intros (r & [= <-] & _ & ? & _); congruence].
  destruct (decide (sequenceId (header m)
                    = ntohs little_endian (sequenceId (header req))));
    [|right; intros (r & [= <-] & _ & _ & ?); tauto].
  left. eauto.
Qed.

Lemma process_delay_resp_matching (w : world) (p : port)
    (m req : ptp_message) :
  delay_req p = Some req ->
  delay_resp_matches p m ->
  process_delay_resp w p m =
    (if negb (logMinDelayReqInterval p =? logMessageInterval (header m))
     then port_with_logMinDelayReqInterval p (logMessageInterval (header m))
     else p,
     [clock_path_delay (hwts_ts (hwts req)) (ts_pdu m)
        (correction (header m))]).
Proof.
  intros Hreq (r & Hr & Hst & Hpid & Hseq).
  rewrite Hreq in Hr. injection Hr as <-.
  unfold process_delay_resp. rewrite Hreq, Hpid, Hseq, !Z.eqb_refl. cbn.
  destruct Hst as [-> | ->]; reflexivity.
Qed.

Lemma process_delay_resp_ignored (w : world) (p : port) (m : ptp_message) :
  ~ delay_resp_matches p m ->
  process_delay_resp w p m = (p, []).
Proof.
  intros Hno. unfold process_delay_resp.
  destruct (delay_req p) as [req|] eqn:Hreq; [|reflexivity].
  destruct (negb (bool_decide (state p = PS_UNCALIBRATED))
            && negb (bool_decide (state p = PS_SLAVE))) eqn:Hst;
    [reflexivity|].
  destruct (pid_eq _ _) eqn:Hpid; [|reflexivity]. cbn.
  destruct (Z.eqb_spec (sequenceId (header m))
              (ntohs little_endian (sequenceId (header req)))) as [Hseq|];
    [|reflexivity].
  exfalso. apply Hno. exists req. repeat split; try assumption.
  unfold slave_side.
  apply andb_false_iff in Hst as [H | H]; apply negb_false_iff in H;
    apply bool_decide_eq_true in H; auto.
Qed.

(** C6: [process_delay_resp] calls [clock_path_delay] only for a response
    that matches: a Delay_Req is outstanding, the port is in UNCALIBRATED
    or SLAVE, the requesting port identity of the response is byte-wise
    the source of the outstanding request, and the sequence id of the
    response is the [ntohs] of the stored one.  A response that fails any
    of the four is ignored: nothing is called and the port is unchanged. *)
Theorem process_delay_resp_guard (w : world) (p : port) (m : ptp_message) :
  (forall c, In c (snd (process_delay_resp w p m)) ->
     delay_resp_matches p m /\
     exists req, delay_req p = Some req /\
       c = clock_path_delay (hwts_ts (hwts req)) (ts_pdu m)
             (correction (header m))) /\
  (~ delay_resp_matches p m -> process_delay_resp w p m = (p, [])).
Proof.
  split; [|apply process_delay_resp_ignored].
  intros c Hc. destruct (delay_resp_matches_dec p m) as [Hm | Hm].
  - split; [assumption|]. destruct Hm as (req & Hreq & Hrest).
    exists req. split; [assumption|].
    rewrite (process_delay_resp_matching w p m req) in Hc;
      [|assumption|exists req; auto].
    cbn in Hc. destruct Hc as [<- | []]. reflexivity.
  - rewrite process_delay_resp_ignored in Hc by assumption. destruct Hc.
Qed.

(** What leaves [p->delay_req] alone. *)

Lemma add_foreign_master_delay_req (w : world) (p p' : port)
    (m : ptp_message) (r : Z) :
  add_foreign_master w p m = Some (p', r) -> delay_req p' = delay_req p.
Proof.
  unfold add_foreign_master. intros H.
  destruct (list_find _ _) as [[i fc]|].
  - bind_inv H. bind_inv H. destruct x0 as [fc2 d].
    injection H as <- _. reflexivity.
  - destruct (w_malloc w); injection H as <- _; reflexivity.
Qed.

Lemma update_current_master_delay_req (w : world) (p p' : port)
    (m : ptp_message) (r : Z) (tr : list call) :
  update_current_master w p m = Some (p', r, tr) ->
  delay_req p' = delay_req p.
Proof.
  unfold update_current_master. intros H.
  bind_inv H. bind_inv H.
  destruct (negb (msg_source_equal m x0)).
  - bind_inv H. destruct x1 as [q s]. injection H as <- _ _.
    eapply add_foreign_master_delay_req; eassumption.
  - destruct (port_set_announce_tmo w p) as [rc t].
    bind_inv H. bind_inv H. destruct x2 as [fc2 d].
    injection H as <- _ _. reflexivity.
Qed.

Lemma process_announce_delay_req (w : world) (p p' : port)
    (m : ptp_message) (r : Z) (tr : list call) :
  process_announce w p m = Some (p', r, tr) -> delay_req p' = delay_req p.
Proof.
  unfold process_announce. intros H.
  destruct (state p);
    try (injection H as <- _ _; reflexivity);
    try (eapply update_current_master_delay_req; eassumption);
    bind_inv H; destruct x as [q s]; injection H as <- _ _;
    eapply add_foreign_master_delay_req; eassumption.
Qed.

Lemma process_sync_delay_req (w : world) (p : port) (m : ptp_message) :
  delay_req (fst (process_sync w p m)) = delay_req p.
Proof.
  unfold process_sync. repeat case_match; cbn; congruence.
Qed.

Lemma process_follow_up_delay_req (w : world) (p : port) (m : ptp_message) :
  delay_req (fst (process_follow_up w p m)) = delay_req p.
Proof.
  unfold process_follow_up. repeat case_match; cbn; congruence.
Qed.

Lemma process_delay_resp_delay_req (w : world) (p : port) (m : ptp_message) :
  delay_req (fst (process_delay_resp w p m)) = delay_req p.
Proof.
  unfold process_delay_resp. repeat case_match; cbn; congruence.
Qed.

Lemma port_initialize_delay_req (w : world) (p : port) :
  delay_req (snd (fst (port_initialize w p))) = delay_req p.
Proof.
  unfold port_initialize, port_set_announce_tmo.
  repeat case_match; simplify_eq; cbn; congruence.
Qed.

Lemma port_dispatch_delay_req (w : world) (p : port) (event : fsm_event) :
  delay_req (fst (port_dispatch w p event)) = delay_req p.
Proof.
  unfold port_dispatch.
  destruct (decide (PS_INITIALIZING = ptp_fsm (state p) event)).
  - pose proof (port_initialize_delay_req w p) as H.
    destruct (port_initialize w p) as [[rc p1] tr]. exact H.
  - destruct (decide (ptp_fsm (state p) event = state p)); reflexivity.
Qed.

Lemma port_compute_best_delay_req (clock_gettime : nat -> timespec)
    (w : world) (p p' : port) (b : option nat) :
  port_compute_best clock_gettime w p = Some (p', b) ->
  delay_req p' = delay_req p.
Proof.
  unfold port_compute_best. intros H.
  destruct (port_compute_best_loop _ _ _ _ _) as [[l c]|]; [|discriminate].
  cbn in H. injection H as <- _. reflexivity.
Qed.

(** [port_delay_request] replaces the outstanding request exactly when the
    new Delay_Req was sent. *)
Lemma port_delay_request_delay_req (w : world) (p : port) :
  let '(rc, p', _) := port_delay_request w p in
  (rc <> 0 -> delay_req p' = delay_req p) /\
  (rc = 0 ->
   0 < fst (w_send w) /\
   delay_req p' =
     Some (msg_with_hwts (snd (w_pre_send w (delay_req_build w p)))
             (snd (w_send w)))).
Proof.
  unfold port_delay_request.
  destruct (w_tx_allocate w); cbn; [|split; [reflexivity | discriminate]].
  destruct (w_pre_send w (delay_req_build w p)) as [rc msg1]. cbn.
  destruct (Z.eqb_spec rc 0); cbn; [|split; [reflexivity | discriminate]].
  destruct (w_send w) as [n egress]. cbn.
  destruct (Z.leb_spec n 0); split; try reflexivity; try discriminate;
    try (intros; lia).
  intros _. split; [lia | reflexivity].
Qed.

(** Where the port that [port_event] leaves on a network descriptor
    comes from. *)
Lemma port_event_receive_cases (w : world) (p p' : port) (i : fd_index)
    (ev : fsm_event) (tr : list call) :
  i = FD_EVENT \/ i = FD_GENERAL ->
  port_event w p i = Some (ev, p', tr) ->
  p' = p \/
  p' = fst (process_sync w p (w_rx_message w)) \/
  p' = fst (process_follow_up w p (w_rx_message w)) \/
  p' = fst (process_delay_resp w p (w_rx_message w)) \/
  exists r t, process_announce w p (w_rx_message w) = Some (p', r, t).
Proof.
  intros Hi H.
  destruct Hi as [-> | ->]; unfold port_event in H;
    (destruct (negb (w_rx_allocate w));
       [injection H as _ <- _; auto|]);
    cbv zeta in H;
    (destruct (w_recv w <=? 0); [injection H as _ <- _; auto|]);
    (destruct (negb (w_post_recv w =? 0));
       [injection H as _ <- _; auto|]);
    (destruct (msg_type (w_rx_message w));
       try (injection H as _ <- _; auto; fail)).
  all: try (destruct (process_delay_req w p (w_rx_message w)) as [rc t];
            injection H as _ <- _; auto; fail).
  all: try (destruct (process_sync w p (w_rx_message w)) as [p1 t];
            injection H as _ <- _; auto; fail).
  all: try (destruct (process_follow_up w p (w_rx_message w)) as [p1 t];
            injection H as _ <- _; auto; fail).
  all: try (destruct (process_delay_resp w p (w_rx_message w)) as [p1 t];
            injection H as _ <- _; auto 6; fail).
  all: bind_inv H; destruct x as [[p1 r] t]; injection H as _ <- _;
    do 4 right; eauto.
Qed.

Lemma port_event_receive_delay_req (w : world) (p p' : port) (i : fd_index)
    (ev : fsm_event) (tr : list call) :
  i = FD_EVENT \/ i = FD_GENERAL ->
  port_event w p i = Some (ev, p', tr) ->
  delay_req p' = delay_req p.
Proof.
  intros Hi H.
  destruct (port_event_receive_cases w p p' i ev tr Hi H)
    as [-> | [-> | [-> | [-> | (r & t & Ha)]]]].
  - reflexivity.
  - apply process_sync_delay_req.
  - apply process_follow_up_delay_req.
  - apply process_delay_resp_delay_req.
  - eapply process_announce_delay_req; eassumption.
Qed.

Lemma port_event_delay_req (w : world) (p p' : port) (i : fd_index)
    (ev : fsm_event) (tr : list call) :
  port_event w p i = Some (ev, p', tr) ->
  delay_req p' <> delay_req p ->
  i = FD_DELAY_TIMER /\ ev = EV_NONE /\ 0 < fst (w_send w).
Proof.
  intros H Hne. destruct i.
  - exfalso. apply Hne.
    apply (port_event_receive_delay_req w p p' FD_EVENT ev tr); auto.
  - exfalso. apply Hne.
    apply (port_event_receive_delay_req w p p' FD_GENERAL ev tr); auto.
  - exfalso. apply Hne. unfold port_event in H.
    bind_inv H. injection H as _ <- _.
    destruct (best p) as [b|].
    + bind_inv Hx. bind_inv Hx. injection Hx as <-. reflexivity.
    + injection Hx as <-. reflexivity.
  - unfold port_event in H.
    pose proof (port_delay_request_delay_req w p) as Hd.
    destruct (port_delay_request w p) as [[rc p1] t].
    injection H as <- <- _. destruct Hd as [Hfail Hok].
    destruct (Z.eqb_spec rc 0) as [Hrc | Hrc]; cbn.
    + destruct (Hok Hrc) as [Hsend _]. auto.
    + exfalso. apply Hne. auto.
Qed.

(** C10: a matching Delay_Resp leaves the outstanding Delay_Req in place,
    so the same response delivered again makes the port call
    [clock_path_delay] again with the same egress time; and no entry
    point of the port changes [delay_req] except [port_event] on the
    delay timer when the new Delay_Req was sent. *)
Theorem delay_req_outlives_response (w1 w2 : world) (p : port)
    (m req : ptp_message) :
  delay_req p = Some req ->
  delay_resp_matches p m ->
  let path_delay := [clock_path_delay (hwts_ts (hwts req)) (ts_pdu m)
                       (correction (header m))] in
  let p1 := fst (process_delay_resp w1 p m) in
  snd (process_delay_resp w1 p m) = path_delay /\
  delay_req p1 = Some req /\
  snd (process_delay_resp w2 p1 m) = path_delay /\
  (forall w q q' i ev tr,
     port_event w q i = Some (ev, q', tr) ->
     delay_req q' <> delay_req q ->
     i = FD_DELAY_TIMER /\ ev = EV_NONE /\ 0 < fst (w_send w)) /\
  (forall w q ev, delay_req (fst (port_dispatch w q ev)) = delay_req q) /\
  (forall clock_gettime w q q' b,
     port_compute_best clock_gettime w q = Some (q', b) ->
     delay_req q' = delay_req q).
Proof.
  intros Hreq Hm path_delay p1.
  assert (Hreq1 : delay_req p1 = Some req).
  { unfold p1. now rewrite process_delay_resp_delay_req. }
  assert (Hm1 : delay_resp_matches p1 m).
  { destruct Hm as (r & Hr & Hst & Hpid & Hseq).
    rewrite Hreq in Hr. injection Hr as <-.
    exists req. repeat split; try assumption.
    unfold p1. rewrite (process_delay_resp_matching w1 p m req);
      [|assumption|exists req; auto].
    cbn. unfold slave_side in *. now destruct (negb _). }
  repeat split.
  - now rewrite (process_delay_resp_matching w1 p m req).
  - exact Hreq1.
  - now rewrite (process_delay_resp_matching w2 p1 m req).
  - eapply port_event_delay_req; eassumption.
  - eapply port_event_delay_req; eassumption.
  - eapply port_event_delay_req; eassumption.
  - apply port_dispatch_delay_req.
  - apply port_compute_best_delay_req.
Qed.

(** The reply of [process_delay_req]. *)

(** Equality of two octet strings given by divisions and remainders. *)
Ltac octets_eq :=
  repeat match goal with
         | |- _ :: _ = _ :: _ => f_equal
         end;
  try reflexivity; Z.to_euclidean_division_equations; lia.

Lemma be_octets_2_of_be (b1 b0 : Z) :
  0 <= b1 < 256 -> 0 <= b0 < 256 ->
  be_octets 2 (of_be_octets [b1; b0]) = [b1; b0].
Proof.
  intros H1 H0. unfold be_octets, of_be_octets, fold_left.
  rewrite !Z.shiftr_div_pow2 by lia.
  change (2 ^ (8 * Z.of_nat 1)) with 256.
  change (2 ^ (8 * Z.of_nat 0)) with 1.
  octets_eq.
Qed.

Lemma be_octets_4_of_be (b3 b2 b1 b0 : Z) :
  0 <= b3 < 256 -> 0 <= b2 < 256 -> 0 <= b1 < 256 -> 0 <= b0 < 256 ->
  be_octets 4 (of_be_octets [b3; b2; b1; b0]) = [b3; b2; b1; b0].
Proof.
  intros H3 H2 H1 H0. unfold be_octets, of_be_octets, fold_left.
  rewrite !Z.shiftr_div_pow2 by lia.
  change (2 ^ (8 * Z.of_nat 3)) with 16777216.
  change (2 ^ (8 * Z.of_nat 2)) with 65536.
  change (2 ^ (8 * Z.of_nat 1)) with 256.
  change (2 ^ (8 * Z.of_nat 0)) with 1.
  octets_eq.
Qed.

Lemma be_octets_2_to_u16 (v : Z) : be_octets 2 (to_u16 v) = be_octets 2 v.
Proof.
  unfold be_octets, to_u16. rewrite !Z.shiftr_div_pow2 by lia.
  change (2 ^ (8 * Z.of_nat 1)) with 256.
  change (2 ^ (8 * Z.of_nat 0)) with 1.
  change (2 ^ 16) with 65536.
  octets_eq.
Qed.

Lemma be_octets_4_to_u32 (v : Z) : be_octets 4 (to_u32 v) = be_octets 4 v.
Proof.
  unfold be_octets, to_u32. rewrite !Z.shiftr_div_pow2 by lia.
  change (2 ^ (8 * Z.of_nat 3)) with 16777216.
  change (2 ^ (8 * Z.of_nat 2)) with 65536.
  change (2 ^ (8 * Z.of_nat 1)) with 256.
  change (2 ^ (8 * Z.of_nat 0)) with 1.
  change (2 ^ 32) with 4294967296.
  octets_eq.
Qed.

(** In host memory the result of [htons] and [htonl] reads most
    significant octet first. *)
Lemma host_octets_htons (v : Z) :
  host_octets little_endian 2 (htons little_endian v) = be_octets 2 v.
Proof.
  unfold host_octets, htons. destruct little_endian.
  - change (rev (be_octets 2 v))
      with [(Z.shiftr v (8 * Z.of_nat 0)) mod 256;
            (Z.shiftr v (8 * Z.of_nat 1)) mod 256].
    rewrite be_octets_2_of_be by (apply Z.mod_pos_bound; lia).
    reflexivity.
  - apply be_octets_2_to_u16.
Qed.

Lemma host_octets_htonl (v : Z) :
  host_octets little_endian 4 (htonl little_endian v) = be_octets 4 v.
Proof.
  unfold host_octets, htonl. destruct little_endian.
  - change (rev (be_octets 4 v))
      with [(Z.shiftr v (8 * Z.of_nat 0)) mod 256;
            (Z.shiftr v (8 * Z.of_nat 1)) mod 256;
            (Z.shiftr v (8 * Z.of_nat 2)) mod 256;
            (Z.shiftr v (8 * Z.of_nat 3)) mod 256].
    rewrite be_octets_4_of_be by (apply Z.mod_pos_bound; lia).
    reflexivity.
  - apply be_octets_4_to_u32.
Qed.

Lemma be_octets_6_low (v : Z) :
  0 <= v < 2 ^ 32 -> be_octets 6 v = be_octets 2 0 ++ be_octets 4 v.
Proof.
  intros Hv.
  change (be_octets 6 v)
    with ((Z.shiftr v (8 * Z.of_nat 5)) mod 256 ::
          (Z.shiftr v (8 * Z.of_nat 4)) mod 256 :: be_octets 4 v).
  change (be_octets 2 0 ++ be_octets 4 v)
    with ((Z.shiftr 0 (8 * Z.of_nat 1)) mod 256 ::
          (Z.shiftr 0 (8 * Z.of_nat 0)) mod 256 :: be_octets 4 v).
  rewrite !Z.shiftr_div_pow2 by lia.
  change (2 ^ (8 * Z.of_nat 5)) with 1099511627776.
  change (2 ^ (8 * Z.of_nat 4)) with 4294967296.
  change (2 ^ 32) with 4294967296 in Hv.
  rewrite (Z.div_small v 1099511627776), (Z.div_small v 4294967296) by lia.
  reflexivity.
Qed.

(** In MASTER or GRAND_MASTER, with a buffer for the reply, the message
    handed to the codec is the one of [delay_resp_build]. *)
Lemma process_delay_req_builds (w : world) (p : port) (m : ptp_message) :
  state p = PS_MASTER \/ state p = PS_GRAND_MASTER ->
  w_tx_allocate w = true ->
  head (snd (process_delay_req w p m)) =
    Some (msg_pre_send (delay_resp_build p m)).
Proof.
  intros Hst Halloc. unfold process_delay_req. rewrite Halloc.
  replace (negb (bool_decide (state p = PS_MASTER))
           && negb (bool_decide (state p = PS_GRAND_MASTER))) with false
    by (destruct Hst as [-> | ->]; reflexivity).
  cbn. destruct (w_pre_send w (delay_resp_build p m)) as [rc msg1].
  destruct (negb (rc =? 0)); [reflexivity|].
  destruct (w_send w). reflexivity.
Qed.

(** C7, as amended: the Delay_Resp that [process_delay_req] builds in
    MASTER or GRAND_MASTER carries, in network byte order, a zero
    [seconds_msb], the low 32 bits of the seconds of the ingress time
    stamp of the request in [seconds_lsb], and its nanoseconds; this is
    the 16:32:32 big-endian split of the ingress time stamp whenever its
    seconds are below 2^32. *)
Theorem delay_resp_receive_timestamp (w : world) (p : port)
    (m : ptp_message) :
  state p = PS_MASTER \/ state p = PS_GRAND_MASTER ->
  w_tx_allocate w = true ->
  let rsp := delay_resp_build p m in
  let rx := receiveTimestamp (delay_resp rsp) in
  let ingress := hwts_ts (hwts m) in
  head (snd (process_delay_req w p m)) = Some (msg_pre_send rsp) /\
  seconds_msb rx = htons little_endian 0 /\
  seconds_lsb rx = htonl little_endian (tv_sec ingress) /\
  nanoseconds rx = htonl little_endian (tv_nsec ingress) /\
  Timestamp_octets rx =
    be_octets 2 0 ++ be_octets 4 (tv_sec ingress)
      ++ be_octets 4 (tv_nsec ingress) /\
  (0 <= tv_sec ingress < 2 ^ 32 ->
   Timestamp_octets rx =
     be_octets 6 (tv_sec ingress) ++ be_octets 4 (tv_nsec ingress)).
Proof.
  intros Hst Halloc rsp rx ingress.
  assert (Himg : Timestamp_octets rx =
                 be_octets 2 0 ++ be_octets 4 (tv_sec ingress)
                   ++ be_octets 4 (tv_nsec ingress)).
  { unfold Timestamp_octets, rx, rsp, delay_resp_build. cbn.
    now rewrite host_octets_htons, !host_octets_htonl. }
  repeat split; try reflexivity.
  - now apply process_delay_req_builds.
  - exact Himg.
  - intros Hlow. rewrite Himg, be_octets_6_low by assumption.
    now rewrite <- app_assoc.
Qed.

(** ** The state machine driver *)

(** C9, as amended: after [port_dispatch] the port is never in
    INITIALIZING; when [ptp_fsm] yields INITIALIZING the port is
    initialized at once and ends in LISTENING when that succeeded and in
    FAULTY when it failed; when [ptp_fsm] yields the current state, and
    that state is not INITIALIZING, nothing changes: no timer is touched
    and the port is the same. *)
Theorem port_dispatch_skips_initializing (w : world) (p : port)
    (event : fsm_event) :
  let next := ptp_fsm (state p) event in
  let init := port_initialize w p in
  state (fst (port_dispatch w p event)) <> PS_INITIALIZING /\
  (next = PS_INITIALIZING ->
   port_dispatch w p event =
     (port_with_state (snd (fst init))
        (if fst (fst init) =? 0 then PS_LISTENING else PS_FAULTY),
      snd init)) /\
  (next = state p -> next <> PS_INITIALIZING ->
   port_dispatch w p event = (p, [])).
Proof.
  intros next init. unfold port_dispatch. fold next. fold init.
  destruct (decide (PS_INITIALIZING = next)) as [Hinit | Hinit].
  - destruct init as [[rc p1] tr]. cbn.
    repeat split.
    + destruct (rc =? 0); discriminate.
    + intros _. destruct (rc =? 0); reflexivity.
    + congruence.
  - destruct (decide (next = state p)) as [Hsame | Hsame].
    + repeat split; cbn; congruence.
    + repeat split; cbn; congruence.
Qed.

(** ** The event dispatcher *)

(** What [port_event] does with a Delay_Req: the result of
    [process_delay_req] is dropped and the event stays EV_NONE. *)
Lemma port_event_delay_req_event (w : world) (p : port) (i : fd_index) :
  i = FD_EVENT \/ i = FD_GENERAL ->
  w_rx_allocate w = true ->
  0 < w_recv w ->
  w_post_recv w = 0 ->
  msg_type (w_rx_message w) = DELAY_REQ ->
  port_event w p i =
    Some (EV_NONE, p,
          transport_recv (fd (fda p) i)
            :: snd (process_delay_req w p (w_rx_message w))).
Proof.
  intros Hi Halloc Hrecv Hpost Htype.
  assert (Hle : (w_recv w <=? 0) = false) by (apply Z.leb_gt; lia).
  destruct Hi as [-> | ->]; unfold port_event;
    rewrite Halloc, Hle, Hpost, Htype; cbn;
    destruct (process_delay_req w p (w_rx_message w)); reflexivity.
Qed.

Lemma process_delay_req_send_failure (w : world) (p : port)
    (m : ptp_message) :
  state p = PS_MASTER \/ state p = PS_GRAND_MASTER ->
  w_tx_allocate w = true ->
  fst (w_pre_send w (delay_resp_build p m)) = 0 ->
  fst (w_send w) <= 0 ->
  process_delay_req w p m =
    (-1, [msg_pre_send (delay_resp_build p m);
          transport_send 0 (snd (w_pre_send w (delay_resp_build p m)))
            sizeof_delay_resp_msg]).
Proof.
  intros Hst Halloc Hpre Hsend. unfold process_delay_req. rewrite Halloc.
  replace (negb (bool_decide (state p = PS_MASTER))
           && negb (bool_decide (state p = PS_GRAND_MASTER))) with false
    by (destruct Hst as [-> | ->]; reflexivity).
  cbn. destruct (w_pre_send w (delay_resp_build p m)) as [rc msg1].
  cbn in *. subst rc. cbn.
  destruct (w_send w) as [n egress]. cbn in *.
  apply Z.leb_le in Hsend. now rewrite Hsend.
Qed.

(** A failed send of the Delay_Req on the delay timer, a missing receive
    buffer and a failed receive all yield EV_FAULT_DETECTED. *)
Lemma port_event_delay_timer_fault (w : world) (p : port) :
  fst (fst (port_delay_request w p)) <> 0 ->
  exists p' tr,
    port_event w p FD_DELAY_TIMER = Some (EV_FAULT_DETECTED, p', tr).
Proof.
  intros Hrc. unfold port_event.
  destruct (port_delay_request w p) as [[rc p1] tr]. cbn in Hrc.
  apply Z.eqb_neq in Hrc. rewrite Hrc. cbn. eauto.
Qed.

Lemma port_delay_request_send_failure (w : world) (p : port) :
  w_tx_allocate w = true ->
  fst (w_send w) <= 0 ->
  fst (fst (port_delay_request w p)) = -1.
Proof.
  intros Halloc Hsend. unfold port_delay_request. rewrite Halloc. cbn.
  destruct (w_pre_send w (delay_req_build w p)) as [rc msg1].
  destruct (negb (rc =? 0)); [reflexivity|].
  destruct (w_send w) as [n egress]. cbn in Hsend.
  apply Z.leb_le in Hsend. now rewrite Hsend.
Qed.

Lemma port_event_receive_fault (w : world) (p : port) (i : fd_index) :
  i = FD_EVENT \/ i = FD_GENERAL ->
  w_rx_allocate w = false \/ w_recv w <= 0 ->
  exists tr, port_event w p i = Some (EV_FAULT_DETECTED, p, tr).
Proof.
  intros Hi Hfail.
  destruct Hi as [-> | ->]; unfold port_event;
    (destruct (w_rx_allocate w); cbn; [|eauto]);
    (destruct Hfail as [Hfail | Hfail]; [discriminate|]);
    apply Z.leb_le in Hfail; rewrite Hfail; eauto.
Qed.

(** C8 fails on the Delay_Resp reply: when a Delay_Req is received in
    MASTER or GRAND_MASTER and the transport send of the reply fails,
    [process_delay_req] returns -1, but [port_event] drops that result and
    returns EV_NONE, not EV_FAULT_DETECTED; the port is unchanged. *)
Theorem port_event_drops_reply_send_failure (w : world) (p : port)
    (i : fd_index) :
  i = FD_EVENT \/ i = FD_GENERAL ->
  w_rx_allocate w = true ->
  0 < w_recv w ->
  w_post_recv w = 0 ->
  msg_type (w_rx_message w) = DELAY_REQ ->
  state p = PS_MASTER \/ state p = PS_GRAND_MASTER ->
  w_tx_allocate w = true ->
  fst (w_pre_send w (delay_resp_build p (w_rx_message w))) = 0 ->
  fst (w_send w) <= 0 ->
  fst (process_delay_req w p (w_rx_message w)) = -1 /\
  port_event w p i =
    Some (EV_NONE, p,
          [transport_recv (fd (fda p) i);
           msg_pre_send (delay_resp_build p (w_rx_message w));
           transport_send 0
             (snd (w_pre_send w (delay_resp_build p (w_rx_message w))))
             sizeof_delay_resp_msg]).
Proof.
  intros Hi Hrx Hrecv Hpost Htype Hst Htx Hpre Hsend.
  rewrite (port_event_delay_req_event w p i Hi Hrx Hrecv Hpost Htype).
  rewrite (process_delay_req_send_failure w p _ Hst Htx Hpre Hsend).
  split; reflexivity.
Qed.

(** ** Foreign master records *)

Lemma to_u32_small (z : Z) : 0 <= z < 2 ^ 32 -> to_u32 z = z.
Proof. intros H. unfold to_u32. now apply Z.mod_small. Qed.

Lemma threshold_u32 :
  threshold_ok -> to_u32 FOREIGN_MASTER_THRESHOLD = FOREIGN_MASTER_THRESHOLD.
Proof. unfold threshold_ok. intros H. apply to_u32_small. lia. Qed.

Lemma fc_clear_loop_wf (q : list ptp_message) :
  Z.of_nat (length q) < 2 ^ 32 ->
  fc_clear_loop q (Z.of_nat (length q)) = Some ([], 0).
Proof.
  induction q as [|x q IH]; intros Hlen; [reflexivity|].
  cbn [fc_clear_loop length] in *.
  destruct (Z.eqb_spec (Z.of_nat (S (length q))) 0) as [H0 | _]; [lia|].
  replace (to_u32 (Z.of_nat (S (length q)) - 1)) with (Z.of_nat (length q))
    by (rewrite to_u32_small; lia).
  apply IH. lia.
Qed.

Lemma fc_clear_wf (fc : foreign_clock) :
  threshold_ok -> wf_fc fc -> fc_clear fc = Some (fc_with_queue fc [] 0).
Proof.
  unfold threshold_ok. intros HT [Hn Hle]. unfold fc_clear.
  rewrite Hn, <- length_rev, fc_clear_loop_wf; [reflexivity|].
  rewrite length_rev. lia.
Qed.

Lemma fc_prune_excess_wf (q : list ptp_message) :
  threshold_ok ->
  Z.of_nat (length q) < 2 ^ 32 ->
  exists old q',
    fc_prune_excess q (Z.of_nat (length q)) = Some (q', Z.of_nat (length q'))
    /\ Z.of_nat (length q') <= FOREIGN_MASTER_THRESHOLD
    /\ q = old ++ q'
    /\ (Z.of_nat (length q) <= FOREIGN_MASTER_THRESHOLD -> old = []).
Proof.
  intros HT. pose proof (threshold_u32 HT) as Hu. unfold threshold_ok in HT.
  induction q as [|x q IH]; intros Hlen.
  - exists [], []. cbn [fc_prune_excess length]. rewrite Hu.
    destruct (Z.gtb_spec (Z.of_nat 0) FOREIGN_MASTER_THRESHOLD); [lia|].
    repeat split; auto; cbn; lia.
  - cbn [fc_prune_excess length] in *. rewrite Hu.
    destruct (Z.gtb_spec (Z.of_nat (S (length q))) FOREIGN_MASTER_THRESHOLD)
      as [Hgt | Hle].
    + replace (to_u32 (Z.of_nat (S (length q)) - 1))
        with (Z.of_nat (length q)) by (rewrite to_u32_small; lia).
      destruct IH as (old & q' & Hrun & Hbound & Hsplit & _); [lia|].
      exists (x :: old), q'. repeat split; auto.
      * now rewrite Hsplit.
      * intros; lia.
    + exists [], (x :: q). repeat split; auto.
Qed.

Lemma fc_prune_stale_wf (now : timespec) (q : list ptp_message) :
  Z.of_nat (length q) < 2 ^ 32 ->
  exists old q',
    fc_prune_stale now q (Z.of_nat (length q)) = (q', Z.of_nat (length q'))
    /\ q = old ++ q'.
Proof.
  induction q as [|x q IH]; intros Hlen.
  - exists [], []. split; reflexivity.
  - cbn [fc_prune_stale length] in *.
    destruct (msg_current x now).
    + exists [], (x :: q). split; reflexivity.
    + replace (to_u32 (Z.of_nat (S (length q)) - 1))
        with (Z.of_nat (length q)) by (rewrite to_u32_small; lia).
      destruct IH as (old & q' & Hrun & Hsplit); [lia|].
      exists (x :: old), q'. split; [assumption|]. now rewrite Hsplit.
Qed.

(** On a well-formed record [fc_prune] returns: it keeps the newest
    messages, at most FOREIGN_MASTER_THRESHOLD of them, and the counter
    follows the queue. *)
Lemma fc_prune_wf (now : timespec) (fc : foreign_clock) :
  threshold_ok ->
  wf_fc fc ->
  exists fc1 old,
    fc_prune now fc = Some fc1 /\
    n_messages fc1 = Z.of_nat (length (messages fc1)) /\
    n_messages fc1 <= FOREIGN_MASTER_THRESHOLD /\
    messages fc = messages fc1 ++ old /\
    fc_dataset fc1 = fc_dataset fc.
Proof.
  intros HT [Hn Hle]. unfold fc_prune.
  assert (Hlen : Z.of_nat (length (rev (messages fc))) < 2 ^ 32).
  { rewrite length_rev. unfold threshold_ok in HT. lia. }
  destruct (fc_prune_excess_wf (rev (messages fc)) HT Hlen)
    as (old1 & q1 & Hrun1 & Hbound & Hsplit1 & _).
  rewrite Hn, <- length_rev, Hrun1. cbn.
  assert (Hlen1 : Z.of_nat (length q1) < 2 ^ 32).
  { unfold threshold_ok in HT. lia. }
  destruct (fc_prune_stale_wf now q1 Hlen1) as (old2 & q2 & Hrun2 & Hsplit2).
  rewrite Hrun2.
  exists (fc_with_queue fc (rev q2) (Z.of_nat (length q2))),
         (rev old2 ++ rev old1).
  cbn. repeat split.
  - now rewrite length_rev.
  - rewrite Hsplit2, length_app in Hbound. lia.
  - rewrite <- (rev_involutive (messages fc)), Hsplit1, Hsplit2.
    now rewrite !rev_app_distr, app_assoc.
Qed.

Lemma fc_add_wf (fc : foreign_clock) (m : ptp_message) :
  threshold_ok ->
  n_messages fc = Z.of_nat (length (messages fc)) ->
  n_messages fc <= FOREIGN_MASTER_THRESHOLD ->
  fc_add fc m =
    Some (fc_added fc m,
          match messages fc with
          | [] => 0
          | tmp :: _ => announce_compare m tmp
          end).
Proof.
  unfold threshold_ok. intros HT Hn Hle. unfold fc_add, fc_added.
  rewrite to_u32_small by lia.
  destruct (messages fc) as [|tmp q] eqn:Hq; cbn [length] in Hn.
  - rewrite Hn. reflexivity.
  - destruct (Z.gtb_spec (n_messages fc + 1) 1); [reflexivity | lia].
Qed.

Lemma fc_added_wf (fc : foreign_clock) (m : ptp_message) :
  n_messages fc = Z.of_nat (length (messages fc)) ->
  n_messages fc <= FOREIGN_MASTER_THRESHOLD ->
  wf_fc (fc_added fc m).
Proof.
  intros Hn Hle. unfold wf_fc, fc_added. cbn. lia.
Qed.

(** ** The foreign master table *)

Lemma length_announce_octets (a : announce_msg) :
  length (announce_octets a) = 16%nat.
Proof.
  unfold announce_octets.
  now rewrite !length_app, !length_be_octets, !length_host_octets.
Qed.

(** [announce_compare] yields 0 exactly on byte-wise equal announcements. *)
Lemma announce_compare_zero (m1 m2 : ptp_message) :
  announce_compare m1 m2 = 0 <->
  announce_octets (announce m1) = announce_octets (announce m2).
Proof.
  unfold announce_compare. split.
  - apply memcmp_eq. now rewrite !length_announce_octets.
  - intros ->. apply memcmp_refl.
Qed.

Lemma add_foreign_master_new (w : world) (p : port) (m : ptp_message) :
  list_find (fun fc => msg_source_equal m fc = true) (foreign_masters p)
    = None ->
  add_foreign_master w p m =
    Some (if w_malloc w
          then port_with_table p (S <$> best p)
                 (new_foreign_clock m :: foreign_masters p)
          else p, 0).
Proof.
  intros Hfind. unfold add_foreign_master. rewrite Hfind.
  now destruct (w_malloc w).
Qed.

Lemma add_foreign_master_known (w : world) (p : port) (m : ptp_message)
    (i : nat) (fc : foreign_clock) :
  threshold_ok ->
  wf_fc fc ->
  list_find (fun fc => msg_source_equal m fc = true) (foreign_masters p)
    = Some (i, fc) ->
  exists fc1 old,
    fc_prune (w_now w) fc = Some fc1 /\
    n_messages fc1 = Z.of_nat (length (messages fc1)) /\
    n_messages fc1 <= FOREIGN_MASTER_THRESHOLD /\
    messages fc = messages fc1 ++ old /\
    add_foreign_master w p m =
      Some (port_with_table p (best p)
              (<[i := fc_added fc1 m]> (foreign_masters p)),
            if bool_decide (to_u32 (FOREIGN_MASTER_THRESHOLD - 1)
                            = n_messages fc1)
               || negb (match messages fc1 with
                        | [] => 0
                        | tmp :: _ => announce_compare m tmp
                        end =? 0)
            then 1 else 0).
Proof.
  intros HT Hwf Hfind.
  destruct (fc_prune_wf (w_now w) fc HT Hwf)
    as (fc1 & old & Hprune & Hn & Hle & Hsplit & _).
  exists fc1, old. repeat split; try assumption.
  unfold add_foreign_master. rewrite Hfind, Hprune. cbn.
  rewrite (fc_add_wf fc1 m HT Hn Hle). reflexivity.
Qed.

(** C2: [add_foreign_master] returns 0 when no record has the source of
    the message as its sender; a record is then created (when the
    allocation succeeds) with an empty queue.  When a record exists it is
    pruned, the message is put at the head of its queue, and the result
    is non-zero exactly when the pruned record held
    FOREIGN_MASTER_THRESHOLD - 1 messages or the announcement differs
    byte-wise from the one that was at the head before. *)
Theorem add_foreign_master_result (w : world) (p : port) (m : ptp_message) :
  threshold_ok ->
  Forall wf_fc (foreign_masters p) ->
  match list_find (fun fc => msg_source_equal m fc = true)
          (foreign_masters p) with
  | None =>
      exists p',
        add_foreign_master w p m = Some (p', 0) /\
        (if w_malloc w
         then foreign_masters p' = new_foreign_clock m :: foreign_masters p
              /\ messages (new_foreign_clock m) = []
              /\ n_messages (new_foreign_clock m) = 0
         else p' = p)
  | Some (i, fc) =>
      exists fc1 p' r,
        fc_prune (w_now w) fc = Some fc1 /\
        add_foreign_master w p m = Some (p', r) /\
        foreign_masters p' = <[i := fc_added fc1 m]> (foreign_masters p) /\
        (r <> 0 <->
         n_messages fc1 = FOREIGN_MASTER_THRESHOLD - 1 \/
         exists prev,
           head (messages fc1) = Some prev /\
           announce_octets (announce m) <> announce_octets (announce prev))
  end.
Proof.
  intros HT Hwf.
  destruct (list_find _ _) as [[i fc]|] eqn:Hfind.
  - assert (Hfc : wf_fc fc).
    { apply list_find_Some in Hfind as (Hi & _ & _).
      eapply Forall_lookup_1; eassumption. }
    destruct (add_foreign_master_known w p m i fc HT Hfc Hfind)
      as (fc1 & old & Hprune & Hn & Hle & _ & Hadd).
    eexists fc1, _, _. split; [exact Hprune|]. split; [exact Hadd|].
    split; [reflexivity|].
    assert (Hbroke : to_u32 (FOREIGN_MASTER_THRESHOLD - 1) = n_messages fc1
                     <-> n_messages fc1 = FOREIGN_MASTER_THRESHOLD - 1).
    { unfold threshold_ok in HT.
      destruct (Z.eq_dec FOREIGN_MASTER_THRESHOLD 0) as [H0 | H0].
      - rewrite H0. change (to_u32 (0 - 1)) with 4294967295. lia.
      - rewrite to_u32_small by lia. lia. }
    destruct (messages fc1) as [|tmp q] eqn:Hq; cbn [head].
    + rewrite Z.eqb_refl, orb_false_r.
      destruct (bool_decide_reflect
                  (to_u32 (FOREIGN_MASTER_THRESHOLD - 1) = n_messages fc1))
        as [Hb | Hb].
      * split; [intros _; left; now apply Hbroke | discriminate].
      * split; [congruence|].
        intros [Hb' | (prev & Hprev & _)]; [|discriminate].
        exfalso. apply Hb. now apply Hbroke.
    + destruct (bool_decide_reflect
                  (to_u32 (FOREIGN_MASTER_THRESHOLD - 1) = n_messages fc1))
        as [Hb | Hb]; cbn [orb].
      * split; [intros _; left; now apply Hbroke | discriminate].
      * destruct (Z.eqb_spec (announce_compare m tmp) 0) as [Hd | Hd];
          cbn [negb].
        -- split; [congruence|].
           intros [Hb' | (prev & [= <-] & Hdiff)].
           ++ exfalso. apply Hb. now apply Hbroke.
           ++ exfalso. apply Hdiff. now apply announce_compare_zero.
        -- split; [|discriminate]. intros _. right. exists tmp.
           split; [reflexivity|]. intros Heq. apply Hd.
           now apply announce_compare_zero.
  - rewrite (add_foreign_master_new w p m Hfind).
    eexists. split; [reflexivity|].
    destruct (w_malloc w); [|reflexivity]. repeat split.
Qed.

(** The invariant of the records is kept by every entry point. *)

Lemma wf_new_foreign_clock (m : ptp_message) :
  threshold_ok -> wf_fc (new_foreign_clock m).
Proof. unfold threshold_ok, wf_fc. cbn. lia. Qed.

Lemma wf_fc_with_dataset (fc : foreign_clock) (d : dataset) :
  wf_fc fc -> wf_fc (fc_with_dataset fc d).
Proof. intros H. exact H. Qed.

Lemma wf_fc_cleared (fc : foreign_clock) :
  threshold_ok -> wf_fc (fc_with_queue fc [] 0).
Proof. unfold threshold_ok, wf_fc. cbn. lia. Qed.

Lemma wf_fc_pruned (fc : foreign_clock) :
  n_messages fc = Z.of_nat (length (messages fc)) ->
  n_messages fc <= FOREIGN_MASTER_THRESHOLD ->
  wf_fc fc.
Proof. unfold wf_fc. lia. Qed.

Lemma add_foreign_master_wf (w : world) (p : port) (m : ptp_message) :
  threshold_ok ->
  Forall wf_fc (foreign_masters p) ->
  exists p' r,
    add_foreign_master w p m = Some (p', r) /\
    Forall wf_fc (foreign_masters p').
Proof.
  intros HT Hwf.
  destruct (list_find (fun fc => msg_source_equal m fc = true)
              (foreign_masters p)) as [[i fc]|] eqn:Hfind.
  - assert (Hfc : wf_fc fc).
    { apply list_find_Some in Hfind as (Hi & _ & _).
      eapply Forall_lookup_1; eassumption. }
    destruct (add_foreign_master_known w p m i fc HT Hfc Hfind)
      as (fc1 & old & _ & Hn & Hle & _ & Hadd).
    eexists _, _. split; [exact Hadd|]. cbn.
    apply Forall_insert; [assumption|]. now apply fc_added_wf.
  - rewrite (add_foreign_master_new w p m Hfind).
    eexists _, _. split; [reflexivity|].
    destruct (w_malloc w); [|assumption]. cbn.
    constructor; [now apply wf_new_foreign_clock | assumption].
Qed.

Lemma update_current_master_wf (w : world) (p : port) (m : ptp_message)
    (i : nat) :
  threshold_ok ->
  Forall wf_fc (foreign_masters p) ->
  best p = Some i ->
  (i < length (foreign_masters p))%nat ->
  exists p' r tr,
    update_current_master w p m = Some (p', r, tr) /\
    Forall wf_fc (foreign_masters p').
Proof.
  intros HT Hwf Hbest Hi.
  apply lookup_lt_is_Some_2 in Hi as [fc Hfc].
  unfold update_current_master. rewrite Hbest. cbn. rewrite Hfc. cbn.
  destruct (negb (msg_source_equal m fc)).
  - destruct (add_foreign_master_wf w p m HT Hwf) as (p' & r & Hadd & Hwf').
    rewrite Hadd. cbn. eauto.
  - assert (Hwfc : wf_fc fc) by (eapply Forall_lookup_1; eassumption).
    destruct (fc_prune_wf (w_now w) fc HT Hwfc)
      as (fc1 & old & Hprune & Hn & Hle & _ & _).
    destruct (port_set_announce_tmo w p) as [rc tr].
    rewrite Hprune. cbn. rewrite (fc_add_wf fc1 m HT Hn Hle). cbn.
    eexists _, _, _. split; [reflexivity|]. cbn.
    apply Forall_insert; [assumption|]. now apply fc_added_wf.
Qed.

Lemma process_sync_table (w : world) (p : port) (m : ptp_message) :
  foreign_masters (fst (process_sync w p m)) = foreign_masters p.
Proof. unfold process_sync. repeat case_match; cbn; congruence. Qed.

Lemma process_follow_up_table (w : world) (p : port) (m : ptp_message) :
  foreign_masters (fst (process_follow_up w p m)) = foreign_masters p.
Proof. unfold process_follow_up. repeat case_match; cbn; congruence. Qed.

Lemma process_delay_resp_table (w : world) (p : port) (m : ptp_message) :
  foreign_masters (fst (process_delay_resp w p m)) = foreign_masters p.
Proof. unfold process_delay_resp. repeat case_match; cbn; congruence. Qed.

Lemma port_delay_request_table (w : world) (p : port) :
  foreign_masters (snd (fst (port_delay_request w p))) = foreign_masters p.
Proof.
  unfold port_delay_request. repeat case_match; simplify_eq; cbn; congruence.
Qed.

Lemma process_announce_wf (w : world) (p p' : port) (m : ptp_message)
    (r : Z) (tr : list call) :
  threshold_ok ->
  Forall wf_fc (foreign_masters p) ->
  process_announce w p m = Some (p', r, tr) ->
  Forall wf_fc (foreign_masters p').
Proof.
  intros HT Hwf H.
  assert (Hadd : forall q s,
             add_foreign_master w p m = Some (q, s) ->
             Forall wf_fc (foreign_masters q)).
  { intros q s Hq.
    destruct (add_foreign_master_wf w p m HT Hwf) as (q' & s' & Hq' & Hwf').
    congruence. }
  assert (Hupd : update_current_master w p m = Some (p', r, tr) ->
                 Forall wf_fc (foreign_masters p')).
  { intros Hu. pose proof Hu as Hu'. unfold update_current_master in Hu.
    bind_inv Hu. bind_inv Hu.
    assert (Hi : (x < length (foreign_masters p))%nat)
      by (eapply lookup_lt_Some; eassumption).
    destruct (update_current_master_wf w p m x HT Hwf Hx Hi)
      as (q & s & t & Hq & Hwf').
    congruence. }
  unfold process_announce in H.
  destruct (state p); try (injection H as <- _ _; assumption);
    try (now apply Hupd);
    bind_inv H; destruct x as [q s]; injection H as <- _ _;
    eapply Hadd; eassumption.
Qed.

Lemma port_event_wf (w : world) (p p' : port) (i : fd_index)
    (ev : fsm_event) (tr : list call) :
  threshold_ok ->
  Forall wf_fc (foreign_masters p) ->
  port_event w p i = Some (ev, p', tr) ->
  Forall wf_fc (foreign_masters p').
Proof.
  intros HT Hwf H.
  assert (Hrx : i = FD_EVENT \/ i = FD_GENERAL ->
                Forall wf_fc (foreign_masters p')).
  { intros Hi.
    destruct (port_event_receive_cases w p p' i ev tr Hi H)
      as [-> | [-> | [-> | [-> | (r & t & Ha)]]]].
    - assumption.
    - now rewrite process_sync_table.
    - now rewrite process_follow_up_table.
    - now rewrite process_delay_resp_table.
    - eapply process_announce_wf; eassumption. }
  destruct i; auto.
  - unfold port_event in H. bind_inv H. injection H as _ <- _.
    destruct (best p) as [b|].
    + bind_inv Hx. bind_inv Hx. injection Hx as <-. cbn.
      apply Forall_insert; [assumption|].
      assert (Hfc : wf_fc x0) by (eapply Forall_lookup_1; eassumption).
      rewrite (fc_clear_wf x0 HT Hfc) in Hx1. injection Hx1 as <-.
      now apply wf_fc_cleared.
    + injection Hx as <-. assumption.
  - unfold port_event in H.
    pose proof (port_delay_request_table w p) as Ht.
    destruct (port_delay_request w p) as [[rc p1] t].
    injection H as _ <- _. cbn in Ht. now rewrite Ht.
Qed.

Lemma port_compute_best_loop_wf (clock_gettime : nat -> timespec)
    (w : world) (todo done done' : list foreign_clock) (b b' : option nat) :
  threshold_ok ->
  Forall wf_fc done ->
  Forall wf_fc todo ->
  port_compute_best_loop clock_gettime w done b todo = Some (done', b') ->
  Forall wf_fc done'.
Proof.
  intros HT. revert done b.
  induction todo as [|fc rest IH]; intros done b Hdone Htodo H.
  - injection H as <- _. assumption.
  - apply Forall_cons in Htodo as [Hfc Hrest].
    cbn [port_compute_best_loop] in H.
    assert (Hnext : forall fc' c,
               wf_fc fc' ->
               port_compute_best_loop clock_gettime w (done ++ [fc']) c rest
                 = Some (done', b') ->
               Forall wf_fc done').
    { intros fc' c Hfc' Hrun. eapply IH; [| exact Hrest | exact Hrun].
      apply Forall_app. split; [assumption|]. now constructor. }
    destruct (messages fc) as [|tmp q] eqn:Hq; [eauto|].
    destruct (fc_prune_wf (clock_gettime (length done)) fc HT Hfc)
      as (fc1 & old & Hprune & Hn & Hle & _ & _).
    rewrite Hprune in H. cbn in H.
    pose proof (wf_fc_pruned fc1 Hn Hle) as Hfc1.
    destruct (n_messages fc1 <? to_u32 FOREIGN_MASTER_THRESHOLD); [eauto|].
    destruct (messages fc1) as [|tmp1 q1] eqn:Hq1; [discriminate|].
    set (fc2 := fc_with_dataset fc1 (announce_to_dataset tmp w)) in *.
    assert (Hfc2 : wf_fc fc2) by now apply wf_fc_with_dataset.
    destruct b as [i|]; [|eauto].
    bind_inv H.
    destruct (dscmp _ _ >? 0); [eauto|].
    bind_inv H. rewrite (fc_clear_wf fc2 HT Hfc2) in Hx0.
    injection Hx0 as <-. eapply Hnext; [|exact H]. now apply wf_fc_cleared.
Qed.

(** C3, as amended: on a table of well-formed records - the counter of
    each is the length of its queue and is at most
    FOREIGN_MASTER_THRESHOLD + 1 - a prune leaves at most
    FOREIGN_MASTER_THRESHOLD messages, [add_foreign_master] and
    [update_current_master] return and leave every record well formed
    (the added message can be the one above the threshold), and so do
    [port_event] and [port_compute_best]. *)
Theorem foreign_clock_queue_invariant (w : world) (p : port)
    (m : ptp_message) :
  threshold_ok ->
  Forall wf_fc (foreign_masters p) ->
  (forall now fc, wf_fc fc ->
     exists fc1,
       fc_prune now fc = Some fc1 /\
       n_messages fc1 = Z.of_nat (length (messages fc1)) /\
       n_messages fc1 <= FOREIGN_MASTER_THRESHOLD) /\
  (exists p' r,
     add_foreign_master w p m = Some (p', r) /\
     Forall wf_fc (foreign_masters p')) /\
  (forall i, best p = Some i -> (i < length (foreign_masters p))%nat ->
     exists p' r tr,
       update_current_master w p m = Some (p', r, tr) /\
       Forall wf_fc (foreign_masters p')) /\
  (forall i ev p' tr,
     port_event w p i = Some (ev, p', tr) ->
     Forall wf_fc (foreign_masters p')) /\
  (forall clock_gettime p' b,
     port_compute_best clock_gettime w p = Some (p', b) ->
     Forall wf_fc (foreign_masters p')).
Proof.
  intros HT Hwf. repeat split.
  - intros now fc Hfc.
    destruct (fc_prune_wf now fc HT Hfc) as (fc1 & old & H1 & H2 & H3 & _).
    eauto.
  - now apply add_foreign_master_wf.
  - intros i. now apply update_current_master_wf.
  - intros i ev p' tr. now apply port_event_wf.
  - intros clock_gettime p' b H. unfold port_compute_best in H.
    bind_inv H. destruct x as [l c]. injection H as <- _. cbn.
    eapply port_compute_best_loop_wf; [exact HT| |exact Hwf|exact Hx].
    constructor.
Qed.

(** ** Selection of the best foreign master *)

Section Selection.

Variable clock_gettime : nat -> timespec.
Variable w : world.

Hypothesis threshold : threshold_ok.
Hypothesis threshold_positive : 1 <= FOREIGN_MASTER_THRESHOLD.
Hypothesis beats_irreflexive : forall a, ~ beats a a.
Hypothesis beats_transitive :
  forall a b c, beats a b -> beats b c -> beats a c.

Lemma not_qualified_empty (now : timespec) (fc : foreign_clock) :
  wf_fc fc -> messages fc = [] -> ~ qualified now fc.
Proof.
  intros Hwf Hq (fc1 & Hprune & Hge).
  destruct (fc_prune_wf now fc threshold Hwf)
    as (fc1' & old & Hprune' & Hn & _ & Hsplit & _).
  rewrite Hprune in Hprune'. injection Hprune' as <-.
  rewrite Hq in Hsplit. symmetry in Hsplit.
  apply app_eq_nil in Hsplit as [Hnil _].
  rewrite Hnil in Hn. cbn in Hn. lia.
Qed.

Lemma best_invariant_skip (l0 done : list foreign_clock) (b : option nat)
    (fc fc' : foreign_clock) :
  best_invariant clock_gettime w l0 done b ->
  ~ qualified (clock_gettime (length l0)) fc ->
  best_invariant clock_gettime w (l0 ++ [fc]) (done ++ [fc']) b.
Proof.
  intros [Hlen Hb] Hnq. split; [rewrite !length_app; cbn; lia|].
  destruct b as [i|].
  - destruct Hb as (fc0 & fb & d & H0 & Hq0 & Hd & Hfb & Hds & Hmax).
    exists fc0, fb, d. repeat split; try assumption.
    + now apply lookup_app_l_Some.
    + now apply lookup_app_l_Some.
    + intros k fck dk Hk Hqk Hdk.
      apply lookup_snoc_Some in Hk as [[_ Hk] | [-> <-]]; [eauto|].
      contradiction.
  - intros k fck Hk.
    apply lookup_snoc_Some in Hk as [[_ Hk] | [-> <-]]; [eauto|].
    assumption.
Qed.

Lemma best_invariant_first (l0 done : list foreign_clock)
    (fc fc' : foreign_clock) (d : dataset) :
  best_invariant clock_gettime w l0 done None ->
  qualified (clock_gettime (length l0)) fc ->
  candidate w fc = Some d ->
  fc_dataset fc' = d ->
  best_invariant clock_gettime w (l0 ++ [fc]) (done ++ [fc'])
    (Some (length done)).
Proof.
  intros [Hlen Hnone] Hq Hd Hds. split; [rewrite !length_app; cbn; lia|].
  exists fc, fc', d. repeat split; try assumption.
  - rewrite Hlen. apply lookup_snoc_Some. right. auto.
  - now rewrite Hlen.
  - apply lookup_snoc_Some. right. auto.
  - intros k fck dk Hk Hqk Hdk.
    apply lookup_snoc_Some in Hk as [[_ Hk] | [-> <-]].
    + exfalso. eapply Hnone; eassumption.
    + rewrite Hd in Hdk. injection Hdk as <-. apply beats_irreflexive.
Qed.

Lemma best_invariant_better (l0 done : list foreign_clock) (i : nat)
    (fc fc' cur : foreign_clock) (d : dataset) :
  best_invariant clock_gettime w l0 done (Some i) ->
  done !! i = Some cur ->
  qualified (clock_gettime (length l0)) fc ->
  candidate w fc = Some d ->
  fc_dataset fc' = d ->
  beats d (fc_dataset cur) ->
  best_invariant clock_gettime w (l0 ++ [fc]) (done ++ [fc'])
    (Some (length done)).
Proof.
  intros [Hlen Hb] Hcur Hq Hd Hds Hbeats.
  destruct Hb as (fc0 & fb & d0 & H0 & Hq0 & Hd0 & Hfb & Hds0 & Hmax).
  rewrite Hcur in Hfb. injection Hfb as <-. rewrite Hds0 in Hbeats.
  split; [rewrite !length_app; cbn; lia|].
  exists fc, fc', d. repeat split; try assumption.
  - rewrite Hlen. apply lookup_snoc_Some. right. auto.
  - now rewrite Hlen.
  - apply lookup_snoc_Some. right. auto.
  - intros k fck dk Hk Hqk Hdk.
    apply lookup_snoc_Some in Hk as [[_ Hk] | [-> <-]].
    + intros Hkd. apply (Hmax k fck dk Hk Hqk Hdk).
      eapply beats_transitive; eassumption.
    + rewrite Hd in Hdk. injection Hdk as <-. apply beats_irreflexive.
Qed.

Lemma best_invariant_loser (l0 done : list foreign_clock) (i : nat)
    (fc fc' cur : foreign_clock) (d : dataset) :
  best_invariant clock_gettime w l0 done (Some i) ->
  done !! i = Some cur ->
  candidate w fc = Some d ->
  ~ beats d (fc_dataset cur) ->
  best_invariant clock_gettime w (l0 ++ [fc]) (done ++ [fc']) (Some i).
Proof.
  intros [Hlen Hb] Hcur Hd Hlose.
  destruct Hb as (fc0 & fb & d0 & H0 & Hq0 & Hd0 & Hfb & Hds0 & Hmax).
  rewrite Hcur in Hfb. injection Hfb as <-. rewrite Hds0 in Hlose.
  split; [rewrite !length_app; cbn; lia|].
  exists fc0, cur, d0. repeat split; try assumption.
  - now apply lookup_app_l_Some.
  - now apply lookup_app_l_Some.
  - intros k fck dk Hk Hqk Hdk.
    apply lookup_snoc_Some in Hk as [[_ Hk] | [-> <-]]; [eauto|].
    rewrite Hd in Hdk. injection Hdk as <-. assumption.
Qed.

(** On well-formed records the loop returns and keeps the invariant. *)
Lemma port_compute_best_loop_invariant (todo : list foreign_clock) :
  forall (l0 done : list foreign_clock) (b : option nat),
    Forall wf_fc todo ->
    best_invariant clock_gettime w l0 done b ->
    exists done' b',
      port_compute_best_loop clock_gettime w done b todo = Some (done', b')
      /\ best_invariant clock_gettime w (l0 ++ todo) done' b'.
Proof.
  induction todo as [|fc rest IH]; intros l0 done b Htodo Hinv.
  - exists done, b. split; [reflexivity|]. now rewrite app_nil_r.
  - apply Forall_cons in Htodo as [Hfc Hrest].
    assert (Hnext : forall fc' c,
               best_invariant clock_gettime w (l0 ++ [fc]) (done ++ [fc']) c ->
               exists done' b',
                 port_compute_best_loop clock_gettime w (done ++ [fc']) c rest
                   = Some (done', b')
                 /\ best_invariant clock_gettime w (l0 ++ fc :: rest)
                      done' b').
    { intros fc' c Hc. rewrite (cons_middle fc l0 rest), app_assoc.
      now apply IH. }
    pose proof Hinv as [Hlen _].
    cbn [port_compute_best_loop].
    destruct (messages fc) as [|tmp q] eqn:Hq.
    { apply Hnext, best_invariant_skip; [assumption|].
      now apply not_qualified_empty. }
    destruct (fc_prune_wf (clock_gettime (length done)) fc threshold Hfc)
      as (fc1 & old & Hprune & Hn & Hle & Hsplit & _).
    rewrite Hprune. cbn.
    rewrite (threshold_u32 threshold).
    destruct (Z.ltb_spec (n_messages fc1) FOREIGN_MASTER_THRESHOLD)
      as [Hlt | Hge].
    { apply Hnext, best_invariant_skip; [assumption|].
      rewrite <- Hlen. intros (fc1' & Hprune' & Hge).
      rewrite Hprune in Hprune'. injection Hprune' as <-. lia. }
    assert (Hqual : qualified (clock_gettime (length l0)) fc).
    { rewrite <- Hlen. exists fc1. auto. }
    assert (Hcand : candidate w fc = Some (announce_to_dataset tmp w)).
    { unfold candidate. now rewrite Hq. }
    destruct (messages fc1) as [|tmp1 q1] eqn:Hq1; [cbn in Hn; lia|].
    set (fc2 := fc_with_dataset fc1 (announce_to_dataset tmp w)).
    assert (Hfc2 : wf_fc fc2).
    { apply wf_fc_with_dataset, wf_fc_pruned; [|assumption].
      now rewrite Hq1. }
    destruct b as [i|].
    + pose proof Hinv as [_ (fc0 & fb & d0 & _ & _ & _ & Hfb & _)].
      rewrite Hfb. cbn.
      destruct (Z.gtb_spec (dscmp (announce_to_dataset tmp w) (fc_dataset fb))
                  0) as [Hgt | Hngt].
      * apply Hnext.
        apply (best_invariant_better l0 done i fc fc2 fb
                 (announce_to_dataset tmp w)); auto; unfold beats; lia.
      * rewrite (fc_clear_wf fc2 threshold Hfc2). cbn.
        apply Hnext.
        apply (best_invariant_loser l0 done i fc _ fb
                 (announce_to_dataset tmp w)); auto; unfold beats; lia.
    + apply Hnext.
      apply (best_invariant_first l0 done fc fc2
               (announce_to_dataset tmp w)); auto.
Qed.

End Selection.

Lemma port_compute_best_loop_app (clock_gettime : nat -> timespec)
    (w : world) (l1 l2 : list foreign_clock) :
  forall (done : list foreign_clock) (b : option nat),
    port_compute_best_loop clock_gettime w done b (l1 ++ l2) =
    '(d, c) ← port_compute_best_loop clock_gettime w done b l1;
    port_compute_best_loop clock_gettime w d c l2.
Proof.
  induction l1 as [|fc l1 IH]; intros done b; [reflexivity|].
  cbn [app port_compute_best_loop].
  destruct (messages fc); [apply IH|].
  destruct (fc_prune _ fc) as [fc1|]; cbn; [|reflexivity].
  destruct (_ <? _); [apply IH|].
  destruct (messages fc1); [reflexivity|].
  destruct b as [i|]; [|apply IH].
  destruct (done !! i); cbn; [|reflexivity].
  destruct (_ >? _); [apply IH|].
  destruct (fc_clear _); cbn; [apply IH | reflexivity].
Qed.

(** The loop only appends to the records it has visited. *)
Lemma port_compute_best_loop_extends (clock_gettime : nat -> timespec)
    (w : world) (todo : list foreign_clock) :
  forall (done done' : list foreign_clock) (b b' : option nat),
    port_compute_best_loop clock_gettime w done b todo = Some (done', b') ->
    exists ext, done' = done ++ ext /\ length ext = length todo.
Proof.
  induction todo as [|fc rest IH]; intros done done' b b' H.
  - injection H as <- _. exists []. now rewrite app_nil_r.
  - assert (Hnext : forall fc' c,
               port_compute_best_loop clock_gettime w (done ++ [fc']) c rest
                 = Some (done', b') ->
               exists ext,
                 done' = done ++ ext /\ length ext = length (fc :: rest)).
    { intros fc' c Hrun. apply IH in Hrun as (ext & -> & Hlen).
      exists (fc' :: ext). rewrite <- app_assoc. cbn. auto. }
    cbn [port_compute_best_loop] in H.
    destruct (messages fc); [eauto|].
    bind_inv H.
    destruct (_ <? _); [eauto|].
    destruct (messages x); [discriminate|].
    destruct b as [i|]; [|eauto].
    bind_inv H.
    destruct (_ >? _); [eauto|].
    bind_inv H. eauto.
Qed.

(** A qualified record that does not beat the best record of the moment
    leaves the loop with an empty queue. *)
Lemma port_compute_best_loser_cleared (clock_gettime : nat -> timespec)
    (w : world) (l done' dk : list foreign_clock) (b' : option nat)
    (k bk : nat) (fc fb : foreign_clock) (d : dataset) :
  threshold_ok ->
  1 <= FOREIGN_MASTER_THRESHOLD ->
  Forall wf_fc l ->
  port_compute_best_loop clock_gettime w [] None l = Some (done', b') ->
  l !! k = Some fc ->
  qualified (clock_gettime k) fc ->
  candidate w fc = Some d ->
  running_best clock_gettime w l k = Some (dk, Some bk) ->
  dk !! bk = Some fb ->
  ~ beats d (fc_dataset fb) ->
  exists fc',
    done' !! k = Some fc' /\ messages fc' = [] /\ n_messages fc' = 0.
Proof.
  intros HT HT1 Hwf Hrun Hk (fc1 & Hprune & Hge) Hd Hbest Hfb Hlose.
  assert (Hfc : wf_fc fc) by (eapply Forall_lookup_1; eassumption).
  unfold running_best in Hbest.
  assert (Hlen : length dk = k).
  { apply port_compute_best_loop_extends in Hbest as (ext & -> & Hext).
    cbn. rewrite Hext. apply length_take_le.
    apply lookup_lt_Some in Hk. lia. }
  rewrite <- (take_drop_middle l k fc Hk) in Hrun.
  rewrite port_compute_best_loop_app, Hbest in Hrun. cbn in Hrun.
  unfold candidate in Hd.
  destruct (messages fc) as [|tmp q] eqn:Hq; [discriminate|].
  cbn in Hd. injection Hd as <-.
  rewrite Hlen, Hprune in Hrun. cbn in Hrun.
  rewrite (threshold_u32 HT) in Hrun.
  destruct (Z.ltb_spec (n_messages fc1) FOREIGN_MASTER_THRESHOLD)
    as [Hlt | _]; [lia|].
  destruct (fc_prune_wf (clock_gettime k) fc HT Hfc)
    as (fc1' & old & Hprune' & Hn & Hle & _ & _).
  rewrite Hprune in Hprune'. injection Hprune' as <-.
  destruct (messages fc1) as [|tmp1 q1] eqn:Hq1; [discriminate|].
  rewrite Hfb in Hrun. cbn in Hrun.
  destruct (Z.gtb_spec (dscmp (announce_to_dataset tmp w) (fc_dataset fb)) 0)
    as [Hgt | _]; [exfalso; apply Hlose; unfold beats; lia|].
  set (fc2 := fc_with_dataset fc1 (announce_to_dataset tmp w)) in *.
  assert (Hfc2 : wf_fc fc2).
  { apply wf_fc_with_dataset, wf_fc_pruned; [|assumption].
    now rewrite Hq1. }
  rewrite (fc_clear_wf fc2 HT Hfc2) in Hrun. cbn in Hrun.
  apply port_compute_best_loop_extends in Hrun as (ext & -> & _).
  exists (fc_with_queue fc2 [] 0). split; [|split; reflexivity].
  rewrite <- app_assoc. cbn. rewrite <- Hlen. apply list_lookup_middle.
  reflexivity.
Qed.


(** ** More on the foreign master records *)

Lemma fc_clear_loop_spec (q : list ptp_message) :
  forall n, 0 <= n < 2 ^ 32 ->
    fc_clear_loop q n =
      if n <=? Z.of_nat (length q) then Some (drop (Z.to_nat n) q, 0)
      else None.
Proof.
  induction q as [|x q IH]; intros n Hn; cbn [fc_clear_loop length].
  - destruct (Z.eqb_spec n 0) as [-> | Hn0]; [reflexivity|].
    destruct (Z.leb_spec n (Z.of_nat 0)); [lia | reflexivity].
  - destruct (Z.eqb_spec n 0) as [-> | Hn0]; [reflexivity|].
    rewrite to_u32_small by lia. rewrite IH by lia.
    replace (Z.to_nat n) with (S (Z.to_nat (n - 1))) by lia.
    cbn [drop skipn].
    destruct (Z.leb_spec (n - 1) (Z.of_nat (length q)));
      destruct (Z.leb_spec n (Z.of_nat (S (length q)))); try lia; reflexivity.
Qed.

(** X1: [fc_clear] takes [n_messages] messages off the tail of the queue,
    whatever the queue holds: with a counter below the length of the
    queue the newest messages stay, with a counter above it the loop
    runs off the empty queue and does not return. *)
Theorem fc_clear_releases_counted (fc : foreign_clock) :
  0 <= n_messages fc < 2 ^ 32 ->
  fc_clear fc =
    if n_messages fc <=? Z.of_nat (length (messages fc))
    then Some (fc_with_queue fc
                 (take (length (messages fc) - Z.to_nat (n_messages fc))
                    (messages fc)) 0)
    else None.
Proof.
  intros Hn. unfold fc_clear. rewrite fc_clear_loop_spec by assumption.
  rewrite length_rev.
  destruct (n_messages fc <=? Z.of_nat (length (messages fc)));
    [|reflexivity].
  cbn. now rewrite skipn_rev, rev_involutive.
Qed.

Lemma last_rev (q : list ptp_message) : last (rev q) = head q.
Proof. destruct q as [|x q]; [reflexivity|]. cbn. apply last_snoc. Qed.

Lemma fc_prune_stale_head (now : timespec) (q : list ptp_message) :
  forall n q' n' m,
    fc_prune_stale now q n = (q', n') ->
    head q' = Some m ->
    msg_current m now = true.
Proof.
  induction q as [|x q IH]; intros n q' n' m H Hm; cbn [fc_prune_stale] in H.
  - injection H as <- _. discriminate.
  - destruct (msg_current x now) eqn:Hx.
    + injection H as <- _. cbn in Hm. now injection Hm as <-.
    + eapply IH; eassumption.
Qed.

Lemma fc_prune_stale_noop (now : timespec) (q : list ptp_message) (n : Z) :
  (forall m, head q = Some m -> msg_current m now = true) ->
  fc_prune_stale now q n = (q, n).
Proof.
  intros H. destruct q as [|x q]; [reflexivity|].
  cbn [fc_prune_stale]. now rewrite (H x eq_refl).
Qed.

Lemma fc_prune_excess_noop (q : list ptp_message) (n : Z) :
  threshold_ok ->
  n <= FOREIGN_MASTER_THRESHOLD ->
  fc_prune_excess q n = Some (q, n).
Proof.
  intros HT Hn.
  assert (H : (n >? to_u32 FOREIGN_MASTER_THRESHOLD) = false).
  { rewrite (threshold_u32 HT).
    destruct (Z.gtb_spec n FOREIGN_MASTER_THRESHOLD); [lia | reflexivity]. }
  destruct q; cbn [fc_prune_excess]; now rewrite H.
Qed.

(** A record that holds no more than FOREIGN_MASTER_THRESHOLD messages
    and whose oldest message is current is left as it is by
    [fc_prune]. *)
Lemma fc_prune_noop (now : timespec) (fc : foreign_clock) :
  threshold_ok ->
  n_messages fc <= FOREIGN_MASTER_THRESHOLD ->
  (forall m, last (messages fc) = Some m -> msg_current m now = true) ->
  fc_prune now fc = Some fc.
Proof.
  intros HT Hn Hlast. unfold fc_prune.
  rewrite fc_prune_excess_noop by assumption. cbn.
  rewrite fc_prune_stale_noop.
  - rewrite rev_involutive. now destruct fc.
  - intros m Hm. apply Hlast.
    rewrite <- (rev_involutive (messages fc)), last_rev. exact Hm.
Qed.

(** The oldest message that [fc_prune] keeps is current. *)
Lemma fc_prune_last_current (now : timespec) (fc fc1 : foreign_clock)
    (m : ptp_message) :
  fc_prune now fc = Some fc1 ->
  last (messages fc1) = Some m ->
  msg_current m now = true.
Proof.
  unfold fc_prune. intros Hprune Hm.
  bind_inv Hprune. destruct x as [q1 n1].
  destruct (fc_prune_stale now q1 n1) as [q2 n2] eqn:Hstale.
  injection Hprune as <-. cbn in Hm. rewrite last_rev in Hm.
  eapply fc_prune_stale_head; eassumption.
Qed.

(** X2: what [fc_prune] keeps: the newest messages of the queue, at most
    FOREIGN_MASTER_THRESHOLD of them, and the oldest message kept is
    current; the data set is not touched. *)
Theorem fc_prune_keeps_current_head (now : timespec) (fc : foreign_clock) :
  threshold_ok ->
  wf_fc fc ->
  exists fc1 old,
    fc_prune now fc = Some fc1 /\
    messages fc = messages fc1 ++ old /\
    n_messages fc1 = Z.of_nat (length (messages fc1)) /\
    n_messages fc1 <= FOREIGN_MASTER_THRESHOLD /\
    fc_dataset fc1 = fc_dataset fc /\
    (forall m, last (messages fc1) = Some m -> msg_current m now = true).
Proof.
  intros HT Hwf.
  destruct (fc_prune_wf now fc HT Hwf)
    as (fc1 & old & Hprune & Hn & Hle & Hsplit & Hds).
  exists fc1, old. repeat split; try assumption.
  intros m. now apply fc_prune_last_current with (fc := fc).
Qed.

(** X3: pruning twice at the same time is pruning once. *)
Theorem fc_prune_idempotent (now : timespec) (fc fc1 : foreign_clock) :
  threshold_ok ->
  wf_fc fc ->
  fc_prune now fc = Some fc1 ->
  fc_prune now fc1 = Some fc1.
Proof.
  intros HT Hwf Hprune.
  destruct (fc_prune_wf now fc HT Hwf)
    as (fc1' & old & Hprune' & _ & Hle & _ & _).
  rewrite Hprune in Hprune'. injection Hprune' as <-.
  apply fc_prune_noop; [assumption..|].
  intros m. now apply fc_prune_last_current with (fc := fc).
Qed.

Lemma to_s64_small (z : Z) : - 2 ^ 63 <= z < 2 ^ 63 -> to_s64 z = z.
Proof.
  intros Hz. unfold to_s64. rewrite Z.mod_small by lia. lia.
Qed.

(** The nanoseconds of a reading of the monotonic clock are computed
    without a wrap. *)
Lemma monotonic_time_exact (t : timespec) :
  monotonic_time t ->
  to_s64 (to_s64 (tv_sec t * NSEC2SEC) + tv_nsec t)
    = tv_sec t * NSEC2SEC + tv_nsec t /\
  0 <= tv_sec t * NSEC2SEC + tv_nsec t < 2 ^ 63.
Proof.
  unfold monotonic_time, NSEC2SEC. intros (Hs & Hn & Hfit).
  rewrite (to_s64_small (tv_sec t * 1000000000)) by lia.
  rewrite to_s64_small by lia. lia.
Qed.

(** X4: between readings of the monotonic clock, which are not negative
    and fit an [int64_t] in nanoseconds, a message that is no longer
    current never becomes current again, whatever window its
    logMessageInterval gives. *)
Theorem msg_current_expires (m : ptp_message) (now later : timespec) :
  monotonic_time (ts_host m) ->
  monotonic_time now ->
  monotonic_time later ->
  tv_sec now * NSEC2SEC + tv_nsec now
    <= tv_sec later * NSEC2SEC + tv_nsec later ->
  msg_current m now = false ->
  msg_current m later = false.
Proof.
  intros Hm Hn Hl Hle. unfold msg_current.
  destruct (monotonic_time_exact _ Hm) as [-> Hm1].
  destruct (monotonic_time_exact _ Hn) as [-> Hn1].
  destruct (monotonic_time_exact _ Hl) as [-> Hl1].
  generalize (to_s64
                (to_s32
                   (4 * to_s32
                          (Z.shiftl 1 (logMessageInterval (header m) mod 32)))
                 * NSEC2SEC)).
  intros tmo.
  rewrite 2!to_s64_small by lia.
  intros Hnow. apply Z.ltb_ge in Hnow. apply Z.ltb_ge. lia.
Qed.

(** ** Octets and identities *)

Lemma fold_be_octets (n : nat) (v : Z) :
  forall acc,
    fold_left (fun a o => a * 256 + o) (be_octets n v) acc =
    acc * 2 ^ (8 * Z.of_nat n) + v mod 2 ^ (8 * Z.of_nat n).
Proof.
  induction n as [|n IH]; intros acc.
  - change (be_octets 0 v) with (@nil Z). cbn [fold_left].
    change (2 ^ (8 * Z.of_nat 0)) with 1. rewrite Z.mod_1_r. lia.
  - change (be_octets (S n) v)
      with (Z.shiftr v (8 * Z.of_nat n) mod 256 :: be_octets n v).
    cbn [fold_left]. rewrite IH, Z.shiftr_div_pow2 by lia.
    replace (8 * Z.of_nat (S n)) with (8 * Z.of_nat n + 8) by lia.
    rewrite Z.pow_add_r by lia. change (2 ^ 8) with 256.
    rewrite (Z.rem_mul_r v (2 ^ (8 * Z.of_nat n)) 256) by lia.
    ring.
Qed.

(** Reading back the [n] octets of a value gives the value modulo
    2^(8n). *)
Lemma of_be_octets_be_octets (n : nat) (v : Z) :
  of_be_octets (be_octets n v) = v mod 2 ^ (8 * Z.of_nat n).
Proof. unfold of_be_octets. rewrite fold_be_octets. lia. Qed.

Lemma be_octets_inj (n : nat) (a b : Z) :
  0 <= a < 2 ^ (8 * Z.of_nat n) ->
  0 <= b < 2 ^ (8 * Z.of_nat n) ->
  be_octets n a = be_octets n b ->
  a = b.
Proof.
  intros Ha Hb H. apply (f_equal of_be_octets) in H.
  rewrite !of_be_octets_be_octets in H.
  now rewrite !Z.mod_small in H by assumption.
Qed.

Lemma host_octets_inj (n : nat) (a b : Z) :
  0 <= a < 2 ^ (8 * Z.of_nat n) ->
  0 <= b < 2 ^ (8 * Z.of_nat n) ->
  host_octets little_endian n a = host_octets little_endian n b ->
  a = b.
Proof.
  intros Ha Hb H. unfold host_octets in H. destruct little_endian.
  - apply (f_equal (@rev Z)) in H. rewrite !rev_involutive in H.
    now apply (be_octets_inj n).
  - now apply (be_octets_inj n).
Qed.

Lemma pid_eq_octets (a b : PortIdentity) :
  pid_eq a b = true <-> PortIdentity_octets a = PortIdentity_octets b.
Proof.
  unfold pid_eq. split.
  - intros H. apply Z.eqb_eq in H. symmetry in H.
    now apply memcmp_PortIdentity_eq.
  - intros ->. now rewrite memcmp_refl.
Qed.

(** X5: on identities whose fields fit their wire types, the byte-wise
    comparison of [pid_eq] decides equality. *)
Theorem pid_eq_decides_equality (a b : PortIdentity) :
  PortIdentity_ok a ->
  PortIdentity_ok b ->
  (pid_eq a b = true <-> a = b).
Proof.
  intros [Hca Hpa] [Hcb Hpb]. rewrite pid_eq_octets. split.
  - unfold PortIdentity_octets. intros H.
    apply app_inj_1 in H as [Hc Hp]; [|now rewrite !length_be_octets].
    apply (be_octets_inj 8) in Hc; [|assumption..].
    apply (host_octets_inj 2) in Hp; [|assumption..].
    destruct a, b. cbn in *. congruence.
  - now intros ->.
Qed.

(** [ntohs] undoes [htons] on 16 bit values, on either byte order. *)
Lemma ntohs_htons (v : Z) :
  ntohs little_endian (htons little_endian v) = to_u16 v.
Proof.
  unfold ntohs, htons. destruct little_endian.
  - change (rev (be_octets 2 v))
      with [(Z.shiftr v (8 * Z.of_nat 0)) mod 256;
            (Z.shiftr v (8 * Z.of_nat 1)) mod 256].
    rewrite be_octets_2_of_be by (apply Z.mod_pos_bound; lia).
    change (rev [Z.shiftr v (8 * Z.of_nat 0) mod 256;
                 Z.shiftr v (8 * Z.of_nat 1) mod 256])
      with (be_octets 2 v).
    rewrite of_be_octets_be_octets. reflexivity.
  - unfold to_u16. now rewrite Z.mod_mod.
Qed.

(** X6: when the outstanding Delay_Req is kept with its sequence id in
    network order, as [htons s], a Delay_Resp of the right requester
    matches exactly when it carries [s]. *)
Theorem delay_resp_matches_sent_id (p : port) (m req : ptp_message) (s : Z) :
  delay_req p = Some req ->
  slave_side p ->
  pid_eq (requestingPortIdentity (delay_resp m))
         (sourcePortIdentity (header req)) = true ->
  sequenceId (header req) = htons little_endian s ->
  0 <= s < 2 ^ 16 ->
  (delay_resp_matches p m <-> sequenceId (header m) = s).
Proof.
  intros Hreq Hst Hpid Hid Hs.
  assert (Hback : ntohs little_endian (sequenceId (header req)) = s).
  { rewrite Hid, ntohs_htons. now apply Z.mod_small. }
  split.
  - intros (r & Hr & _ & _ & Hseq). rewrite Hreq in Hr.
    injection Hr as <-. congruence.
  - intros Hseq. exists req. repeat split; try assumption. congruence.
Qed.

(** ** More on the foreign master table *)

Lemma fc_prune_excess_split (q : list ptp_message) :
  forall n q' n',
    fc_prune_excess q n = Some (q', n') -> exists old, q = old ++ q'.
Proof.
  induction q as [|x q IH]; intros n q' n' H; cbn [fc_prune_excess] in H.
  - destruct (n >? _); [discriminate|]. injection H as <- _. now exists [].
  - destruct (n >? _).
    + apply IH in H as [old ->]. now exists (x :: old).
    + injection H as <- _. now exists [].
Qed.

Lemma fc_prune_stale_split (now : timespec) (q : list ptp_message) :
  forall n q' n',
    fc_prune_stale now q n = (q', n') -> exists old, q = old ++ q'.
Proof.
  induction q as [|x q IH]; intros n q' n' H; cbn [fc_prune_stale] in H.
  - injection H as <- _. now exists [].
  - destruct (msg_current x now).
    + injection H as <- _. now exists [].
    + apply IH in H as [old ->]. now exists (x :: old).
Qed.

Lemma fc_prune_inv (now : timespec) (fc fc1 : foreign_clock) :
  fc_prune now fc = Some fc1 ->
  fc_dataset fc1 = fc_dataset fc /\
  exists old, messages fc = messages fc1 ++ old.
Proof.
  unfold fc_prune. intros H. bind_inv H. destruct x as [q1 n1].
  destruct (fc_prune_stale now q1 n1) as [q2 n2] eqn:Hstale.
  injection H as <-. split; [reflexivity|]. cbn.
  apply fc_prune_excess_split in Hx as [old1 H1].
  apply fc_prune_stale_split in Hstale as [old2 ->].
  exists (rev old2 ++ rev old1).
  rewrite <- (rev_involutive (messages fc)), H1.
  now rewrite !rev_app_distr, app_assoc.
Qed.

Lemma fc_add_inv (fc fc2 : foreign_clock) (m : ptp_message) (d : Z) :
  fc_add fc m = Some (fc2, d) ->
  fc_dataset fc2 = fc_dataset fc /\ messages fc2 = m :: messages fc.
Proof.
  unfold fc_add. intros H.
  destruct (_ >? 1); [destruct (messages fc) eqn:Hq; [discriminate|]|];
    injection H as <- _; cbn; rewrite ?Hq; auto.
Qed.

Lemma fc_clear_inv (fc fc' : foreign_clock) :
  fc_clear fc = Some fc' ->
  fc_dataset fc' = fc_dataset fc /\
  exists old, messages fc = messages fc' ++ old.
Proof.
  unfold fc_clear. intros H. bind_inv H. destruct x as [q n].
  injection H as <-. split; [reflexivity|]. cbn.
  assert (Hsplit : exists old, rev (messages fc) = old ++ q).
  { clear -Hx. revert Hx. generalize (n_messages fc).
    induction (rev (messages fc)) as [|x l IH]; intros k H;
      cbn [fc_clear_loop] in H.
    - destruct (k =? 0); [|discriminate]. injection H as <- _. now exists [].
    - destruct (k =? 0).
      + injection H as <- _. now exists [].
      + apply IH in H as [old ->]. now exists (x :: old). }
  destruct Hsplit as [old Hsplit]. exists (rev old).
  now rewrite <- (rev_involutive (messages fc)), Hsplit, rev_app_distr.
Qed.

Lemma msg_source_equal_dataset (m : ptp_message) (fc fc' : foreign_clock) :
  PortIdentity_octets (sender (fc_dataset fc'))
    = PortIdentity_octets (sender (fc_dataset fc)) ->
  msg_source_equal m fc' = msg_source_equal m fc.
Proof.
  intros H. unfold msg_source_equal, pid_eq. now rewrite H.
Qed.

Lemma queue_from_sender_cut (fc fc' : foreign_clock) :
  PortIdentity_octets (sender (fc_dataset fc'))
    = PortIdentity_octets (sender (fc_dataset fc)) ->
  (exists old, messages fc = messages fc' ++ old) ->
  queue_from_sender fc ->
  queue_from_sender fc'.
Proof.
  unfold queue_from_sender. intros Hs [old Hq] H.
  rewrite Hq in H. apply Forall_app in H as [H _].
  eapply Forall_impl; [exact H|]. intros m Hm. cbn in Hm.
  now rewrite (msg_source_equal_dataset m fc fc' Hs).
Qed.

(** The record in which [add_foreign_master] and [update_current_master]
    put the message. *)
Lemma queue_from_sender_added (now : timespec) (fc fc1 fc2 : foreign_clock)
    (m : ptp_message) (d : Z) :
  queue_from_sender fc ->
  msg_source_equal m fc = true ->
  fc_prune now fc = Some fc1 ->
  fc_add fc1 m = Some (fc2, d) ->
  queue_from_sender fc2 /\ fc_dataset fc2 = fc_dataset fc.
Proof.
  intros Hq Hm Hprune Hadd.
  apply fc_prune_inv in Hprune as [Hd1 Hcut].
  apply fc_add_inv in Hadd as [Hd2 Hq2].
  assert (Hd : fc_dataset fc2 = fc_dataset fc) by congruence.
  split; [|exact Hd].
  assert (Hq1 : queue_from_sender fc1).
  { eapply queue_from_sender_cut; [|exact Hcut|exact Hq]. now rewrite Hd1. }
  unfold queue_from_sender in *. rewrite Hq2. constructor.
  - rewrite (msg_source_equal_dataset m fc fc2); [exact Hm | now rewrite Hd].
  - eapply Forall_impl; [exact Hq1|]. intros m' Hm'. cbn in Hm'.
    rewrite (msg_source_equal_dataset m' fc1 fc2); [exact Hm'|].
    now rewrite Hd2.
Qed.

Lemma distinct_senders_insert (l : list foreign_clock) (i : nat)
    (fc fc' : foreign_clock) :
  distinct_senders l ->
  l !! i = Some fc ->
  fc_dataset fc' = fc_dataset fc ->
  distinct_senders (<[i := fc']> l).
Proof.
  intros Hd Hi Hds a b fa fb Ha Hb Heq.
  apply list_lookup_insert_Some in Ha as [(-> & <- & _) | (Hai & Ha)];
    apply list_lookup_insert_Some in Hb as [(-> & <- & _) | (Hbi & Hb)];
    try reflexivity.
  - rewrite Hds in Heq. eapply Hd; eassumption.
  - rewrite Hds in Heq. eapply Hd; eassumption.
  - eapply Hd; eassumption.
Qed.

(** X7: [add_foreign_master] keeps one record per sender: it adds a record
    only for a source that has none, and otherwise leaves the number of
    records and their senders as they are; and the message is only ever
    queued in the record of its own source. *)
Theorem add_foreign_master_one_record_per_sender (w : world) (p p' : port)
    (m : ptp_message) (r : Z) :
  distinct_senders (foreign_masters p) ->
  Forall queue_from_sender (foreign_masters p) ->
  add_foreign_master w p m = Some (p', r) ->
  distinct_senders (foreign_masters p') /\
  Forall queue_from_sender (foreign_masters p') /\
  (length (foreign_masters p') = length (foreign_masters p) \/
   Forall (fun fc => msg_source_equal m fc = false) (foreign_masters p) /\
   foreign_masters p' = new_foreign_clock m :: foreign_masters p).
Proof.
  intros Hd Hq H. unfold add_foreign_master in H.
  destruct (list_find _ _) as [[i fc]|] eqn:Hfind.
  - apply list_find_Some in Hfind as (Hi & Hm & _).
    bind_inv H. bind_inv H. destruct x0 as [fc2 d]. injection H as <- _.
    cbn.
    destruct (queue_from_sender_added (w_now w) fc x fc2 m d) as [Hq2 Hd2];
      try assumption; [eapply Forall_lookup_1; eassumption|].
    split; [eapply distinct_senders_insert; eassumption|].
    split; [now apply Forall_insert|].
    left. apply length_insert.
  - apply list_find_None in Hfind.
    assert (Hnone : Forall (fun fc => msg_source_equal m fc = false)
                      (foreign_masters p)).
    { eapply Forall_impl; [exact Hfind|]. intros fc Hfc. cbn in Hfc.
      now destruct (msg_source_equal m fc). }
    destruct (w_malloc w); injection H as <- _; [|auto]. cbn.
    split; [|split; [constructor; [constructor | assumption] | auto]].
    intros a b fa fb Ha Hb Heq.
    destruct a as [|a], b as [|b]; cbn in Ha, Hb; try reflexivity.
    + exfalso. injection Ha as <-. cbn in Heq.
      pose proof (Forall_lookup_1 _ _ _ _ Hnone Hb) as Hfb. cbn in Hfb.
      unfold msg_source_equal in Hfb.
      apply pid_eq_octets in Heq. congruence.
    + exfalso. injection Hb as <-. cbn in Heq. symmetry in Heq.
      pose proof (Forall_lookup_1 _ _ _ _ Hnone Ha) as Hfa. cbn in Hfa.
      unfold msg_source_equal in Hfa.
      apply pid_eq_octets in Heq. congruence.
    + f_equal. eapply Hd; eassumption.
Qed.

(** ** More on the selection of the best foreign master *)

Lemma visited_refl (w : world) (fc : foreign_clock) : visited w fc fc.
Proof. split; [exists []; now rewrite app_nil_r | now left]. Qed.

Lemma port_compute_best_loop_visits (clock_gettime : nat -> timespec)
    (w : world) (todo : list foreign_clock) :
  forall (done done' : list foreign_clock) (b b' : option nat),
    port_compute_best_loop clock_gettime w done b todo = Some (done', b') ->
    exists ext, done' = done ++ ext /\ Forall2 (visited w) todo ext.
Proof.
  induction todo as [|fc rest IH]; intros done done' b b' H.
  - injection H as <- _. exists []. rewrite app_nil_r. now split.
  - assert (Hnext : forall fc' c,
               visited w fc fc' ->
               port_compute_best_loop clock_gettime w (done ++ [fc']) c rest
                 = Some (done', b') ->
               exists ext,
                 done' = done ++ ext /\ Forall2 (visited w) (fc :: rest) ext).
    { intros fc' c Hv Hrun. apply IH in Hrun as (ext & -> & Hall).
      exists (fc' :: ext). rewrite <- app_assoc. split; [reflexivity|].
      now constructor. }
    cbn [port_compute_best_loop] in H.
    destruct (messages fc) as [|tmp q] eqn:Hq;
      [eapply Hnext; [apply visited_refl | exact H]|].
    bind_inv H. pose proof (fc_prune_inv _ _ _ Hx) as [Hd1 Hcut1].
    assert (Hv1 : visited w fc x) by (split; [assumption | now left]).
    assert (Hv2 : visited w fc
                    (fc_with_dataset x (announce_to_dataset tmp w))).
    { split; [exact Hcut1|]. right. exists tmp. rewrite Hq. now split. }
    destruct (_ <? _); [eauto|].
    destruct (messages x) eqn:Hq1; [discriminate|].
    destruct b as [i|]; [|eauto].
    bind_inv H.
    destruct (_ >? _); [eauto|].
    bind_inv H. eapply Hnext; [|exact H].
    apply fc_clear_inv in Hx1 as [Hd3 [old3 Hcut3]].
    destruct Hv2 as [[old1 Hc1] _].
    split.
    + exists (old3 ++ old1). now rewrite Hc1, Hcut3, app_assoc.
    + right. exists tmp. rewrite Hq. split; [reflexivity|].
      now rewrite Hd3.
Qed.

(** X8: [port_compute_best] writes nothing but [best] and the table; in the
    table every record stays at its place, its queue is only cut at the
    tail, and its data set is either kept or taken from its newest
    message. *)
Theorem port_compute_best_only_cuts (clock_gettime : nat -> timespec)
    (w : world) (p p' : port) (b : option nat) :
  port_compute_best clock_gettime w p = Some (p', b) ->
  p' = port_with_table p b (foreign_masters p') /\
  Forall2 (visited w) (foreign_masters p) (foreign_masters p').
Proof.
  unfold port_compute_best. intros H. bind_inv H. destruct x as [l c].
  injection H as <- <-. split; [reflexivity|]. cbn.
  apply port_compute_best_loop_visits in Hx as (ext & -> & Hall).
  exact Hall.
Qed.

(** X9: when every queued message comes from the sender of its record,
    [port_compute_best] leaves the sender of every record byte-wise as it
    was, so that the table still has one record per sender and every
    queue still belongs to the sender of its record. *)
Theorem port_compute_best_keeps_senders (clock_gettime : nat -> timespec)
    (w : world) (p p' : port) (b : option nat) :
  distinct_senders (foreign_masters p) ->
  Forall queue_from_sender (foreign_masters p) ->
  port_compute_best clock_gettime w p = Some (p', b) ->
  distinct_senders (foreign_masters p') /\
  Forall queue_from_sender (foreign_masters p') /\
  Forall2 (fun fc fc' =>
             PortIdentity_octets (sender (fc_dataset fc'))
               = PortIdentity_octets (sender (fc_dataset fc)))
          (foreign_masters p) (foreign_masters p').
Proof.
  intros Hd Hq H.
  assert (Hall : Forall2 (visited w) (foreign_masters p)
                   (foreign_masters p')).
  { unfold port_compute_best in H. bind_inv H. destruct x as [l c].
    injection H as <- _. cbn.
    apply port_compute_best_loop_visits in Hx as (ext & -> & Hall).
    exact Hall. }
  assert (Hkeep : Forall2 (fun fc fc' =>
                     PortIdentity_octets (sender (fc_dataset fc'))
                       = PortIdentity_octets (sender (fc_dataset fc)) /\
                     queue_from_sender fc')
                    (foreign_masters p) (foreign_masters p')).
  { apply Forall2_same_length_lookup_2; [eapply Forall2_length; eassumption|].
    intros k fc fc' Hk Hk'.
    pose proof (Forall2_lookup_lr _ _ _ _ _ _ Hall Hk Hk') as [Hcut Hds].
    pose proof (Forall_lookup_1 _ _ _ _ Hq Hk) as Hqk.
    assert (Hs : PortIdentity_octets (sender (fc_dataset fc'))
                 = PortIdentity_octets (sender (fc_dataset fc))).
    { destruct Hds as [-> | (tmp & Htmp & ->)]; [reflexivity|]. cbn.
      destruct (messages fc) as [|m0 q0] eqn:Hq0; [discriminate|].
      injection Htmp as ->. unfold queue_from_sender in Hqk.
      rewrite Hq0 in Hqk. apply Forall_cons in Hqk as [Hm _].
      now apply pid_eq_octets in Hm. }
    split; [exact Hs|]. eapply queue_from_sender_cut; eassumption. }
  split; [|split].
  - intros i j fi fj Hi Hj Heq.
    destruct (Forall2_lookup_r _ _ _ _ _ Hkeep Hi) as (gi & Hgi & Hsi & _).
    destruct (Forall2_lookup_r _ _ _ _ _ Hkeep Hj) as (gj & Hgj & Hsj & _).
    eapply Hd; [exact Hgi | exact Hgj | congruence].
  - apply Forall_lookup. intros k fc' Hk'.
    destruct (Forall2_lookup_r _ _ _ _ _ Hkeep Hk') as (g & _ & _ & Hg).
    exact Hg.
  - eapply Forall2_impl; [exact Hkeep|]. intros fc fc' [Hs _]. exact Hs.
Qed.

Lemma port_compute_best_loop_best (clock_gettime : nat -> timespec)
    (w : world) (todo : list foreign_clock) :
  forall (l0 done done' : list foreign_clock) (b b' : option nat),
    length done = length l0 ->
    best_dataset_invariant w l0 done b ->
    port_compute_best_loop clock_gettime w done b todo = Some (done', b') ->
    best_dataset_invariant w (l0 ++ todo) done' b'.
Proof.
  induction todo as [|fc rest IH]; intros l0 done done' b b' Hlen Hinv H.
  - injection H as <- <-. now rewrite app_nil_r.
  - assert (Hkeep : forall fc',
               best_dataset_invariant w (l0 ++ [fc]) (done ++ [fc']) b).
    { intros fc'. destruct b as [i|]; [|exact I].
      destruct Hinv as (fc0 & fb & d & H0 & Hd & Hfb & Hds).
      exists fc0, fb, d. repeat split; try assumption;
        now apply lookup_app_l_Some. }
    assert (Hnew : forall tmp q fc',
               messages fc = tmp :: q ->
               fc_dataset fc' = announce_to_dataset tmp w ->
               best_dataset_invariant w (l0 ++ [fc]) (done ++ [fc'])
                 (Some (length done))).
    { intros tmp q fc' Hq Hds. exists fc, fc', (announce_to_dataset tmp w).
      repeat split.
      - rewrite Hlen. apply list_lookup_middle. reflexivity.
      - unfold candidate. now rewrite Hq.
      - apply list_lookup_middle. reflexivity.
      - exact Hds. }
    assert (Hnext : forall fc' c,
               best_dataset_invariant w (l0 ++ [fc]) (done ++ [fc']) c ->
               port_compute_best_loop clock_gettime w (done ++ [fc']) c rest
                 = Some (done', b') ->
               best_dataset_invariant w (l0 ++ fc :: rest) done' b').
    { intros fc' c Hc Hrun. rewrite (cons_middle fc l0 rest), app_assoc.
      eapply IH; [|exact Hc|exact Hrun]. rewrite !length_app. cbn. lia. }
    cbn [port_compute_best_loop] in H.
    destruct (messages fc) as [|tmp q] eqn:Hq;
      [eapply Hnext; [apply Hkeep | exact H]|].
    bind_inv H.
    destruct (_ <? _); [eapply Hnext; [apply Hkeep | exact H]|].
    destruct (messages x); [discriminate|].
    destruct b as [i|];
      [|eapply Hnext; [|exact H]; apply (Hnew tmp q); reflexivity].
    bind_inv H.
    destruct (_ >? _);
      [eapply Hnext; [|exact H]; apply (Hnew tmp q); reflexivity|].
    bind_inv H. eapply Hnext; [apply Hkeep | exact H].
Qed.

(** X10: after [port_compute_best], [port_best_foreign] yields the data set
    made from the newest message that the selected record held before
    the call, and nothing when no record was selected. *)
Theorem port_best_foreign_after_selection (clock_gettime : nat -> timespec)
    (w : world) (p p' : port) (b : option nat) :
  port_compute_best clock_gettime w p = Some (p', b) ->
  port_best_foreign p' =
    (i ← b; fc0 ← foreign_masters p !! i; candidate w fc0).
Proof.
  unfold port_compute_best. intros H. bind_inv H. destruct x as [l c].
  injection H as <- <-.
  apply (port_compute_best_loop_best clock_gettime w (foreign_masters p)
           [] [] l None c eq_refl I) in Hx.
  unfold port_best_foreign. cbn.
  destruct c as [i|]; [|reflexivity].
  destruct Hx as (fc0 & fb & d & H0 & Hd & Hfb & Hds). cbn in H0.
  cbn. rewrite Hfb, H0. cbn. now rewrite Hd, Hds.
Qed.

(** ** Delay requests *)

(** X11: every Delay_Req for which a buffer is allocated takes the next
    sequence id, modulo 2^16, whether or not it is then sent: two
    requests in a row never carry the same id. *)
Theorem port_delay_request_sequence (w1 w2 : world) (p : port) :
  w_tx_allocate w1 = true ->
  w_tx_allocate w2 = true ->
  0 <= seqnum p < 2 ^ 16 ->
  let p1 := snd (fst (port_delay_request w1 p)) in
  let first := delay_req_build w1 p in
  let second := delay_req_build w2 p1 in
  head (snd (port_delay_request w1 p)) = Some (msg_pre_send first) /\
  head (snd (port_delay_request w2 p1)) = Some (msg_pre_send second) /\
  sequenceId (header first) = seqnum p /\
  sequenceId (header second) = to_u16 (seqnum p + 1) /\
  sequenceId (header second) <> sequenceId (header first) /\
  0 <= seqnum p1 < 2 ^ 16.
Proof.
  intros H1 H2 Hs p1 first second.
  assert (Hhead : forall w q, w_tx_allocate w = true ->
            head (snd (port_delay_request w q))
              = Some (msg_pre_send (delay_req_build w q))
            /\ seqnum (snd (fst (port_delay_request w q)))
               = to_u16 (seqnum q + 1)).
  { intros w q Ha. unfold port_delay_request. rewrite Ha. cbn.
    destruct (w_pre_send w (delay_req_build w q)) as [rc msg1].
    destruct (negb (rc =? 0)); [split; reflexivity|].
    destruct (w_send w) as [n egress].
    destruct (n <=? 0); split; reflexivity. }
  destruct (Hhead w1 p H1) as [Hh1 Hseq1].
  destruct (Hhead w2 p1 H2) as [Hh2 _].
  fold p1 in Hseq1.
  assert (Hsecond : sequenceId (header second) = to_u16 (seqnum p + 1)).
  { unfold second. cbn. exact Hseq1. }
  repeat split; try assumption.
  - rewrite Hsecond. unfold first. cbn. unfold to_u16.
    change (2 ^ 16) with 65536 in *.
    destruct (Z.eq_dec (seqnum p) 65535) as [-> | Hne]; [discriminate|].
    rewrite Z.mod_small by lia. lia.
  - rewrite Hseq1. unfold to_u16. apply Z.mod_pos_bound. lia.
  - rewrite Hseq1. unfold to_u16. apply Z.mod_pos_bound. lia.
Qed.

(** X12: the egress time stamp that the transport reported for the Delay_Req
    is the one handed to [clock_path_delay] when the matching Delay_Resp
    arrives. *)
Theorem delay_round_trip (w w' : world) (p p1 : port) (tr : list call)
    (m : ptp_message) :
  port_delay_request w p = (0, p1, tr) ->
  delay_resp_matches p1 m ->
  snd (process_delay_resp w' p1 m) =
    [clock_path_delay (hwts_ts (snd (w_send w))) (ts_pdu m)
       (correction (header m))].
Proof.
  intros Hreq Hm.
  pose proof (port_delay_request_delay_req w p) as Hd.
  rewrite Hreq in Hd. destruct Hd as [_ Hok].
  destruct (Hok eq_refl) as [_ Hstored].
  rewrite (process_delay_resp_matching w' p1 m _ Hstored Hm).
  reflexivity.
Qed.

(** ** Initialization and dispatch *)

(** X13: [port_initialize] succeeds exactly when both timers are created, the
    transport opens and the announce receipt timer is armed; it then
    leaves the two timers at their places after the descriptors of the
    transport, armed for 3 * 2^1 seconds, and hands the descriptors to
    the clock last.  The defaults of the port data set are stored in
    every case. *)
Theorem port_initialize_result (w : world) (p : port) :
  let rc := fst (fst (port_initialize w p)) in
  let p' := snd (fst (port_initialize w p)) in
  let tr := snd (port_initialize w p) in
  (rc = 0 \/ rc = -1) /\
  (rc = 0 <->
   0 <= w_timerfd_create1 w /\ 0 <= w_timerfd_create2 w /\
   fst (w_transport_open w) = 0 /\ w_timerfd_settime w = 0) /\
  (rc = 0 ->
   fda p' = fda_with_timers (snd (w_transport_open w))
              (w_timerfd_create1 w) (w_timerfd_create2 w) /\
   fd (fda p') FD_ANNOUNCE_TIMER = w_timerfd_create1 w /\
   fd (fda p') FD_DELAY_TIMER = w_timerfd_create2 w /\
   In (timerfd_settime (w_timerfd_create1 w) 6) tr /\
   last tr = Some (clock_install_fda (fda p'))) /\
  logMinDelayReqInterval p' = LOG_MIN_DELAY_REQ_INTERVAL /\
  logAnnounceInterval p' = LOG_ANNOUNCE_INTERVAL /\
  announceReceiptTimeout p' = ANNOUNCE_RECEIPT_TIMEOUT /\
  logSyncInterval p' = LOG_SYNC_INTERVAL /\
  logMinPdelayReqInterval p' = LOG_MIN_PDELAY_REQ_INTERVAL /\
  peerMeanPathDelay p' = 0.
Proof.
  unfold port_initialize, port_set_announce_tmo.
  destruct (Z.ltb_spec (w_timerfd_create1 w) 0);
    [cbn; repeat split; auto; try lia; try discriminate|].
  destruct (Z.ltb_spec (w_timerfd_create2 w) 0);
    [cbn; repeat split; auto; try lia; try discriminate|].
  destruct (w_transport_open w) as [rc f]. cbn [fst snd].
  destruct (Z.eqb_spec rc 0);
    [|cbn; repeat split; auto; try lia; try discriminate].
  cbn [negb].
  destruct (Z.eqb_spec (w_timerfd_settime w) 0);
    [|cbn; repeat split; auto; try lia; try discriminate].
  cbn. repeat split; auto; try lia.
Qed.

(** X14: when [port_initialize] fails it hands nothing to the clock and closes
    every timer descriptor that it had created, the first one last; the
    transport is closed only when it had been opened. *)
Theorem port_initialize_unwinds (w : world) (p : port) :
  fst (fst (port_initialize w p)) <> 0 ->
  let tr := snd (port_initialize w p) in
  (forall f, ~ In (clock_install_fda f) tr) /\
  (0 <= w_timerfd_create1 w ->
   last tr = Some (sys_close (w_timerfd_create1 w))) /\
  (0 <= w_timerfd_create1 w -> 0 <= w_timerfd_create2 w ->
   In (sys_close (w_timerfd_create2 w)) tr) /\
  (forall f, In (transport_close f) tr ->
             fst (w_transport_open w) = 0 /\ w_timerfd_settime w <> 0) /\
  (w_timerfd_create1 w < 0 -> tr = [timerfd_create]).
Proof.
  unfold port_initialize, port_set_announce_tmo.
  destruct (Z.ltb_spec (w_timerfd_create1 w) 0);
    [cbn; intuition (discriminate || lia || auto)|].
  destruct (Z.ltb_spec (w_timerfd_create2 w) 0);
    [cbn; intuition (discriminate || lia || auto)|].
  destruct (w_transport_open w) as [rc f0]. cbn [fst snd].
  destruct (Z.eqb_spec rc 0) as [-> | Hrc]; cbn [negb];
    [|cbn; intuition (discriminate || lia || auto)].
  destruct (Z.eqb_spec (w_timerfd_settime w) 0) as [Hset | Hset];
    cbn [negb fst snd]; [intros Hrc; now contradiction Hrc|].
  cbn. intuition (discriminate || lia || auto).
Qed.

(** X15: after a successful [port_initialize], [port_close] closes the
    transport and the two timer descriptors that were created. *)
Theorem port_close_after_initialize (w : world) (p : port) :
  fst (fst (port_initialize w p)) = 0 ->
  let p' := snd (fst (port_initialize w p)) in
  port_close p' =
    [transport_close (fda p');
     sys_close (w_timerfd_create1 w);
     sys_close (w_timerfd_create2 w)].
Proof.
  intros Hrc p'. subst p'. revert Hrc.
  unfold port_close, port_initialize, port_set_announce_tmo.
  destruct (w_timerfd_create1 w <? 0); [discriminate|].
  destruct (w_timerfd_create2 w <? 0); [discriminate|].
  destruct (w_transport_open w) as [rc f].
  destruct (negb (rc =? 0)); [discriminate|].
  destruct (negb (w_timerfd_settime w =? 0)); [discriminate|].
  reflexivity.
Qed.

(** X16: [port_dispatch] leaves the table, the best record, the remembered
    messages, the sequence number and the identity of the port alone. *)
Theorem port_dispatch_frame (w : world) (p : port) (event : fsm_event) :
  let p' := fst (port_dispatch w p event) in
  foreign_masters p' = foreign_masters p /\
  best p' = best p /\
  last_sync p' = last_sync p /\
  last_follow_up p' = last_follow_up p /\
  delay_req p' = delay_req p /\
  seqnum p' = seqnum p /\
  portIdentity p' = portIdentity p.
Proof.
  unfold port_dispatch.
  destruct (decide (PS_INITIALIZING = ptp_fsm (state p) event)).
  - unfold port_initialize, port_set_announce_tmo.
    repeat case_match; simplify_eq; cbn; repeat split; reflexivity.
  - destruct (decide (ptp_fsm (state p) event = state p));
      cbn; repeat split; reflexivity.
Qed.

(** On a change to a state other than INITIALIZING, [port_dispatch]
    writes both timers, the announce receipt timer first: it arms the
    announce receipt timer for LISTENING, PASSIVE, UNCALIBRATED and SLAVE
    and the delay request timer for UNCALIBRATED and SLAVE, and clears
    them for every other state; only the state of the port changes. *)
Lemma port_dispatch_timers (w : world) (p : port) (event : fsm_event) :
  let next := ptp_fsm (state p) event in
  next <> PS_INITIALIZING ->
  next <> state p ->
  port_dispatch w p event =
    (port_with_state p next,
     [timerfd_settime (fd (fda p) FD_ANNOUNCE_TIMER)
        (if announce_timer_armed next
         then announceReceiptTimeout p * Z.shiftl 1 (logAnnounceInterval p)
         else 0);
      timerfd_settime (fd (fda p) FD_DELAY_TIMER)
        (if delay_timer_armed next
         then Z.shiftl 1 (logMinDelayReqInterval p + 1)
         else 0)]).
Proof.
  intros next Hinit Hsame. unfold port_dispatch. fold next.
  destruct (decide (PS_INITIALIZING = next)); [congruence|].
  destruct (decide (next = state p)); [congruence|].
  unfold port_clr_tmo, port_set_announce_tmo, port_set_delay_tmo.
  destruct next; try congruence; reflexivity.
Qed.

(** ** More on the event dispatcher *)

(** The ways through [port_event] on a network descriptor. *)
Lemma port_event_receive_inv (w : world) (p p' : port) (i : fd_index)
    (ev : fsm_event) (tr : list call) :
  i = FD_EVENT \/ i = FD_GENERAL ->
  port_event w p i = Some (ev, p', tr) ->
  (w_rx_allocate w = false /\ ev = EV_FAULT_DETECTED /\ p' = p /\ tr = []) \/
  (w_rx_allocate w = true /\ w_recv w <= 0 /\
   ev = EV_FAULT_DETECTED /\ p' = p /\
   tr = [transport_recv (fd (fda p) i)]) \/
  (w_rx_allocate w = true /\ 0 < w_recv w /\ w_post_recv w <> 0 /\
   ev = EV_NONE /\ p' = p /\ tr = [transport_recv (fd (fda p) i)]) \/
  (w_rx_allocate w = true /\ 0 < w_recv w /\ w_post_recv w = 0 /\
   exists t, tr = transport_recv (fd (fda p) i) :: t /\
             dispatched w p (w_rx_message w) ev p' t).
Proof.
  intros Hi H. unfold dispatched.
  destruct Hi as [-> | ->]; unfold port_event in H;
    (destruct (w_rx_allocate w); cbn [negb] in H;
       [|injection H as <- <- <-; auto]);
    cbv zeta in H;
    (destruct (Z.leb_spec (w_recv w) 0);
       [injection H as <- <- <-; auto 10|]);
    (destruct (Z.eqb_spec (w_post_recv w) 0); cbn [negb] in H;
       [|injection H as <- <- <-; auto 10]);
    do 3 right; (do 3 (split; [assumption || reflexivity|]));
    (destruct (msg_type (w_rx_message w));
       try (injection H as <- <- <-; eexists; split; [reflexivity|];
            auto; fail)).
  all: try (destruct (process_delay_req w p (w_rx_message w)) as [rc t];
            injection H as <- <- <-; eexists; split; [reflexivity|];
            auto; fail).
  all: try (destruct (process_sync w p (w_rx_message w)) as [p1 t];
            injection H as <- <- <-; eexists; split; [reflexivity|];
            auto; fail).
  all: try (destruct (process_follow_up w p (w_rx_message w)) as [p1 t];
            injection H as <- <- <-; eexists; split; [reflexivity|];
            auto; fail).
  all: try (destruct (process_delay_resp w p (w_rx_message w)) as [p1 t];
            injection H as <- <- <-; eexists; split; [reflexivity|];
            auto; fail).
  all: bind_inv H; destruct x as [[p1 r] t]; injection H as <- <- <-;
    eexists; split; [reflexivity|]; exists r; split; [assumption|];
    now destruct (r =? 0).
Qed.

Lemma process_sync_calls (w : world) (p : port) (m : ptp_message)
    (c : call) :
  In c (snd (process_sync w p m)) ->
  slave_side p /\ from_parent w m /\
  exists origin c2,
    c = clock_synchronize (hwts_ts (hwts m)) origin (correction (header m)) c2.
Proof.
  unfold process_sync, from_parent, slave_side. intros H.
  destruct (Z.eqb_spec
              (memcmp (PortIdentity_octets (w_parent_identity w))
                 (PortIdentity_octets (sourcePortIdentity (header m)))) 0)
    as [Hpar | Hpar]; cbn [negb] in H;
    [|destruct (state p); destruct H].
  assert (Hst : state p = PS_UNCALIBRATED \/ state p = PS_SLAVE)
    by (destruct (state p); try destruct H; auto).
  split; [exact Hst|]. split; [exact Hpar|].
  assert (Hbody : In c (snd (
      if one_step m then
        (p, [clock_synchronize (hwts_ts (hwts m)) (ts_pdu m)
               (correction (header m)) 0])
      else
        match last_follow_up p with
        | None => (port_with_last_sync p (Some m), [])
        | Some fup =>
            if sequenceId (header fup) =? sequenceId (header m) then
              (p, [clock_synchronize (hwts_ts (hwts m)) (ts_pdu fup)
                     (correction (header m)) (correction (header fup))])
            else (port_with_last_sync p (Some m), [])
        end))).
  { destruct Hst as [Hs | Hs]; rewrite Hs in H; exact H. }
  clear H. destruct (one_step m).
  - destruct Hbody as [<- | []]. eauto.
  - destruct (last_follow_up p) as [fup|]; [|destruct Hbody].
    destruct (_ =? _); [|destruct Hbody].
    destruct Hbody as [<- | []]. eauto.
Qed.

Lemma process_follow_up_calls (w : world) (p : port) (m : ptp_message)
    (c : call) :
  In c (snd (process_follow_up w p m)) ->
  slave_side p /\ from_parent w m /\
  exists ingress c1,
    c = clock_synchronize ingress (ts_pdu m) c1 (correction (header m)).
Proof.
  unfold process_follow_up, from_parent, slave_side. intros H.
  destruct (Z.eqb_spec
              (memcmp (PortIdentity_octets (w_parent_identity w))
                 (PortIdentity_octets (sourcePortIdentity (header m)))) 0)
    as [Hpar | Hpar]; cbn [negb] in H;
    [|destruct (state p); destruct H].
  assert (Hst : state p = PS_UNCALIBRATED \/ state p = PS_SLAVE)
    by (destruct (state p); try destruct H; auto).
  split; [exact Hst|]. split; [exact Hpar|].
  assert (Hbody : In c (snd (
      match last_sync p with
      | None => (port_with_last_follow_up p (Some m), [])
      | Some syn =>
          if negb (sequenceId (header syn) =? sequenceId (header m))
          then (port_with_last_follow_up p (Some m), [])
          else if negb (memcmp
                          (PortIdentity_octets
                             (sourcePortIdentity (header syn)))
                          (PortIdentity_octets
                             (sourcePortIdentity (header m))) =? 0)
          then (p, [])
          else (p, [clock_synchronize (hwts_ts (hwts syn)) (ts_pdu m)
                      (correction (header syn)) (correction (header m))])
      end))).
  { destruct Hst as [Hs | Hs]; rewrite Hs in H; exact H. }
  clear H. destruct (last_sync p) as [syn|]; [|destruct Hbody].
  destruct (negb (_ =? _)); [destruct Hbody|].
  destruct (negb (_ =? 0)); [destruct Hbody|].
  destruct Hbody as [<- | []]. eauto.
Qed.

Lemma process_delay_resp_calls (w : world) (p : port) (m : ptp_message)
    (c : call) :
  In c (snd (process_delay_resp w p m)) ->
  delay_resp_matches p m /\
  exists t3, c = clock_path_delay t3 (ts_pdu m) (correction (header m)).
Proof.
  intros H. destruct (delay_resp_matches_dec p m) as [Hm | Hm].
  - split; [exact Hm|]. pose proof Hm as (req & Hreq & _).
    rewrite (process_delay_resp_matching w p m req Hreq Hm) in H.
    destruct H as [<- | []]. eauto.
  - rewrite (process_delay_resp_ignored w p m Hm) in H. destruct H.
Qed.

Lemma process_delay_req_calls (w : world) (p : port) (m : ptp_message)
    (c : call) :
  In c (snd (process_delay_req w p m)) ->
  master_side p /\
  (c = msg_pre_send (delay_resp_build p m) \/
   c = transport_send 0 (snd (w_pre_send w (delay_resp_build p m)))
         sizeof_delay_resp_msg).
Proof.
  unfold process_delay_req, master_side. intros H.
  destruct (decide (state p = PS_MASTER)) as [Hm | Hm];
    destruct (decide (state p = PS_GRAND_MASTER)) as [Hg | Hg];
    rewrite ?(bool_decide_eq_true_2 _ Hm), ?(bool_decide_eq_false_2 _ Hm),
      ?(bool_decide_eq_true_2 _ Hg), ?(bool_decide_eq_false_2 _ Hg) in H;
    cbn [negb andb] in H; try (destruct H; fail);
    (split; [auto|]);
    (destruct (w_tx_allocate w); cbn [negb] in H; [|destruct H]);
    destruct (w_pre_send w (delay_resp_build p m)) as [rc msg1];
    (destruct (negb (rc =? 0));
       [destruct H as [<- | []]; auto|]);
    destruct (w_send w) as [n egress];
    destruct H as [<- | [<- | []]]; auto.
Qed.

Lemma add_foreign_master_queued (w : world) (p p' : port)
    (m : ptp_message) (r : Z) :
  add_foreign_master w p m = Some (p', r) ->
  r <> 0 ->
  exists k fc,
    foreign_masters p' !! k = Some fc /\
    head (messages fc) = Some m /\
    msg_source_equal m fc = true.
Proof.
  unfold add_foreign_master. intros H Hr.
  destruct (list_find _ _) as [[i fc]|] eqn:Hfind.
  - apply list_find_Some in Hfind as (Hi & Hm & _).
    bind_inv H. bind_inv H. destruct x0 as [fc2 d]. injection H as <- _.
    apply fc_prune_inv in Hx as [Hd1 _].
    apply fc_add_inv in Hx0 as [Hd2 Hq2].
    exists i, fc2. cbn. repeat split.
    + apply list_lookup_insert_eq. eapply lookup_lt_Some; eassumption.
    + now rewrite Hq2.
    + rewrite (msg_source_equal_dataset m fc fc2); [exact Hm|]. congruence.
  - destruct (w_malloc w); injection H as _ <-; now contradiction Hr.
Qed.

Lemma update_current_master_inv (w : world) (p p' : port)
    (m : ptp_message) (r : Z) (tr : list call) :
  update_current_master w p m = Some (p', r, tr) ->
  exists i fc,
    best p = Some i /\
    foreign_masters p !! i = Some fc /\
    if msg_source_equal m fc
    then tr = [timerfd_settime (fd (fda p) FD_ANNOUNCE_TIMER)
                 (announceReceiptTimeout p
                  * Z.shiftl 1 (logAnnounceInterval p))] /\
         best p' = best p /\
         exists fc2,
           foreign_masters p' = <[i := fc2]> (foreign_masters p) /\
           head (messages fc2) = Some m /\
           fc_dataset fc2 = fc_dataset fc
    else tr = [] /\ add_foreign_master w p m = Some (p', r).
Proof.
  unfold update_current_master. intros H.
  bind_inv H. bind_inv H. exists x, x0.
  split; [assumption|]. split; [assumption|].
  destruct (msg_source_equal m x0); cbn [negb] in H.
  - unfold port_set_announce_tmo in H.
    bind_inv H. bind_inv H. destruct x2 as [fc2 d].
    injection H as <- _ <-.
    apply fc_prune_inv in Hx1 as [Hd1 _].
    apply fc_add_inv in Hx2 as [Hd2 Hq2].
    repeat split. exists fc2. repeat split.
    + now rewrite Hq2.
    + congruence.
  - bind_inv H. destruct x1 as [q s]. injection H as <- <- <-. auto.
Qed.

(** X17: [update_current_master] re-arms the announce receipt timer exactly
    for an Announce of the current best master, which it queues at the
    head of the record of the best master; any other Announce goes
    through [add_foreign_master] and leaves the timer alone. *)
Theorem update_current_master_rearms_for_best (w : world) (p p' : port)
    (m : ptp_message) (r : Z) (tr : list call) :
  update_current_master w p m = Some (p', r, tr) ->
  exists i fc,
    best p = Some i /\
    foreign_masters p !! i = Some fc /\
    if msg_source_equal m fc
    then tr = [timerfd_settime (fd (fda p) FD_ANNOUNCE_TIMER)
                 (announceReceiptTimeout p
                  * Z.shiftl 1 (logAnnounceInterval p))] /\
         best p' = best p /\
         exists fc2,
           foreign_masters p' = <[i := fc2]> (foreign_masters p) /\
           head (messages fc2) = Some m /\
           fc_dataset fc2 = fc_dataset fc
    else tr = [] /\ add_foreign_master w p m = Some (p', r).
Proof. apply update_current_master_inv. Qed.

Lemma process_announce_queued (w : world) (p p' : port) (m : ptp_message)
    (r : Z) (t : list call) :
  process_announce w p m = Some (p', r, t) ->
  r <> 0 ->
  ~ quiet p /\
  exists k fc,
    foreign_masters p' !! k = Some fc /\
    head (messages fc) = Some m /\
    msg_source_equal m fc = true.
Proof.
  intros H Hr.
  assert (Hadd : forall q s,
             add_foreign_master w p m = Some (q, s) -> s <> 0 ->
             exists k fc,
               foreign_masters q !! k = Some fc /\
               head (messages fc) = Some m /\
               msg_source_equal m fc = true)
    by (intros q s; apply add_foreign_master_queued).
  assert (Hupd : update_current_master w p m = Some (p', r, t) ->
                 exists k fc,
                   foreign_masters p' !! k = Some fc /\
                   head (messages fc) = Some m /\
                   msg_source_equal m fc = true).
  { intros Hu.
    apply update_current_master_inv in Hu as (i & fc & Hb & Hi & Hu).
    destruct (msg_source_equal m fc) eqn:Hm.
    - destruct Hu as (_ & _ & fc2 & Htab & Hhead & Hds).
      exists i, fc2. rewrite Htab. repeat split.
      + apply list_lookup_insert_eq. eapply lookup_lt_Some; eassumption.
      + exact Hhead.
      + rewrite (msg_source_equal_dataset m fc fc2); [exact Hm|].
        now rewrite Hds.
    - destruct Hu as [_ Hu]. eapply Hadd; eassumption. }
  unfold process_announce in H. unfold quiet.
  destruct (state p) eqn:Hst;
    try (injection H as _ <- _; now contradiction Hr);
    (split; [intros [? | [? | ?]]; discriminate|]);
    try (now apply Hupd);
    bind_inv H; destruct x as [q s]; injection H as <- <- _;
    eapply Hadd; eassumption.
Qed.

Lemma process_announce_calls (w : world) (p p' : port) (m : ptp_message)
    (r : Z) (t : list call) (c : call) :
  process_announce w p m = Some (p', r, t) ->
  In c t ->
  slave_side p /\
  c = timerfd_settime (fd (fda p) FD_ANNOUNCE_TIMER)
        (announceReceiptTimeout p * Z.shiftl 1 (logAnnounceInterval p)).
Proof.
  intros H Hc. unfold process_announce in H. unfold slave_side.
  destruct (state p) eqn:Hst;
    try (injection H as _ _ <-; destruct Hc);
    try (bind_inv H; destruct x as [q s]; injection H as _ _ <-;
         destruct Hc).
  all: split; [auto|];
    apply update_current_master_inv in H as (i & fc & _ & _ & H);
    destruct (msg_source_equal m fc);
    [destruct H as [-> _]; destruct Hc as [<- | []]; reflexivity
    |destruct H as [-> _]; destruct Hc].
Qed.

(** X18: when the announce receipt timer fires, the queue of the best record
    is emptied, so that the record no longer qualifies, the other
    records are left alone, the timer is armed again and the event is
    ANNOUNCE_RECEIPT_TIMEOUT_EXPIRES. *)
Theorem announce_timeout_clears_best (w : world) (p : port) (i : nat)
    (fc : foreign_clock) :
  threshold_ok ->
  1 <= FOREIGN_MASTER_THRESHOLD ->
  best p = Some i ->
  foreign_masters p !! i = Some fc ->
  wf_fc fc ->
  port_event w p FD_ANNOUNCE_TIMER =
    Some (EV_ANNOUNCE_RECEIPT_TIMEOUT_EXPIRES,
          port_with_table p (Some i)
            (<[i := fc_with_queue fc [] 0]> (foreign_masters p)),
          [timerfd_settime (fd (fda p) FD_ANNOUNCE_TIMER)
             (announceReceiptTimeout p
              * Z.shiftl 1 (logAnnounceInterval p))]) /\
  forall now, ~ qualified now (fc_with_queue fc [] 0).
Proof.
  intros HT HT1 Hbest Hi Hwf. split.
  - unfold port_event. rewrite Hbest. cbn. rewrite Hi. cbn.
    rewrite (fc_clear_wf fc HT Hwf). reflexivity.
  - intros now. apply not_qualified_empty; try assumption.
    + now apply wf_fc_cleared.
    + reflexivity.
Qed.

(** X19: in INITIALIZING, FAULTY and DISABLED a received message of any type
    changes nothing: the port is as it was, nothing is asked of the
    clock, the timers or the transport after the receive, and the event
    is EV_NONE or EV_FAULT_DETECTED. *)
Theorem port_event_quiet (w : world) (p : port) (i : fd_index) :
  quiet p ->
  i = FD_EVENT \/ i = FD_GENERAL ->
  exists ev tr,
    port_event w p i = Some (ev, p, tr) /\
    (ev = EV_NONE \/ ev = EV_FAULT_DETECTED) /\
    (tr = [] \/ tr = [transport_recv (fd (fda p) i)]).
Proof.
  intros Hq Hi.
  assert (Hsync : forall m, process_sync w p m = (p, []))
    by (intros m; unfold process_sync;
        destruct Hq as [-> | [-> | ->]]; reflexivity).
  assert (Hfup : forall m, process_follow_up w p m = (p, []))
    by (intros m; unfold process_follow_up;
        destruct Hq as [-> | [-> | ->]]; reflexivity).
  assert (Hreq : forall m, process_delay_req w p m = (-1, []))
    by (intros m; unfold process_delay_req;
        destruct Hq as [-> | [-> | ->]]; reflexivity).
  assert (Hrsp : forall m, process_delay_resp w p m = (p, []))
    by (intros m; unfold process_delay_resp;
        destruct (delay_req p); [|reflexivity];
        destruct Hq as [-> | [-> | ->]]; reflexivity).
  assert (Hann : forall m, process_announce w p m = Some (p, 0, []))
    by (intros m; unfold process_announce;
        destruct Hq as [-> | [-> | ->]]; reflexivity).
  destruct Hi as [-> | ->]; unfold port_event;
    (destruct (w_rx_allocate w); cbn [negb]; [|eauto 7]);
    cbv zeta;
    (destruct (w_recv w <=? 0); [eauto 7|]);
    (destruct (negb (w_post_recv w =? 0)); [eauto 7|]);
    rewrite ?Hsync, ?Hfup, ?Hreq, ?Hrsp, ?Hann;
    destruct (msg_type (w_rx_message w)); cbn; eauto 7.
Qed.

(** X20: EV_STATE_DECISION_EVENT is only returned for an Announce that was
    received outside INITIALIZING, FAULTY and DISABLED and that has been
    put at the head of the queue of the record of its source. *)
Theorem state_decision_only_for_queued_announce (w : world) (p p' : port)
    (i : fd_index) (tr : list call) :
  port_event w p i = Some (EV_STATE_DECISION_EVENT, p', tr) ->
  (i = FD_EVENT \/ i = FD_GENERAL) /\
  msg_type (w_rx_message w) = ANNOUNCE /\
  ~ quiet p /\
  exists k fc,
    foreign_masters p' !! k = Some fc /\
    head (messages fc) = Some (w_rx_message w) /\
    msg_source_equal (w_rx_message w) fc = true.
Proof.
  intros H.
  assert (Hi : i = FD_EVENT \/ i = FD_GENERAL).
  { destruct i; auto; unfold port_event in H.
    - bind_inv H. discriminate H.
    - destruct (port_delay_request w p) as [[rc p1] t].
      destruct (negb (rc =? 0)); discriminate H. }
  split; [exact Hi|].
  destruct (port_event_receive_inv w p p' i _ tr Hi H)
    as [(_ & He & _) | [(_ & _ & He & _) | [(_ & _ & _ & He & _)
       | (_ & _ & _ & t & _ & Hd)]]]; try discriminate He.
  unfold dispatched in Hd.
  destruct (msg_type (w_rx_message w));
    try (destruct Hd as [He _]; discriminate He).
  destruct Hd as (r & Ha & He). split; [reflexivity|].
  apply (process_announce_queued w p p' _ r t Ha).
  intros ->. discriminate He.
Qed.

(** X21: the clock is only fed on the slave side: [clock_synchronize] is
    called only for a Sync or a Follow_Up whose source is byte-wise the
    parent identity, [clock_path_delay] only for a Delay_Resp that
    matches the outstanding Delay_Req, and both only in UNCALIBRATED or
    SLAVE. *)
Theorem clock_fed_on_slave_side_only (w : world) (p p' : port)
    (i : fd_index) (ev : fsm_event) (tr : list call) :
  port_event w p i = Some (ev, p', tr) ->
  (forall ingress origin c1 c2,
     In (clock_synchronize ingress origin c1 c2) tr ->
     slave_side p /\
     from_parent w (w_rx_message w) /\
     (msg_type (w_rx_message w) = SYNC \/
      msg_type (w_rx_message w) = FOLLOW_UP)) /\
  (forall t3 t4 c,
     In (clock_path_delay t3 t4 c) tr ->
     slave_side p /\
     msg_type (w_rx_message w) = DELAY_RESP /\
     delay_resp_matches p (w_rx_message w)).
Proof.
  intros H.
  assert (Hcalls : forall c, In c tr ->
            (exists a b c1 c2, c = clock_synchronize a b c1 c2) \/
            (exists a b k, c = clock_path_delay a b k) ->
            (i = FD_EVENT \/ i = FD_GENERAL) /\
            exists t, In c t /\
                      dispatched w p (w_rx_message w) ev p' t).
  { intros c Hc Hkind.
    assert (Hi : i = FD_EVENT \/ i = FD_GENERAL).
    { destruct i; auto; unfold port_event in H; exfalso.
      - bind_inv H. injection H as _ _ <-.
        unfold port_set_announce_tmo in Hc. destruct Hc as [<- | []].
        destruct Hkind as [(? & ? & ? & ? & Hk) | (? & ? & ? & Hk)];
          discriminate Hk.
      - unfold port_delay_request, port_set_delay_tmo in H.
        destruct (w_tx_allocate w); cbn [negb] in H;
          [destruct (w_pre_send w (delay_req_build w p)) as [rc msg1];
           destruct (negb (rc =? 0));
             [|destruct (w_send w) as [n egress]; destruct (n <=? 0)]|];
          injection H as _ _ <-;
          repeat (destruct Hc as [<- | Hc]);
          try destruct Hc;
          destruct Hkind as [(? & ? & ? & ? & Hk) | (? & ? & ? & Hk)];
          discriminate Hk. }
    split; [exact Hi|].
    destruct (port_event_receive_inv w p p' i ev tr Hi H)
      as [(_ & _ & _ & ->) | [(_ & _ & _ & _ & ->)
         | [(_ & _ & _ & _ & _ & ->) | (_ & _ & _ & t & -> & Hd)]]].
    - destruct Hc.
    - exfalso. destruct Hc as [<- | []].
      destruct Hkind as [(? & ? & ? & ? & Hk) | (? & ? & ? & Hk)];
        discriminate Hk.
    - exfalso. destruct Hc as [<- | []].
      destruct Hkind as [(? & ? & ? & ? & Hk) | (? & ? & ? & Hk)];
        discriminate Hk.
    - exists t. split; [|exact Hd].
      destruct Hc as [<- | Hc]; [|exact Hc]. exfalso.
      destruct Hkind as [(? & ? & ? & ? & Hk) | (? & ? & ? & Hk)];
        discriminate Hk. }
  split.
  - intros ingress origin c1 c2 Hc.
    destruct (Hcalls _ Hc) as (_ & t & Ht & Hd); [left; eauto|].
    unfold dispatched in Hd.
    destruct (msg_type (w_rx_message w)) eqn:Htype.
    + destruct Hd as [_ Hd].
      assert (Ht' : In (clock_synchronize ingress origin c1 c2)
                      (snd (process_sync w p (w_rx_message w))))
        by now rewrite Hd.
      apply process_sync_calls in Ht' as (Hs & Hp & _). auto.
    + destruct Hd as (_ & _ & ->).
      apply process_delay_req_calls in Ht as [_ [Hk | Hk]]; discriminate Hk.
    + destruct Hd as (_ & _ & ->). destruct Ht.
    + destruct Hd as (_ & _ & ->). destruct Ht.
    + destruct Hd as [_ Hd].
      assert (Ht' : In (clock_synchronize ingress origin c1 c2)
                      (snd (process_follow_up w p (w_rx_message w))))
        by now rewrite Hd.
      apply process_follow_up_calls in Ht' as (Hs & Hp & _). auto.
    + destruct Hd as [_ Hd].
      assert (Ht' : In (clock_synchronize ingress origin c1 c2)
                      (snd (process_delay_resp w p (w_rx_message w))))
        by now rewrite Hd.
      apply process_delay_resp_calls in Ht' as (_ & ? & Hk). discriminate Hk.
    + destruct Hd as (_ & _ & ->). destruct Ht.
    + destruct Hd as (r & Ha & _).
      apply (process_announce_calls w p p' _ r t _ Ha) in Ht as [_ Hk].
      discriminate Hk.
    + destruct Hd as (_ & _ & ->). destruct Ht.
    + destruct Hd as (_ & _ & ->). destruct Ht.
  - intros t3 t4 c Hc.
    destruct (Hcalls _ Hc) as (_ & t & Ht & Hd); [right; eauto|].
    unfold dispatched in Hd.
    destruct (msg_type (w_rx_message w)) eqn:Htype.
    + destruct Hd as [_ Hd].
      assert (Ht' : In (clock_path_delay t3 t4 c)
                      (snd (process_sync w p (w_rx_message w))))
        by now rewrite Hd.
      apply process_sync_calls in Ht' as (_ & _ & ? & ? & Hk).
      discriminate Hk.
    + destruct Hd as (_ & _ & ->).
      apply process_delay_req_calls in Ht as [_ [Hk | Hk]]; discriminate Hk.
    + destruct Hd as (_ & _ & ->). destruct Ht.
    + destruct Hd as (_ & _ & ->). destruct Ht.
    + destruct Hd as [_ Hd].
      assert (Ht' : In (clock_path_delay t3 t4 c)
                      (snd (process_follow_up w p (w_rx_message w))))
        by now rewrite Hd.
      apply process_follow_up_calls in Ht' as (_ & _ & ? & ? & Hk).
      discriminate Hk.
    + destruct Hd as [_ Hd].
      assert (Ht' : In (clock_path_delay t3 t4 c)
                      (snd (process_delay_resp w p (w_rx_message w))))
        by now rewrite Hd.
      apply process_delay_resp_calls in Ht' as (Hm & _).
      pose proof Hm as (req & _ & Hs & _). auto.
    + destruct Hd as (_ & _ & ->). destruct Ht.
    + destruct Hd as (r & Ha & _).
      apply (process_announce_calls w p p' _ r t _ Ha) in Ht as [_ Hk].
      discriminate Hk.
    + destruct Hd as (_ & _ & ->). destruct Ht.
    + destruct Hd as (_ & _ & ->). destruct Ht.
Qed.

(** X22: the port sends two kinds of message only: the Delay_Req of the delay
    timer, on the event channel, and, in MASTER or GRAND_MASTER, the
    Delay_Resp that answers a received Delay_Req, on the general
    channel. *)
Theorem port_sends_only_delay_messages (w : world) (p p' : port)
    (i : fd_index) (ev : fsm_event) (tr : list call)
    (e len : Z) (m : ptp_message) :
  port_event w p i = Some (ev, p', tr) ->
  In (transport_send e m len) tr ->
  (i = FD_DELAY_TIMER /\ e = 1 /\
   m = snd (w_pre_send w (delay_req_build w p)) /\
   len = sizeof_delay_req_msg) \/
  ((i = FD_EVENT \/ i = FD_GENERAL) /\
   msg_type (w_rx_message w) = DELAY_REQ /\
   master_side p /\ e = 0 /\
   m = snd (w_pre_send w (delay_resp_build p (w_rx_message w))) /\
   len = sizeof_delay_resp_msg).
Proof.
  intros H Hc.
  assert (Hrx : i = FD_EVENT \/ i = FD_GENERAL ->
                msg_type (w_rx_message w) = DELAY_REQ /\
                master_side p /\ e = 0 /\
                m = snd (w_pre_send w
                           (delay_resp_build p (w_rx_message w))) /\
                len = sizeof_delay_resp_msg).
  { intros Hi.
    destruct (port_event_receive_inv w p p' i ev tr Hi H)
      as [(_ & _ & _ & ->) | [(_ & _ & _ & _ & ->)
         | [(_ & _ & _ & _ & _ & ->) | (_ & _ & _ & t & -> & Hd)]]].
    - destruct Hc.
    - destruct Hc as [Hk | []]. discriminate Hk.
    - destruct Hc as [Hk | []]. discriminate Hk.
    - destruct Hc as [Hk | Hc]; [discriminate Hk|].
      unfold dispatched in Hd.
      destruct (msg_type (w_rx_message w)) eqn:Htype.
      + destruct Hd as [_ Hd].
        assert (Ht' : In (transport_send e m len)
                        (snd (process_sync w p (w_rx_message w))))
          by now rewrite Hd.
        apply process_sync_calls in Ht' as (_ & _ & ? & ? & Hk).
        discriminate Hk.
      + destruct Hd as (_ & _ & ->).
        apply process_delay_req_calls in Hc as [Hm [Hk | Hk]];
          [discriminate Hk|].
        injection Hk as -> -> ->. auto.
      + destruct Hd as (_ & _ & ->). destruct Hc.
      + destruct Hd as (_ & _ & ->). destruct Hc.
      + destruct Hd as [_ Hd].
        assert (Ht' : In (transport_send e m len)
                        (snd (process_follow_up w p (w_rx_message w))))
          by now rewrite Hd.
        apply process_follow_up_calls in Ht' as (_ & _ & ? & ? & Hk).
        discriminate Hk.
      + destruct Hd as [_ Hd].
        assert (Ht' : In (transport_send e m len)
                        (snd (process_delay_resp w p (w_rx_message w))))
          by now rewrite Hd.
        apply process_delay_resp_calls in Ht' as (_ & ? & Hk).
        discriminate Hk.
      + destruct Hd as (_ & _ & ->). destruct Hc.
      + destruct Hd as (r & Ha & _).
        apply (process_announce_calls w p p' _ r t _ Ha) in Hc as [_ Hk].
        discriminate Hk.
      + destruct Hd as (_ & _ & ->). destruct Hc.
      + destruct Hd as (_ & _ & ->). destruct Hc. }
  destruct i; auto.
  - exfalso. unfold port_event in H. bind_inv H. injection H as _ _ <-.
    unfold port_set_announce_tmo in Hc. destruct Hc as [Hk | []].
    discriminate Hk.
  - left. split; [reflexivity|].
    unfold port_event, port_delay_request, port_set_delay_tmo in H.
    destruct (w_tx_allocate w); cbn [negb] in H;
      [destruct (w_pre_send w (delay_req_build w p)) as [rc msg1];
       destruct (negb (rc =? 0));
         [|destruct (w_send w) as [n egress]; destruct (n <=? 0)]|];
      injection H as _ _ <-;
      repeat (destruct Hc as [Hk | Hc]; [try discriminate Hk|]);
      try destruct Hc;
      injection Hk as <- <- <-; auto.
Qed.

(** X23: on a table of well-formed records with a best record that, when
    set, lies in the table, [port_event] fails to return in one case
    only: an Announce that is received and decoded in UNCALIBRATED or
    SLAVE while the port has no best record. *)
Theorem port_event_returns (w : world) (p : port) (i : fd_index) :
  threshold_ok ->
  Forall wf_fc (foreign_masters p) ->
  (forall k, best p = Some k -> (k < length (foreign_masters p))%nat) ->
  (port_event w p i = None <->
   (i = FD_EVENT \/ i = FD_GENERAL) /\
   w_rx_allocate w = true /\ 0 < w_recv w /\ w_post_recv w = 0 /\
   msg_type (w_rx_message w) = ANNOUNCE /\
   slave_side p /\ best p = None).
Proof.
  intros HT Hwf Hbest.
  assert (Hann : process_announce w p (w_rx_message w) = None <->
                 slave_side p /\ best p = None).
  { unfold process_announce, slave_side.
    destruct (add_foreign_master_wf w p (w_rx_message w) HT Hwf)
      as (q & s & Hadd & _).
    assert (Hupd : update_current_master w p (w_rx_message w) = None
                   <-> best p = None).
    { destruct (best p) as [k|] eqn:Hk.
      - destruct (update_current_master_wf w p (w_rx_message w) k HT Hwf Hk
                    (Hbest k eq_refl)) as (q' & s' & t' & Hu & _).
        rewrite Hu. split; discriminate.
      - unfold update_current_master. rewrite Hk. split; reflexivity. }
    destruct (state p); rewrite ?Hadd; cbn;
      try (split; [discriminate | intros [[? | ?] _]; discriminate]).
    - rewrite Hupd. intuition.
    - rewrite Hupd. intuition. }
  assert (Hrx : forall j, j = FD_EVENT \/ j = FD_GENERAL ->
            (port_event w p j = None <->
             w_rx_allocate w = true /\ 0 < w_recv w /\ w_post_recv w = 0 /\
             msg_type (w_rx_message w) = ANNOUNCE /\
             slave_side p /\ best p = None)).
  { intros j Hj.
    destruct Hj as [-> | ->]; unfold port_event;
      (destruct (w_rx_allocate w); cbn [negb];
         [|split; [discriminate | intros (? & _); discriminate]]);
      cbv zeta;
      (destruct (Z.leb_spec (w_recv w) 0);
         [split; [discriminate | intros (_ & ? & _); lia]|]);
      (destruct (Z.eqb_spec (w_post_recv w) 0); cbn [negb];
         [|split; [discriminate | intros (_ & _ & ? & _); congruence]]);
      (destruct (msg_type (w_rx_message w));
         try (destruct (process_sync _ _ _));
         try (destruct (process_follow_up _ _ _));
         try (destruct (process_delay_req _ _ _));
         try (destruct (process_delay_resp _ _ _));
         try (split; [discriminate
                     | intros (_ & _ & _ & ? & _); discriminate]));
      (destruct (process_announce w p (w_rx_message w))
         as [[[p1 r] t]|] eqn:Ha; cbn;
         [split; [discriminate|];
          intros (_ & _ & _ & _ & Hs & Hb);
          destruct Hann as [_ Hann]; specialize (Hann (conj Hs Hb));
          congruence
         |destruct Hann as [Hann _]; destruct (Hann eq_refl);
          split; [intros _; repeat split; auto | reflexivity]]). }
  destruct i.
  - rewrite (Hrx FD_EVENT) by auto. intuition.
  - rewrite (Hrx FD_GENERAL) by auto. intuition.
  - split; [|intros ([? | ?] & _); discriminate].
    unfold port_event. destruct (best p) as [k|] eqn:Hk; [|discriminate].
    destruct (lookup_lt_is_Some_2 _ _ (Hbest k eq_refl)) as [fc Hfc].
    rewrite Hfc. cbn.
    rewrite (fc_clear_wf fc HT (Forall_lookup_1 _ _ _ _ Hwf Hfc)).
    discriminate.
  - split; [|intros ([? | ?] & _); discriminate].
    unfold port_event. destruct (port_delay_request w p) as [[rc p1] t].
    discriminate.
Qed.


End Port.

(** ** The properties on the sample data *)

(** A one-step Sync from the parent in SLAVE. *)
Lemma process_sync_one_step_witness :
  process_sync true (sample_world one_step_sync 44)
    (sample_port PS_SLAVE None None None []) one_step_sync =
  (sample_port PS_SLAVE None None None [],
   [clock_synchronize {| tv_sec := 100; tv_nsec := 0 |}
      {| sec := 90; nsec := 0 |} 5 0]).
Proof.
  apply (process_sync_one_step true).
  - right. reflexivity.
  - vm_compute. reflexivity.
  - reflexivity.
Defined.

(** Sync 42 and its Follow_Up on a port that remembers nothing. *)
Lemma sync_follow_up_order_independent_witness :
  let w := sample_world sync42 44 in
  let p := sample_port PS_SLAVE None None None [] in
  let once := [clock_synchronize {| tv_sec := 100; tv_nsec := 0 |}
                 {| sec := 90; nsec := 0 |} 0 3] in
  snd (sync_then_follow_up true w p sync42 follow_up42) = once /\
  snd (follow_up_then_sync true w p sync42 follow_up42) = once.
Proof.
  apply (sync_follow_up_order_independent true).
  - right. reflexivity.
  - vm_compute. reflexivity.
  - vm_compute. reflexivity.
  - reflexivity.
  - reflexivity.
  - split; intros m H; discriminate H.
Defined.

(** C1 fails on a port that still remembers an older Sync with the same
    sequence id, as it does after an earlier pair with that id was
    closed: when the Follow_Up comes first it is paired with the older
    Sync, and the call carries the ingress time 50 instead of 100. *)
Lemma sync_follow_up_stale_counterexample :
  let w := sample_world sync42 44 in
  let p := sample_port PS_SLAVE None (Some stale_sync42) None [] in
  fst (sync_then_follow_up true w (sample_port PS_SLAVE None None None [])
         stale_sync42 stale_follow_up42) = p /\
  slave_side p /\
  from_parent true w sync42 /\
  from_parent true w follow_up42 /\
  one_step sync42 = false /\
  sequenceId (header sync42) = sequenceId (header follow_up42) /\
  snd (sync_then_follow_up true w p sync42 follow_up42) =
    [clock_synchronize {| tv_sec := 100; tv_nsec := 0 |}
       {| sec := 90; nsec := 0 |} 0 3] /\
  snd (follow_up_then_sync true w p sync42 follow_up42) =
    [clock_synchronize {| tv_sec := 50; tv_nsec := 0 |}
       {| sec := 90; nsec := 0 |} 0 3] /\
  snd (follow_up_then_sync true w p sync42 follow_up42) <>
  snd (sync_then_follow_up true w p sync42 follow_up42).
Proof.
  cbv zeta. repeat split; try (vm_compute; reflexivity).
  - right. reflexivity.
  - vm_compute. discriminate.
Qed.

(** The Delay_Resp with sequence id 7 answers the outstanding Delay_Req:
    the path delay is measured from the egress time 200 and the receive
    time 210, and again when the same response comes a second time. *)
Lemma delay_req_outlives_response_witness :
  let w := sample_world delay_resp7 44 in
  let p := sample_port PS_SLAVE (Some sent_delay_req) None None [] in
  let path_delay := [clock_path_delay {| tv_sec := 200; tv_nsec := 0 |}
                       {| sec := 210; nsec := 0 |} 1] in
  snd (process_delay_resp true w p delay_resp7) = path_delay /\
  delay_req (fst (process_delay_resp true w p delay_resp7))
    = Some sent_delay_req /\
  snd (process_delay_resp true w
         (fst (process_delay_resp true w p delay_resp7)) delay_resp7)
    = path_delay.
Proof.
  intros w p path_delay.
  assert (Hreq : delay_req p = Some sent_delay_req) by reflexivity.
  assert (Hm : delay_resp_matches true p delay_resp7).
  { exists sent_delay_req. split; [reflexivity|].
    split; [right; reflexivity|].
    split; vm_compute; reflexivity. }
  destruct (delay_req_outlives_response true 2 sample_dscmp sample_fsm
              w w p delay_resp7 sent_delay_req Hreq Hm)
    as (H1 & H2 & H3 & _).
  repeat split; assumption.
Defined.

(** A Delay_Resp with another sequence id is ignored. *)
Example process_delay_resp_other_sequence :
  let w := sample_world delay_resp7 44 in
  let p := sample_port PS_SLAVE (Some sent_delay_req) None None [] in
  let rsp8 := sample_message (sample_header DELAY_RESP parent_id 8 false 1)
                0 210 0 zero_announce own_id in
  process_delay_resp true w p rsp8 = (p, []).
Proof. reflexivity. Qed.

(** A Delay_Req received at second 100 by a master. *)
Lemma delay_resp_receive_timestamp_witness :
  let w := sample_world (delay_req_rx 100) 54 in
  let p := sample_port PS_MASTER None None None [] in
  let rsp := delay_resp_build true p (delay_req_rx 100) in
  head (snd (process_delay_req true w p (delay_req_rx 100)))
    = Some (msg_pre_send rsp) /\
  Timestamp_octets true (receiveTimestamp (delay_resp rsp))
    = [0; 0; 0; 0; 0; 100; 0; 0; 0; 0].
Proof.
  intros w p rsp.
  destruct (delay_resp_receive_timestamp true w p (delay_req_rx 100))
    as (H1 & _ & _ & _ & _ & H6).
  - left. reflexivity.
  - reflexivity.
  - split; [exact H1|]. apply H6.
    change (0 <= 100 < 2 ^ 32). lia.
Defined.

(** C7 fails for an ingress time of 2^32 seconds: the upper 16 bits of
    the seconds are 1, the reply carries 0 in [seconds_msb], and its ten
    octets are not the big-endian split of the ingress time. *)
Lemma delay_resp_seconds_msb_counterexample :
  let p := sample_port PS_MASTER None None None [] in
  let m := delay_req_rx (2 ^ 32) in
  let rx := receiveTimestamp (delay_resp (delay_resp_build true p m)) in
  state p = PS_MASTER /\
  Z.shiftr (tv_sec (hwts_ts (hwts m))) 32 = 1 /\
  seconds_msb rx = 0 /\
  seconds_msb rx <> htons true (Z.shiftr (tv_sec (hwts_ts (hwts m))) 32) /\
  Timestamp_octets true rx = [0; 0; 0; 0; 0; 0; 0; 0; 0; 0] /\
  be_octets 6 (tv_sec (hwts_ts (hwts m)))
    ++ be_octets 4 (tv_nsec (hwts_ts (hwts m)))
    = [0; 1; 0; 0; 0; 0; 0; 0; 0; 0] /\
  Timestamp_octets true rx <>
    be_octets 6 (tv_sec (hwts_ts (hwts m)))
      ++ be_octets 4 (tv_nsec (hwts_ts (hwts m))).
Proof.
  cbv zeta. repeat split; try (vm_compute; reflexivity);
    vm_compute; discriminate.
Qed.

(** The send of the reply to a Delay_Req fails in MASTER: the event is
    EV_NONE. *)
Lemma port_event_drops_reply_send_failure_witness :
  let w := sample_world (delay_req_rx 100) (-1) in
  let p := sample_port PS_MASTER None None None [] in
  fst (process_delay_req true w p (delay_req_rx 100)) = -1 /\
  port_event true 2 w p FD_EVENT =
    Some (EV_NONE, p,
          [transport_recv 3;
           msg_pre_send (delay_resp_build true p (delay_req_rx 100));
           transport_send 0 (delay_resp_build true p (delay_req_rx 100))
             sizeof_delay_resp_msg]).
Proof.
  intros w p.
  apply (port_event_drops_reply_send_failure true 2 w p FD_EVENT).
  - left. reflexivity.
  - reflexivity.
  - reflexivity.
  - reflexivity.
  - reflexivity.
  - left. reflexivity.
  - reflexivity.
  - reflexivity.
  - vm_compute. discriminate.
Defined.

(** The same failure on the delay timer is reported. *)
Example port_event_delay_timer_send_failure :
  let w := sample_world (delay_req_rx 100) (-1) in
  let p := sample_port PS_SLAVE None None None [] in
  fst <$> port_event true 2 w p FD_DELAY_TIMER
    = Some (EV_FAULT_DETECTED,
            port_with_delay_req p None 9).
Proof. reflexivity. Qed.

(** C9 fails for a port in INITIALIZING when [ptp_fsm] yields
    INITIALIZING, its current state: the port is initialized, its timer
    is armed and its state becomes LISTENING. *)
Lemma port_dispatch_initializing_counterexample :
  let w := sample_world sync42 44 in
  let p := sample_port PS_INITIALIZING None None None [] in
  sample_fsm (state p) (EV_OTHER 2) = state p /\
  state (fst (port_dispatch sample_fsm w p (EV_OTHER 2))) = PS_LISTENING /\
  snd (port_dispatch sample_fsm w p (EV_OTHER 2)) =
    [timerfd_create; timerfd_create; transport_open "eth0" 0;
     timerfd_settime 5 6; clock_install_fda (fda_with_timers
                                               (snd (w_transport_open w)) 5 6)]
  /\ port_dispatch sample_fsm w p (EV_OTHER 2) <> (p, []).
Proof.
  cbv zeta. repeat split. intros H. discriminate H.
Qed.

Lemma threshold_ok_2 : threshold_ok 2.
Proof. unfold threshold_ok. lia. Qed.

Lemma listening_port_wf (n : nat) :
  (n <= 3)%nat -> Forall (wf_fc 2) (foreign_masters (listening_port n)).
Proof.
  intros Hn. repeat constructor.
  unfold listening_port, sample_record, parent_announcements. cbn.
  rewrite length_map, length_seq. lia.
Qed.

(** The record of the parent holds one announcement: the next one breaks
    the threshold of 2 and [add_foreign_master] returns 1. *)
Lemma add_foreign_master_result_witness :
  let w := sample_world (announce_from parent_id 10 128 10) 44 in
  exists p',
    add_foreign_master true 2 w (listening_port 1)
      (announce_from parent_id 10 128 10) = Some (p', 1) /\
    (n_messages <$> foreign_masters p') = [2].
Proof.
  intros w.
  pose proof (add_foreign_master_result true 2 w (listening_port 1)
                (announce_from parent_id 10 128 10) threshold_ok_2
                (listening_port_wf 1 ltac:(lia))) as H.
  destruct (list_find _ _) as [[i fc]|] eqn:Hfind in H;
    [|vm_compute in Hfind; discriminate Hfind].
  destruct H as (fc1 & p' & r & Hprune & Hadd & Htable & Hr).
  vm_compute in Hadd. injection Hadd as <- <-.
  eexists. split; vm_compute; reflexivity.
Defined.

(** The first announcement of a new source creates its record and
    returns 0. *)
Example add_foreign_master_first_announce :
  let w := sample_world (announce_from other_id 1 100 10) 44 in
  let m := announce_from other_id 1 100 10 in
  add_foreign_master true 2 w (listening_port 1) m =
    Some (port_with_table (listening_port 1) None
            (new_foreign_clock m :: foreign_masters (listening_port 1)), 0).
Proof. reflexivity. Qed.

(** Two announcements are in the window and a third arrives: the record
    is well formed before and after. *)
Lemma foreign_clock_queue_invariant_witness :
  let w := sample_world (announce_from parent_id 10 128 10) 44 in
  exists p' r,
    add_foreign_master true 2 w (listening_port 2)
      (announce_from parent_id 10 128 10) = Some (p', r) /\
    Forall (wf_fc 2) (foreign_masters p').
Proof.
  intros w.
  destruct (foreign_clock_queue_invariant true 2 sample_dscmp w
              (listening_port 2) (announce_from parent_id 10 128 10)
              threshold_ok_2 (listening_port_wf 2 ltac:(lia)))
    as (_ & Hadd & _).
  exact Hadd.
Defined.

(** C3 fails for a record that holds two current announcements with a
    threshold of 2: the prune drops nothing, and after the add the record
    counts three messages. *)
Lemma foreign_clock_queue_bound_counterexample :
  let w := sample_world (announce_from parent_id 10 128 10) 44 in
  let m := announce_from parent_id 10 128 10 in
  Forall (fun fc => n_messages fc = Z.of_nat (length (messages fc))
                    /\ n_messages fc <= 2)
         (foreign_masters (listening_port 2)) /\
  exists p' r fc,
    add_foreign_master true 2 w (listening_port 2) m = Some (p', r) /\
    foreign_masters p' !! 0%nat = Some fc /\
    n_messages fc = 3 /\
    n_messages fc = Z.of_nat (length (messages fc)) /\
    ~ n_messages fc <= 2.
Proof.
  cbv zeta. split.
  - repeat constructor; vm_compute; discriminate.
  - eexists _, _, _. split; [vm_compute; reflexivity|].
    split; [reflexivity|]. repeat split. vm_compute. intros H. apply H.
    reflexivity.
Qed.

Lemma sample_dscmp_irreflexive (a : dataset) : ~ beats sample_dscmp a a.
Proof. unfold beats, sample_dscmp. lia. Qed.

Lemma sample_dscmp_transitive (a b c : dataset) :
  beats sample_dscmp a b -> beats sample_dscmp b c -> beats sample_dscmp a c.
Proof. unfold beats, sample_dscmp. lia. Qed.

Lemma two_masters_wf (first second : PortIdentity) (prio1 prio2 : Z) :
  Forall (wf_fc 2) (two_masters first second prio1 prio2).
Proof. repeat constructor; cbn; lia. Qed.



(** The better record comes second: it replaces the first one, which
    keeps its queue. *)
Example port_compute_best_better_second :
  let w := sample_world sync42 44 in
  let p := sample_port PS_LISTENING None None None
             (two_masters parent_id other_id 128 100) in
  (fun r => (snd r, n_messages <$> foreign_masters (fst r)))
    <$> port_compute_best 2 sample_dscmp at_second_10 w p
  = Some (Some 1%nat, [2; 2]).
Proof. vm_compute. reflexivity. Qed.

(** The better record comes first: the second one loses and its queue is
    cleared. *)
Example port_compute_best_loser_second :
  let w := sample_world sync42 44 in
  let p := sample_port PS_LISTENING None None None
             (two_masters other_id parent_id 100 128) in
  (fun r => (snd r,
             (fun fc => (n_messages fc, length (messages fc)))
               <$> foreign_masters (fst r)))
    <$> port_compute_best 2 sample_dscmp at_second_10 w p
  = Some (Some 0%nat, [(2, 2%nat); (0, 0%nat)]).
Proof. vm_compute. reflexivity. Qed.

(** One announcement does not qualify its sender. *)
Example port_compute_best_first_announce :
  let w := sample_world sync42 44 in
  snd <$> port_compute_best 2 sample_dscmp at_second_10 w (listening_port 1)
  = Some None.
Proof. vm_compute. reflexivity. Qed.

(** [port_open] leaves the port in INITIALIZING. *)
Example port_open_initializing (ifname : string)
    (timestamping number dm identity : Z) :
  state <$> port_open true true ifname timestamping number dm identity
  = Some PS_INITIALIZING.
Proof. reflexivity. Qed.

(** Four announcements of the parent, at the seconds 7 to 10, reach a
    listening port with an empty table: the first creates the record, the
    third breaks the threshold, and the fourth leaves three messages in
    the queue. *)
Example port_event_four_announcements :
  let rx := fun t => sample_world_at t (announce_from parent_id t 128 t) 44 in
  ('(e1, p1, _) ← port_event true 2 (rx 7)
                    (sample_port PS_LISTENING None None None []) FD_GENERAL;
   '(e2, p2, _) ← port_event true 2 (rx 8) p1 FD_GENERAL;
   '(e3, p3, _) ← port_event true 2 (rx 9) p2 FD_GENERAL;
   '(e4, p4, _) ← port_event true 2 (rx 10) p3 FD_GENERAL;
   Some ([e1; e2; e3; e4],
         n_messages <$> foreign_masters p3,
         n_messages <$> foreign_masters p4))
  = Some ([EV_NONE; EV_NONE; EV_STATE_DECISION_EVENT; EV_NONE], [2], [3]).
Proof. vm_compute. reflexivity. Qed.

(** ** Instances of the further properties *)

Lemma parent_record_wf (n : nat) :
  (n <= 3)%nat -> wf_fc 2 (sample_record parent_id (parent_announcements n)).
Proof.
  intros Hn. unfold wf_fc, sample_record, parent_announcements. cbn.
  rewrite length_map, length_seq. lia.
Qed.

Lemma two_masters_distinct (prio1 prio2 : Z) :
  distinct_senders true (two_masters parent_id other_id prio1 prio2).
Proof.
  intros i j fi fj Hi Hj H.
  destruct i as [|[|i]], j as [|[|j]]; cbn in Hi, Hj;
    try discriminate; try reflexivity;
    injection Hi as <-; injection Hj as <-;
    vm_compute in H; discriminate H.
Qed.

Lemma two_masters_from_sender (prio1 prio2 : Z) :
  Forall (queue_from_sender true)
    (two_masters parent_id other_id prio1 prio2).
Proof. repeat constructor. Qed.

(** Three announcements are queued and two are counted: the two oldest
    are released and the newest stays. *)
Lemma fc_clear_releases_counted_witness :
  fc_clear miscounted_record =
    Some (fc_with_queue miscounted_record
            [announce_from parent_id 9 128 9] 0).
Proof.
  rewrite (fc_clear_releases_counted miscounted_record);
    [reflexivity | cbn; lia].
Defined.

(** At second 16 the announcement of second 8 is dropped and the one of
    second 9 is kept. *)
Lemma fc_prune_keeps_current_head_witness :
  let now := {| tv_sec := 16; tv_nsec := 0 |} in
  let fc := sample_record parent_id (parent_announcements 2) in
  exists fc1 old,
    fc_prune 2 now fc = Some fc1 /\
    messages fc = messages fc1 ++ old /\
    n_messages fc1 <= 2 /\
    (forall m, last (messages fc1) = Some m -> msg_current m now = true).
Proof.
  intros now fc.
  destruct (fc_prune_keeps_current_head 2 now fc threshold_ok_2
              (parent_record_wf 2 ltac:(lia)))
    as (fc1 & old & Hrun & Hcut & _ & Hn & _ & Hlast).
  exists fc1, old. auto.
Defined.

Lemma fc_prune_idempotent_witness :
  let now := {| tv_sec := 16; tv_nsec := 0 |} in
  fc_prune 2 now (sample_record parent_id (parent_announcements 1)) =
    Some (sample_record parent_id (parent_announcements 1)).
Proof.
  intros now.
  apply (fc_prune_idempotent 2 now
           (sample_record parent_id (parent_announcements 2))
           (sample_record parent_id (parent_announcements 1))
           threshold_ok_2 (parent_record_wf 2 ltac:(lia))).
  vm_compute. reflexivity.
Defined.

(** An announcement of second 1 is stale at second 10, and so it is at
    second 20. *)
Lemma msg_current_expires_witness :
  msg_current (announce_from parent_id 1 128 1)
    {| tv_sec := 20; tv_nsec := 0 |} = false.
Proof.
  apply (msg_current_expires (announce_from parent_id 1 128 1)
           {| tv_sec := 10; tv_nsec := 0 |} {| tv_sec := 20; tv_nsec := 0 |}).
  - vm_compute. repeat split; discriminate.
  - vm_compute. repeat split; discriminate.
  - vm_compute. repeat split; discriminate.
  - vm_compute. discriminate.
  - vm_compute. reflexivity.
Defined.

(** Outside that range the times wrap: an announcement of second 0 is
    stale at second 10 and counts as current again at second 9223372037,
    whose nanoseconds no longer fit an [int64_t]. *)
Example msg_current_wraps :
  msg_current (announce_from parent_id 1 128 0)
    {| tv_sec := 10; tv_nsec := 0 |} = false /\
  msg_current (announce_from parent_id 1 128 0)
    {| tv_sec := 9223372037; tv_nsec := 0 |} = true.
Proof. vm_compute. split; reflexivity. Qed.

(** The window of a message is 4 * 2^logMessageInterval seconds for the
    intervals from 0 to 28; with an interval of 29 the product with 4
    leaves the range of [int] and the window is negative, so that the
    message is never current. *)
Example msg_current_window_wraps :
  let m := fun l =>
    sample_message
      {| tsmt := ANNOUNCE; ver := 2; messageLength := 64; domainNumber := 0;
         twoStepFlag := false; correction := 0;
         sourcePortIdentity := parent_id; sequenceId := 1;
         control := CTL_OTHER; logMessageInterval := l |}
      10 0 10 (sample_announce 128) zero_identity in
  msg_current (m 28) {| tv_sec := 10; tv_nsec := 0 |} = true /\
  msg_current (m 29) {| tv_sec := 10; tv_nsec := 0 |} = false.
Proof. vm_compute. split; reflexivity. Qed.

Lemma pid_eq_decides_equality_witness :
  pid_eq true parent_id parent_id = true /\
  pid_eq true parent_id own_id <> true.
Proof.
  assert (Hparent : PortIdentity_ok parent_id)
    by (unfold PortIdentity_ok; cbn; lia).
  assert (Hown : PortIdentity_ok own_id)
    by (unfold PortIdentity_ok; cbn; lia).
  split.
  - apply (pid_eq_decides_equality true parent_id parent_id Hparent Hparent).
    reflexivity.
  - intros H.
    apply (pid_eq_decides_equality true parent_id own_id Hparent Hown) in H.
    discriminate H.
Defined.

(** The request with id 7 is kept as 1792 on a little-endian host: the
    response with id 7 matches. *)
Lemma delay_resp_matches_sent_id_witness :
  delay_resp_matches true
    (sample_port PS_SLAVE (Some sent_delay_req) None None []) delay_resp7.
Proof.
  apply (delay_resp_matches_sent_id true
           (sample_port PS_SLAVE (Some sent_delay_req) None None [])
           delay_resp7 sent_delay_req 7).
  - reflexivity.
  - right. reflexivity.
  - vm_compute. reflexivity.
  - vm_compute. reflexivity.
  - lia.
  - reflexivity.
Defined.

(** A third announcement of the other clock goes to its record: the
    table keeps its two records. *)
Lemma add_foreign_master_one_record_per_sender_witness :
  let m := announce_from other_id 3 100 10 in
  let w := sample_world m 44 in
  let p := sample_port PS_LISTENING None None None
             (two_masters parent_id other_id 128 100) in
  exists p' r,
    add_foreign_master true 2 w p m = Some (p', r) /\
    distinct_senders true (foreign_masters p') /\
    length (foreign_masters p') = 2%nat.
Proof.
  intros m w p.
  destruct (add_foreign_master true 2 w p m) as [[p' r]|] eqn:Hrun;
    [|vm_compute in Hrun; discriminate Hrun].
  destruct (add_foreign_master_one_record_per_sender true 2 w p p' m r
              (two_masters_distinct 128 100)
              (two_masters_from_sender 128 100) Hrun)
    as (Hdistinct & _ & [Hlen | [Hnone _]]).
  - exists p', r. repeat split; [exact Hdistinct | exact Hlen].
  - apply Forall_inv_tail, Forall_inv in Hnone.
    vm_compute in Hnone. discriminate Hnone.
Defined.

(** At second 16 the older announcement of each record is cut off. *)
Lemma port_compute_best_only_cuts_witness :
  let w := sample_world sync42 44 in
  let p := sample_port PS_LISTENING None None None
             (two_masters parent_id other_id 128 100) in
  exists p' b,
    port_compute_best 2 sample_dscmp at_second_16 w p = Some (p', b) /\
    p' = port_with_table p b (foreign_masters p') /\
    Forall2 (visited w) (foreign_masters p) (foreign_masters p').
Proof.
  intros w p.
  destruct (port_compute_best 2 sample_dscmp at_second_16 w p)
    as [[p' b]|] eqn:Hrun; [|vm_compute in Hrun; discriminate Hrun].
  exists p', b. split; [reflexivity|].
  apply (port_compute_best_only_cuts 2 sample_dscmp at_second_16 w p p' b
           Hrun).
Defined.

Lemma port_compute_best_keeps_senders_witness :
  let w := sample_world sync42 44 in
  let p := sample_port PS_LISTENING None None None
             (two_masters parent_id other_id 128 100) in
  exists p' b,
    port_compute_best 2 sample_dscmp at_second_10 w p = Some (p', b) /\
    distinct_senders true (foreign_masters p') /\
    Forall (queue_from_sender true) (foreign_masters p').
Proof.
  intros w p.
  destruct (port_compute_best 2 sample_dscmp at_second_10 w p)
    as [[p' b]|] eqn:Hrun; [|vm_compute in Hrun; discriminate Hrun].
  exists p', b. split; [reflexivity|].
  destruct (port_compute_best_keeps_senders true 2 sample_dscmp
              at_second_10 w p p' b (two_masters_distinct 128 100)
              (two_masters_from_sender 128 100) Hrun)
    as (Hdistinct & Hqueue & _).
  split; [exact Hdistinct | exact Hqueue].
Defined.

(** The other clock, of priority 100, is selected: the best data set is
    the one of its newest announcement. *)
Lemma port_best_foreign_after_selection_witness :
  let w := sample_world sync42 44 in
  let p := sample_port PS_LISTENING None None None
             (two_masters parent_id other_id 128 100) in
  exists p' b,
    port_compute_best 2 sample_dscmp at_second_10 w p = Some (p', b) /\
    port_best_foreign p' =
      Some (announce_to_dataset (announce_from other_id 2 100 9) w).
Proof.
  intros w p.
  destruct (port_compute_best 2 sample_dscmp at_second_10 w p)
    as [[p' b]|] eqn:Hrun; [|vm_compute in Hrun; discriminate Hrun].
  exists p', b. split; [reflexivity|].
  rewrite (port_best_foreign_after_selection 2 sample_dscmp at_second_10
             w p p' b Hrun).
  vm_compute in Hrun. injection Hrun as _ <-.
  vm_compute. reflexivity.
Defined.

(** The sequence number wraps: after the request with id 65535 comes the
    request with id 0. *)
Lemma port_delay_request_sequence_witness :
  let w := sample_world sync42 44 in
  let p := port_with_delay_req (sample_port PS_SLAVE None None None [])
             None 65535 in
  let p1 := snd (fst (port_delay_request w p)) in
  sequenceId (header (delay_req_build w p)) = 65535 /\
  sequenceId (header (delay_req_build w p1)) = 0.
Proof.
  intros w p p1.
  pose proof (port_delay_request_sequence w w p eq_refl eq_refl
                ltac:(cbn; lia)) as H.
  cbv zeta in H. destruct H as (_ & _ & Hfirst & Hsecond & _).
  split; [exact Hfirst | exact Hsecond].
Defined.

(** The request with id 8 leaves at second 200; the response with id 8
    gives that second to the clock. *)
Lemma delay_round_trip_witness :
  let w := wire_world sync42 0 in
  let w' := wire_world delay_resp8 0 in
  let p := sample_port PS_SLAVE None None None [] in
  let p1 := snd (fst (port_delay_request w p)) in
  snd (process_delay_resp true w' p1 delay_resp8) =
    [clock_path_delay {| tv_sec := 200; tv_nsec := 0 |}
       {| sec := 210; nsec := 0 |} 1].
Proof.
  intros w w' p p1.
  apply (delay_round_trip true w w' p p1
           (snd (port_delay_request w p)) delay_resp8).
  - vm_compute. reflexivity.
  - eexists. split; [vm_compute; reflexivity|].
    split; [right; reflexivity|].
    split; vm_compute; reflexivity.
Defined.

(** The announce receipt timer cannot be armed: both timers and the
    transport are closed, the first timer last. *)
Lemma port_initialize_unwinds_witness :
  let w := wire_world sync42 (-1) in
  let p := sample_port PS_INITIALIZING None None None [] in
  let tr := snd (port_initialize w p) in
  last tr = Some (sys_close 5) /\
  In (sys_close 6) tr /\
  forall f, ~ In (clock_install_fda f) tr.
Proof.
  intros w p tr.
  pose proof (port_initialize_unwinds w p) as H.
  cbv zeta in H.
  destruct H as (Hclock & Hfirst & Hsecond & _).
  - vm_compute. discriminate.
  - split; [apply Hfirst; vm_compute; discriminate|].
    split; [apply Hsecond; vm_compute; discriminate|].
    exact Hclock.
Defined.

Lemma port_close_after_initialize_witness :
  let w := sample_world sync42 44 in
  let p := sample_port PS_INITIALIZING None None None [] in
  let p' := snd (fst (port_initialize w p)) in
  port_close p' = [transport_close (fda p'); sys_close 5; sys_close 6].
Proof.
  intros w p p'.
  apply (port_close_after_initialize w p). reflexivity.
Defined.

(** An announcement of the parent, the best master, arrives: the timer
    is armed for 3 * 2^1 seconds. *)
Lemma update_current_master_rearms_for_best_witness :
  let m := announce_from parent_id 10 128 10 in
  let w := sample_world m 44 in
  exists p' r,
    update_current_master true 2 w (slave_of_parent 1) m =
      Some (p', r, [timerfd_settime 5 6]) /\
    best p' = Some 0%nat.
Proof.
  intros m w.
  destruct (update_current_master true 2 w (slave_of_parent 1) m)
    as [[[p' r] tr]|] eqn:Hrun; [|vm_compute in Hrun; discriminate Hrun].
  destruct (update_current_master_rearms_for_best true 2 w
              (slave_of_parent 1) p' m r tr Hrun)
    as (i & fc & Hbest & Hlookup & H).
  injection Hbest as <-. injection Hlookup as <-.
  assert (Hsame : msg_source_equal true m
                    (sample_record parent_id (parent_announcements 1))
                  = true) by (vm_compute; reflexivity).
  rewrite Hsame in H. destruct H as (-> & Hkept & _).
  exists p', r. split; [reflexivity | exact Hkept].
Defined.

(** The announce receipt timer of a slave fires: the two announcements
    of the parent are released. *)
Lemma announce_timeout_clears_best_witness :
  let w := sample_world sync42 44 in
  exists p',
    port_event true 2 w (slave_of_parent 2) FD_ANNOUNCE_TIMER =
      Some (EV_ANNOUNCE_RECEIPT_TIMEOUT_EXPIRES, p',
            [timerfd_settime 5 6]) /\
    (messages <$> foreign_masters p') = [[]].
Proof.
  intros w.
  destruct (announce_timeout_clears_best true 2 w (slave_of_parent 2)
              0%nat (sample_record parent_id (parent_announcements 2))
              threshold_ok_2 ltac:(lia) eq_refl eq_refl
              (parent_record_wf 2 ltac:(lia)))
    as [Hrun _].
  eexists. split; [exact Hrun | reflexivity].
Defined.

(** A faulty port receives a Sync of the parent and does nothing with
    it. *)
Lemma port_event_quiet_witness :
  let w := sample_world sync42 44 in
  let p := sample_port PS_FAULTY None None None [] in
  exists ev tr,
    port_event true 2 w p FD_EVENT = Some (ev, p, tr) /\
    (ev = EV_NONE \/ ev = EV_FAULT_DETECTED) /\
    (tr = [] \/ tr = [transport_recv 3]).
Proof.
  intros w p.
  apply (port_event_quiet true 2 w p FD_EVENT).
  - right. left. reflexivity.
  - left. reflexivity.
Defined.

(** The second announcement of the parent reaches the threshold: the
    event is STATE_DECISION_EVENT and the announcement is at the head of
    the record of the parent. *)
Lemma state_decision_only_for_queued_announce_witness :
  let m := announce_from parent_id 10 128 10 in
  let w := sample_world m 44 in
  exists p' tr k fc,
    port_event true 2 w (listening_port 1) FD_GENERAL =
      Some (EV_STATE_DECISION_EVENT, p', tr) /\
    foreign_masters p' !! k = Some fc /\
    head (messages fc) = Some m.
Proof.
  intros m w.
  assert (Hrun : exists p' tr,
             port_event true 2 w (listening_port 1) FD_GENERAL =
               Some (EV_STATE_DECISION_EVENT, p', tr))
    by (eexists _, _; vm_compute; reflexivity).
  destruct Hrun as (p' & tr & Hrun).
  destruct (state_decision_only_for_queued_announce true 2 w
              (listening_port 1) p' FD_GENERAL tr Hrun)
    as (_ & _ & _ & k & fc & Hlookup & Hhead & _).
  exists p', tr, k, fc. auto.
Defined.

(** A slave hands a one-step Sync to the clock: the Sync is of the
    parent. *)
Lemma clock_fed_on_slave_side_only_witness :
  let w := sample_world one_step_sync 44 in
  let p := sample_port PS_SLAVE None None None [] in
  exists ev p' tr,
    port_event true 2 w p FD_EVENT = Some (ev, p', tr) /\
    In (clock_synchronize {| tv_sec := 100; tv_nsec := 0 |}
          {| sec := 90; nsec := 0 |} 5 0) tr /\
    from_parent true w one_step_sync.
Proof.
  intros w p.
  destruct (port_event true 2 w p FD_EVENT) as [[[ev p'] tr]|] eqn:Hrun;
    [|vm_compute in Hrun; discriminate Hrun].
  pose proof Hrun as Hvalue. vm_compute in Hvalue.
  injection Hvalue as <- <- <-.
  destruct (clock_fed_on_slave_side_only true 2 w p _ FD_EVENT _ _ Hrun)
    as [Hsync _].
  eexists _, _, _. split; [reflexivity|].
  assert (Hin : In (clock_synchronize {| tv_sec := 100; tv_nsec := 0 |}
                      {| sec := 90; nsec := 0 |} 5 0)
                   [transport_recv 3;
                    clock_synchronize {| tv_sec := 100; tv_nsec := 0 |}
                      {| sec := 90; nsec := 0 |} 5 0])
    by (right; left; reflexivity).
  split; [exact Hin|].
  destruct (Hsync _ _ _ _ Hin) as (_ & Hparent & _). exact Hparent.
Defined.

(** A master answers a Delay_Req: the message sent is the Delay_Resp, on
    the general channel. *)
Lemma port_sends_only_delay_messages_witness :
  let w := sample_world (delay_req_rx 300) 54 in
  let p := sample_port PS_MASTER None None None [] in
  exists ev p' tr e m len,
    port_event true 2 w p FD_EVENT = Some (ev, p', tr) /\
    In (transport_send e m len) tr /\
    e = 0 /\ len = sizeof_delay_resp_msg /\
    m = delay_resp_build true p (delay_req_rx 300).
Proof.
  intros w p.
  destruct (port_event true 2 w p FD_EVENT) as [[[ev p'] tr]|] eqn:Hrun;
    [|vm_compute in Hrun; discriminate Hrun].
  assert (Hin : In (transport_send 0
                      (delay_resp_build true p (delay_req_rx 300))
                      sizeof_delay_resp_msg) tr).
  { pose proof Hrun as Hvalue. vm_compute in Hvalue.
    injection Hvalue as _ _ <-. right. right. left. vm_compute. reflexivity. }
  destruct (port_sends_only_delay_messages true 2 w p p' FD_EVENT ev tr
              _ _ _ Hrun Hin)
    as [(Hfd & _) | (_ & _ & _ & He & Hm & Hlen)];
    [discriminate Hfd|].
  exists ev, p', tr, 0, (delay_resp_build true p (delay_req_rx 300)),
    sizeof_delay_resp_msg.
  auto.
Defined.

(** A slave without a best record receives an Announce: [port_event]
    reads through the missing record. *)
Lemma port_event_returns_witness :
  let m := announce_from parent_id 10 128 10 in
  let w := sample_world m 44 in
  let p := sample_port PS_SLAVE None None None [] in
  port_event true 2 w p FD_GENERAL = None /\
  port_event true 2 w (slave_of_parent 1) FD_GENERAL <> None.
Proof.
  intros m w p. split.
  - apply (port_event_returns true 2 w p FD_GENERAL threshold_ok_2
             (Forall_nil_2 _) ltac:(intros k H; discriminate H)).
    repeat split; try reflexivity; auto.
    right. reflexivity.
  - intros H.
    apply (port_event_returns true 2 w (slave_of_parent 1) FD_GENERAL
             threshold_ok_2 (listening_port_wf 1 ltac:(lia)))
      in H.
    + destruct H as (_ & _ & _ & _ & _ & _ & H). discriminate H.
    + intros k Hk. injection Hk as <-. cbn. lia.
Defined.
